(** * ConfessionVault: the on-chain confession ledger

    A shallow embedding of the Solidity contract [ConfessionVault]
    (pragma ^0.8.24) and the properties of its state machine.

    Conventions of the embedding:
    - [uintN] values are integers in [Z]; Solidity 0.8 arithmetic is
      checked, so [+] and [++] revert with [Panic 0x11] instead of
      wrapping, and that is written out in [checked_add];
    - an [address] is a [Z] (160 bits), [bytes] is a [list byte],
      [bytes32] is a [Z];
    - a [mapping] is a finite map read with the zero default of its value
      type ([gmap] and [default]);
    - a transaction either commits its storage writes and its events, or
      reverts and leaves the storage as it was.

    The file has two parts: the definitions (the contract, then the
    vocabulary of its specification and the concrete runs), and the
    theorems. *)

From Stdlib Require Import ZArith List Lia Bool.
From Stdlib Require Import Strings.String Strings.Byte.
From Stdlib Require Import Strings.Ascii DecimalString DecimalZ DecimalPos.
From stdpp Require Import base option list gmap fin_maps.
From stdpp Require Import sorting.

Local Open Scope Z_scope.

(** ** The encrypted-integer capability

    [FHE.sol] is an external library.  The contract uses three of its
    operations on [euint32]: trivial encryption of a constant, homomorphic
    addition, and the access-control grant [FHE.allow], which writes to the
    ACL contract and not to the vault's storage.  The ledger is generic in
    the capability. *)

Class FHE := {
  euint32 : Type;
  (* the all-zero handle a fresh storage slot holds *)
  euint32_unset : euint32;
  asEuint32 : Z -> euint32;
  fhe_add : euint32 -> euint32 -> euint32;
}.

(** A decryption oracle for a capability: 32-bit wrap-around sums. *)
Class DecryptionOracle (F : FHE) := {
  decrypt : euint32 -> Z;
  decrypt_asEuint32 : forall v, decrypt (asEuint32 v) = v mod 2 ^ 32;
  decrypt_add : forall a b,
    decrypt (fhe_add a b) = (decrypt a + decrypt b) mod 2 ^ 32;
}.

(** The transparent capability used for testing: a ciphertext is its
    plaintext. *)
Definition TransparentFHE : FHE := {|
  euint32 := Z;
  euint32_unset := 0;
  asEuint32 := fun v => v mod 2 ^ 32;
  fhe_add := fun a b => (a + b) mod 2 ^ 32;
|}.

Definition TransparentOracle : DecryptionOracle TransparentFHE := {|
  decrypt := fun c : @euint32 TransparentFHE => (c : Z);
  decrypt_asEuint32 := fun v => eq_refl;
  decrypt_add := fun a b => eq_refl;
|}.

(** ** Execution results *)

(** Revert reasons: one constructor per [require] message or custom error
    of the contract and its two OpenZeppelin bases, and [Panic]. *)
Inductive RevertReason :=
| ContractIsPaused              (* "Contract is paused" *)
| MessageCannotBeEmpty          (* "Message cannot be empty" *)
| RateLimitActive               (* "Rate limit active - please wait ..." *)
| ConfessionDoesNotExist        (* "Confession does not exist" *)
| AlreadyUpvoted                (* "Already upvoted this confession" *)
| CooldownTooLong               (* "Cooldown too long (max 1 hour)" *)
| OnlyAuthorCanUpdate           (* "Only author can update IPFS CID" *)
| OwnableUnauthorizedAccount (account : Z)
| OwnableInvalidOwner (account : Z)
| ReentrancyGuardReentrantCall
| Panic (code : Z).

(** The error kinds of the specification's taxonomy. *)
Inductive ErrorKind :=
| Paused | RateLimited | AlreadyVoted | NotFound | Unauthorized | InvalidInput.

Definition kind_of (r : RevertReason) : option ErrorKind :=
  match r with
  | ContractIsPaused => Some Paused
  | MessageCannotBeEmpty => Some InvalidInput
  | RateLimitActive => Some RateLimited
  | ConfessionDoesNotExist => Some NotFound
  | AlreadyUpvoted => Some AlreadyVoted
  | CooldownTooLong => Some InvalidInput
  | OnlyAuthorCanUpdate => Some Unauthorized
  | OwnableUnauthorizedAccount _ => Some Unauthorized
  | OwnableInvalidOwner _ => Some InvalidInput
  | ReentrancyGuardReentrantCall => None
  | Panic _ => None
  end.

Inductive Result (A : Type) :=
| Ok (a : A)
| Revert (r : RevertReason).
Arguments Ok {A} a.
Arguments Revert {A} r.

Inductive Event :=
| ConfessionSubmitted (id author timestamp : Z)
| ConfessionUpvoted (id voter timestamp : Z)
| RateLimitUpdated (newCooldown : Z)
| ContractPaused (isPaused : bool)
| OwnershipTransferred (previousOwner newOwner : Z).

(** The part of the execution context the contract reads. *)
Record Ctx := { sender : Z; timestamp : Z }.

Definition NOT_ENTERED : Z := 1.
Definition ENTERED : Z := 2.
Definition PANIC_OVERFLOW : Z := 17. (* 0x11 *)

Section Ledger.
Context {F : FHE}.

(** ** Storage *)

Record Confession := {
  message : list byte;
  encryptedVotes : euint32;
  voteCount : Z;        (* uint32 *)
  createdAt : Z;        (* uint64 *)
  author : Z;           (* address *)
  ipfsCID : Z;          (* bytes32 *)
  exists_ : bool;
}.

(** The value of a storage slot that was never written. *)
Definition zeroConfession : Confession := {|
  message := [];
  encryptedVotes := euint32_unset;
  voteCount := 0;
  createdAt := 0;
  author := 0;
  ipfsCID := 0;
  exists_ := false;
|}.

Record State := {
  confessions : gmap Z Confession;
  (* mapping(uint256 => mapping(address => bool)), keyed by the pair *)
  hasUpvoted : gmap (Z * Z) bool;
  lastSubmissionTime : gmap Z Z;
  confessionCount : Z;
  rateLimitCooldown : Z;
  paused : bool;
  owner : Z;            (* Ownable._owner *)
  guardStatus : Z;      (* ReentrancyGuard._status *)
}.

(** Reads of the three mappings, with Solidity's zero default. *)
Definition confessionAt (s : State) (id : Z) : Confession :=
  default zeroConfession (confessions s !! id).
Definition hasUpvotedAt (s : State) (id voter : Z) : bool :=
  default false (hasUpvoted s !! (id, voter)).
Definition lastSubmissionTimeAt (s : State) (user : Z) : Z :=
  default 0 (lastSubmissionTime s !! user).

(** Storage writes. *)
Definition set_confessions (m : gmap Z Confession) (s : State) : State :=
  {| confessions := m; hasUpvoted := hasUpvoted s;
     lastSubmissionTime := lastSubmissionTime s;
     confessionCount := confessionCount s;
     rateLimitCooldown := rateLimitCooldown s; paused := paused s;
     owner := owner s; guardStatus := guardStatus s |}.
Definition set_hasUpvoted (m : gmap (Z * Z) bool) (s : State) : State :=
  {| confessions := confessions s; hasUpvoted := m;
     lastSubmissionTime := lastSubmissionTime s;
     confessionCount := confessionCount s;
     rateLimitCooldown := rateLimitCooldown s; paused := paused s;
     owner := owner s; guardStatus := guardStatus s |}.
Definition set_lastSubmissionTime (m : gmap Z Z) (s : State) : State :=
  {| confessions := confessions s; hasUpvoted := hasUpvoted s;
     lastSubmissionTime := m;
     confessionCount := confessionCount s;
     rateLimitCooldown := rateLimitCooldown s; paused := paused s;
     owner := owner s; guardStatus := guardStatus s |}.
Definition set_confessionCount (n : Z) (s : State) : State :=
  {| confessions := confessions s; hasUpvoted := hasUpvoted s;
     lastSubmissionTime := lastSubmissionTime s;
     confessionCount := n;
     rateLimitCooldown := rateLimitCooldown s; paused := paused s;
     owner := owner s; guardStatus := guardStatus s |}.
Definition set_rateLimitCooldown (n : Z) (s : State) : State :=
  {| confessions := confessions s; hasUpvoted := hasUpvoted s;
     lastSubmissionTime := lastSubmissionTime s;
     confessionCount := confessionCount s;
     rateLimitCooldown := n; paused := paused s;
     owner := owner s; guardStatus := guardStatus s |}.
Definition set_paused (b : bool) (s : State) : State :=
  {| confessions := confessions s; hasUpvoted := hasUpvoted s;
     lastSubmissionTime := lastSubmissionTime s;
     confessionCount := confessionCount s;
     rateLimitCooldown := rateLimitCooldown s; paused := b;
     owner := owner s; guardStatus := guardStatus s |}.
Definition set_owner (a : Z) (s : State) : State :=
  {| confessions := confessions s; hasUpvoted := hasUpvoted s;
     lastSubmissionTime := lastSubmissionTime s;
     confessionCount := confessionCount s;
     rateLimitCooldown := rateLimitCooldown s; paused := paused s;
     owner := a; guardStatus := guardStatus s |}.
Definition set_guardStatus (n : Z) (s : State) : State :=
  {| confessions := confessions s; hasUpvoted := hasUpvoted s;
     lastSubmissionTime := lastSubmissionTime s;
     confessionCount := confessionCount s;
     rateLimitCooldown := rateLimitCooldown s; paused := paused s;
     owner := owner s; guardStatus := n |}.

(** Field writes of one record, [confessions[id].f = v]. *)
Definition with_encryptedVotes (v : euint32) (c : Confession) : Confession :=
  {| message := message c; encryptedVotes := v; voteCount := voteCount c;
     createdAt := createdAt c; author := author c; ipfsCID := ipfsCID c;
     exists_ := exists_ c |}.
Definition with_voteCount (n : Z) (c : Confession) : Confession :=
  {| message := message c; encryptedVotes := encryptedVotes c; voteCount := n;
     createdAt := createdAt c; author := author c; ipfsCID := ipfsCID c;
     exists_ := exists_ c |}.
Definition with_ipfsCID (v : Z) (c : Confession) : Confession :=
  {| message := message c; encryptedVotes := encryptedVotes c;
     voteCount := voteCount c; createdAt := createdAt c; author := author c;
     ipfsCID := v; exists_ := exists_ c |}.

Definition store_confession (id : Z) (c : Confession) (s : State) : State :=
  set_confessions (<[id := c]> (confessions s)) s.

(** ** The transaction monad: storage, pending events, revert *)

Definition M (A : Type) : Type :=
  State * list Event -> Result (A * (State * list Event)).

Definition ret {A} (a : A) : M A := fun st => Ok (a, st).
Definition bind {A B} (m : M A) (k : A -> M B) : M B :=
  fun st => match m st with
            | Ok (a, st') => k a st'
            | Revert r => Revert r
            end.
Definition revert {A} (r : RevertReason) : M A := fun _ => Revert r.
Definition get : M State := fun st => Ok (fst st, st).
Definition modify (f : State -> State) : M unit :=
  fun st => Ok (tt, (f (fst st), snd st)).
Definition emit (e : Event) : M unit :=
  fun st => Ok (tt, (fst st, snd st ++ [e])).
Definition require (b : bool) (r : RevertReason) : M unit :=
  if b then ret tt else revert r.

(** Checked arithmetic on [uintN]: [a + b] or [Panic(0x11)]. *)
Definition checked_add (bits : Z) (a b : Z) : M Z :=
  if a + b <? 2 ^ bits then ret (a + b) else revert (Panic PANIC_OVERFLOW).

End Ledger.

Declare Scope tx_scope.
Delimit Scope tx_scope with tx.
Notation "x <- m ;; k" := (bind m (fun x => k))
  (at level 100, m at next level, right associativity) : tx_scope.
Notation "m ;; k" := (bind m (fun _ => k))
  (at level 100, right associativity) : tx_scope.

Local Open Scope tx_scope.

Section Contract.
Context {F : FHE}.

(** ** Modifiers *)

(** [modifier notPaused() { require(!paused, "Contract is paused"); _; }] *)
Definition notPaused {A} (body : M A) : M A :=
  s <- get ;;
  require (negb (paused s)) ContractIsPaused ;;
  body.

(** OpenZeppelin's [nonReentrant]: refuse when the guard is entered, hold it
    for the body, release it afterwards. *)
Definition nonReentrant {A} (body : M A) : M A :=
  s <- get ;;
  require (negb (guardStatus s =? ENTERED)) ReentrancyGuardReentrantCall ;;
  modify (set_guardStatus ENTERED) ;;
  r <- body ;;
  modify (set_guardStatus NOT_ENTERED) ;;
  ret r.

(** OpenZeppelin's [onlyOwner]: [_checkOwner(); _;] *)
Definition onlyOwner {A} (ctx : Ctx) (body : M A) : M A :=
  s <- get ;;
  require (owner s =? sender ctx) (OwnableUnauthorizedAccount (sender ctx)) ;;
  body.

(** ** Core functions *)

Definition submitConfession (ctx : Ctx) (_message : list byte) : M Z :=
  notPaused (nonReentrant (
    require (0 <? Z.of_nat (length _message)) MessageCannotBeEmpty ;;
    s <- get ;;
    allowedFrom <- checked_add 256 (lastSubmissionTimeAt s (sender ctx))
                                   (rateLimitCooldown s) ;;
    require (allowedFrom <=? timestamp ctx) RateLimitActive ;;
    (* confessionCount++; uint256 id = confessionCount; *)
    newCount <- checked_add 256 (confessionCount s) 1 ;;
    modify (set_confessionCount newCount) ;;
    let id := newCount in
    let initialVotes := asEuint32 0 in
    modify (store_confession id {|
      message := _message;
      encryptedVotes := initialVotes;
      voteCount := 0;
      createdAt := timestamp ctx mod 2 ^ 64;   (* uint64(block.timestamp) *)
      author := sender ctx;
      ipfsCID := 0;
      exists_ := true;
    |}) ;;
    modify (fun s' => set_lastSubmissionTime
              (<[sender ctx := timestamp ctx]> (lastSubmissionTime s')) s') ;;
    emit (ConfessionSubmitted id (sender ctx) (timestamp ctx)) ;;
    ret id)).

Definition upvote (ctx : Ctx) (_confessionId : Z) : M unit :=
  notPaused (nonReentrant (
    s <- get ;;
    require (exists_ (confessionAt s _confessionId)) ConfessionDoesNotExist ;;
    require (negb (hasUpvotedAt s _confessionId (sender ctx))) AlreadyUpvoted ;;
    let one := asEuint32 1 in
    let newVotes :=
      fhe_add (encryptedVotes (confessionAt s _confessionId)) one in
    modify (fun s' => store_confession _confessionId
              (with_encryptedVotes newVotes (confessionAt s' _confessionId)) s') ;;
    (* confessions[_confessionId].voteCount++ on a uint32 *)
    s1 <- get ;;
    bumped <- checked_add 32 (voteCount (confessionAt s1 _confessionId)) 1 ;;
    modify (fun s' => store_confession _confessionId
              (with_voteCount bumped (confessionAt s' _confessionId)) s') ;;
    modify (fun s' => set_hasUpvoted
              (<[(_confessionId, sender ctx) := true]> (hasUpvoted s')) s') ;;
    emit (ConfessionUpvoted _confessionId (sender ctx) (timestamp ctx)))).

(** ** View functions *)

Definition getConfession (_id : Z) : M Confession :=
  s <- get ;;
  require (exists_ (confessionAt s _id)) ConfessionDoesNotExist ;;
  ret (confessionAt s _id).

Definition getConfessionData (_id : Z) : M (list byte * euint32 * Z * Z) :=
  s <- get ;;
  require (exists_ (confessionAt s _id)) ConfessionDoesNotExist ;;
  let confession := confessionAt s _id in
  ret (message confession, encryptedVotes confession,
       voteCount confession, createdAt confession).

Definition hasUserUpvoted (_confessionId _voter : Z) : M bool :=
  s <- get ;;
  ret (hasUpvotedAt s _confessionId _voter).

Definition getRemainingCooldown (ctx : Ctx) (_user : Z) : M Z :=
  s <- get ;;
  nextAllowedTime <- checked_add 256 (lastSubmissionTimeAt s _user)
                                     (rateLimitCooldown s) ;;
  if nextAllowedTime <=? timestamp ctx then ret 0
  else ret (nextAllowedTime - timestamp ctx).

(** The getter Solidity generates for [uint256 public confessionCount]. *)
Definition confessionCount_getter : M Z :=
  s <- get ;;
  ret (confessionCount s).

(** ** Admin functions *)

Definition updateRateLimit (ctx : Ctx) (_newCooldown : Z) : M unit :=
  onlyOwner ctx (
    require (_newCooldown <=? 3600) CooldownTooLong ;;
    modify (set_rateLimitCooldown _newCooldown) ;;
    emit (RateLimitUpdated _newCooldown)).

Definition togglePause (ctx : Ctx) : M unit :=
  onlyOwner ctx (
    modify (fun s => set_paused (negb (paused s)) s) ;;
    s <- get ;;
    emit (ContractPaused (paused s))).

Definition emergencyPause (ctx : Ctx) : M unit :=
  onlyOwner ctx (
    modify (set_paused true) ;;
    emit (ContractPaused true)).

Definition unpause (ctx : Ctx) : M unit :=
  onlyOwner ctx (
    modify (set_paused false) ;;
    emit (ContractPaused false)).

Definition updateIPFSCID (ctx : Ctx) (_confessionId _ipfsCID : Z) : M unit :=
  s <- get ;;
  require (exists_ (confessionAt s _confessionId)) ConfessionDoesNotExist ;;
  require (author (confessionAt s _confessionId) =? sender ctx)
          OnlyAuthorCanUpdate ;;
  modify (fun s' => store_confession _confessionId
            (with_ipfsCID _ipfsCID (confessionAt s' _confessionId)) s').

(** The two ownership functions the contract inherits from [Ownable]. *)
Definition _transferOwnership (newOwner : Z) : M unit :=
  s <- get ;;
  let oldOwner := owner s in
  modify (set_owner newOwner) ;;
  emit (OwnershipTransferred oldOwner newOwner).

Definition renounceOwnership (ctx : Ctx) : M unit :=
  onlyOwner ctx (_transferOwnership 0).

Definition transferOwnership (ctx : Ctx) (newOwner : Z) : M unit :=
  onlyOwner ctx (
    require (negb (newOwner =? 0)) (OwnableInvalidOwner 0) ;;
    _transferOwnership newOwner).

(** ** Deployment and transactions *)

(** Storage after the constructor ran for [deployer]: every mapping empty,
    [rateLimitCooldown = 300], not paused, guard released. *)
Definition initial (deployer : Z) : State := {|
  confessions := ∅;
  hasUpvoted := ∅;
  lastSubmissionTime := ∅;
  confessionCount := 0;
  rateLimitCooldown := 300;
  paused := false;
  owner := deployer;
  guardStatus := NOT_ENTERED;
|}.

Inductive Call :=
| CallSubmitConfession (_message : list byte)
| CallUpvote (_confessionId : Z)
| CallUpdateRateLimit (_newCooldown : Z)
| CallTogglePause
| CallEmergencyPause
| CallUnpause
| CallUpdateIPFSCID (_confessionId _ipfsCID : Z)
| CallTransferOwnership (newOwner : Z)
| CallRenounceOwnership.

Inductive RetVal := RetUnit | RetUint (n : Z).

Definition returning_unit (m : M unit) : M RetVal := m ;; ret RetUnit.

Definition dispatch (ctx : Ctx) (c : Call) : M RetVal :=
  match c with
  | CallSubmitConfession m => id <- submitConfession ctx m ;; ret (RetUint id)
  | CallUpvote id => returning_unit (upvote ctx id)
  | CallUpdateRateLimit n => returning_unit (updateRateLimit ctx n)
  | CallTogglePause => returning_unit (togglePause ctx)
  | CallEmergencyPause => returning_unit (emergencyPause ctx)
  | CallUnpause => returning_unit (unpause ctx)
  | CallUpdateIPFSCID id cid => returning_unit (updateIPFSCID ctx id cid)
  | CallTransferOwnership a => returning_unit (transferOwnership ctx a)
  | CallRenounceOwnership => returning_unit (renounceOwnership ctx)
  end.

(** What the sender of a transaction observes: the return value and the
    events of a committed call, or the revert reason. *)
Definition Outcome : Type := Result (RetVal * list Event).

(** One transaction: commit on success, keep the old storage on revert. *)
Definition execute (s : State) (tx : Ctx * Call) : Outcome * State :=
  match dispatch (fst tx) (snd tx) (s, []) with
  | Ok (r, (s', evs)) => (Ok (r, evs), s')
  | Revert r => (Revert r, s)
  end.

(** A view call: the value or the revert reason; storage is not written. *)
Definition call_view {A} (m : M A) (s : State) : Result A :=
  match m (s, []) with
  | Ok (a, _) => Ok a
  | Revert r => Revert r
  end.

(** A sequence of transactions, with the log of what each one did. *)
Fixpoint run (s : State) (txs : list (Ctx * Call))
  : list (Ctx * Call * Outcome) * State :=
  match txs with
  | [] => ([], s)
  | tx :: rest =>
      let '(o, s1) := execute s tx in
      let '(log, s2) := run s1 rest in
      ((tx, o) :: log, s2)
  end.

Definition final (s : State) (txs : list (Ctx * Call)) : State :=
  snd (run s txs).

End Contract.

(** * Vocabulary of the specification *)

Section Specification.
Context {F : FHE}.

(** ** What a committed call leaves behind *)

Definition MAX_UINT256 : Z := 2 ^ 256 - 1.

Definition MAX_UINT32 : Z := 2 ^ 32 - 1.

(** Storage committed by a successful [submitConfession]. *)
Definition submitted (ctx : Ctx) (_message : list byte) (s : State) : State := {|
  confessions :=
    <[confessionCount s + 1 := {|
        message := _message;
        encryptedVotes := asEuint32 0;
        voteCount := 0;
        createdAt := timestamp ctx mod 2 ^ 64;
        author := sender ctx;
        ipfsCID := 0;
        exists_ := true |}]> (confessions s);
  hasUpvoted := hasUpvoted s;
  lastSubmissionTime := <[sender ctx := timestamp ctx]> (lastSubmissionTime s);
  confessionCount := confessionCount s + 1;
  rateLimitCooldown := rateLimitCooldown s;
  paused := paused s;
  owner := owner s;
  guardStatus := NOT_ENTERED;
|}.

(** The record a successful [upvote] leaves at the voted id. *)
Definition upvoted_record (c : Confession) : Confession := {|
  message := message c;
  encryptedVotes := fhe_add (encryptedVotes c) (asEuint32 1);
  voteCount := voteCount c + 1;
  createdAt := createdAt c;
  author := author c;
  ipfsCID := ipfsCID c;
  exists_ := exists_ c;
|}.

(** Storage committed by a successful [upvote]. *)
Definition upvoted (ctx : Ctx) (id : Z) (s : State) : State := {|
  confessions := <[id := upvoted_record (confessionAt s id)]> (confessions s);
  hasUpvoted := <[(id, sender ctx) := true]> (hasUpvoted s);
  lastSubmissionTime := lastSubmissionTime s;
  confessionCount := confessionCount s;
  rateLimitCooldown := rateLimitCooldown s;
  paused := paused s;
  owner := owner s;
  guardStatus := NOT_ENTERED;
|}.

(** ** Committed transactions as a step relation

    [commits s ctx c r evs s'] lists, call by call, the conditions under
    which a transaction commits and what it commits. *)

Inductive commits : State -> Ctx -> Call -> RetVal -> list Event -> State -> Prop :=
| commits_submit s ctx m :
    paused s = false ->
    guardStatus s <> ENTERED ->
    m <> [] ->
    lastSubmissionTimeAt s (sender ctx) + rateLimitCooldown s < 2 ^ 256 ->
    lastSubmissionTimeAt s (sender ctx) + rateLimitCooldown s <= timestamp ctx ->
    confessionCount s + 1 < 2 ^ 256 ->
    commits s ctx (CallSubmitConfession m)
      (RetUint (confessionCount s + 1))
      [ConfessionSubmitted (confessionCount s + 1) (sender ctx) (timestamp ctx)]
      (submitted ctx m s)
| commits_upvote s ctx id :
    paused s = false ->
    guardStatus s <> ENTERED ->
    exists_ (confessionAt s id) = true ->
    hasUpvotedAt s id (sender ctx) = false ->
    voteCount (confessionAt s id) + 1 < 2 ^ 32 ->
    commits s ctx (CallUpvote id) RetUnit
      [ConfessionUpvoted id (sender ctx) (timestamp ctx)]
      (upvoted ctx id s)
| commits_updateRateLimit s ctx n :
    owner s = sender ctx ->
    n <= 3600 ->
    commits s ctx (CallUpdateRateLimit n) RetUnit [RateLimitUpdated n]
      (set_rateLimitCooldown n s)
| commits_togglePause s ctx :
    owner s = sender ctx ->
    commits s ctx CallTogglePause RetUnit [ContractPaused (negb (paused s))]
      (set_paused (negb (paused s)) s)
| commits_emergencyPause s ctx :
    owner s = sender ctx ->
    commits s ctx CallEmergencyPause RetUnit [ContractPaused true]
      (set_paused true s)
| commits_unpause s ctx :
    owner s = sender ctx ->
    commits s ctx CallUnpause RetUnit [ContractPaused false]
      (set_paused false s)
| commits_updateIPFSCID s ctx id cid :
    exists_ (confessionAt s id) = true ->
    author (confessionAt s id) = sender ctx ->
    commits s ctx (CallUpdateIPFSCID id cid) RetUnit []
      (store_confession id (with_ipfsCID cid (confessionAt s id)) s)
| commits_transferOwnership s ctx a :
    owner s = sender ctx ->
    a <> 0 ->
    commits s ctx (CallTransferOwnership a) RetUnit
      [OwnershipTransferred (owner s) a] (set_owner a s)
| commits_renounceOwnership s ctx :
    owner s = sender ctx ->
    commits s ctx CallRenounceOwnership RetUnit
      [OwnershipTransferred (owner s) 0] (set_owner 0 s).

(** ** Projections of a transaction log *)

(** The ids returned by the committed [submitConfession] calls of a log,
    in call order. *)
Definition submitted_id (e : Ctx * Call * Outcome) : list Z :=
  match e with
  | ((_, CallSubmitConfession _), Ok (RetUint id, _)) => [id]
  | _ => []
  end.

Definition submitted_ids (log : list (Ctx * Call * Outcome)) : list Z :=
  concat (map submitted_id log).

(** The senders of the committed [upvote] calls on [id], in call order. *)
Definition upvoter (id : Z) (e : Ctx * Call * Outcome) : list Z :=
  match e with
  | ((ctx, CallUpvote id'), Ok _) => if decide (id' = id) then [sender ctx] else []
  | _ => []
  end.

Definition upvoters (id : Z) (log : list (Ctx * Call * Outcome)) : list Z :=
  concat (map (upvoter id) log).

(** ** The ledger invariant

    What holds of the storage [s] and the log of the transactions that led
    to it from deployment. *)

Record ledger_inv (log : list (Ctx * Call * Outcome)) (s : State) : Prop := {
  inv_guard : guardStatus s = NOT_ENTERED;
  inv_ids : submitted_ids log = seqZ 1 (confessionCount s);
  inv_count : confessionCount s = Z.of_nat (length (submitted_ids log));
  inv_exists : forall id,
    exists_ (confessionAt s id) = true <-> 1 <= id <= confessionCount s;
  inv_stored : forall id c, confessions s !! id = Some c -> exists_ c = true;
  inv_votes : forall id,
    voteCount (confessionAt s id) = Z.of_nat (length (upvoters id log));
  inv_voters : forall id a,
    a ∈ upvoters id log <-> hasUpvotedAt s id a = true;
  inv_distinct : forall id, NoDup (upvoters id log);
}.

(** ** Well-formed transactions and reachable states

    The sender of a transaction is a 160-bit address, its arguments fit
    their ABI types, and the block timestamp fits the 64 bits the contract
    keeps of it in [createdAt]. *)

Definition is_uint (bits a : Z) : Prop := 0 <= a < 2 ^ bits.

Definition wf_ctx (c : Ctx) : Prop :=
  is_uint 160 (sender c) /\ is_uint 64 (timestamp c).

Definition wf_call (c : Call) : Prop :=
  match c with
  | CallUpvote id => is_uint 256 id
  | CallUpdateRateLimit n => is_uint 256 n
  | CallUpdateIPFSCID id cid => is_uint 256 id /\ is_uint 256 cid
  | CallTransferOwnership a => is_uint 160 a
  | _ => True
  end.

Definition wf_tx (tx : Ctx * Call) : Prop :=
  wf_ctx (fst tx) /\ wf_call (snd tx).

Definition reachable (s : State) : Prop :=
  exists deployer txs,
    Forall wf_tx txs /\ s = final (initial deployer) txs.

(** Bounds that make the rate-limit sum [lastSubmissionTime + cooldown]
    fit a [uint256]. *)
Record clock_inv (s : State) : Prop := {
  clock_cooldown : 0 <= rateLimitCooldown s <= 3600;
  clock_last : forall a, is_uint 64 (lastSubmissionTimeAt s a);
}.

Definition is_submit_by (a : Z) (tx : Ctx * Call) : Prop :=
  sender (fst tx) = a /\
  match snd tx with CallSubmitConfession _ => True | _ => False end.

(** ** The pause switch *)

Definition core_call (c : Call) : bool :=
  match c with
  | CallSubmitConfession _ | CallUpvote _ => true
  | _ => false
  end.

Definition unpausing (c : Call) : bool :=
  match c with
  | CallUnpause | CallTogglePause => true
  | _ => false
  end.

End Specification.

Section Counters.
Context {F : FHE} {O : DecryptionOracle F}.

(** The encrypted counter of every confession decrypts to its public
    counter. *)
Definition counters_agree (s : State) : Prop :=
  forall id, exists_ (confessionAt s id) = true ->
    decrypt (encryptedVotes (confessionAt s id)) = voteCount (confessionAt s id).

End Counters.

(** * Concrete runs under the transparent capability *)

Section Runs.
Local Existing Instance TransparentFHE.

Definition hello_world_test : list byte :=
  list_byte_of_string "hello world test".

Definition the_owner : Z := 7.

Definition alice : Z := 1001.

Definition bob : Z := 1002.

Definition carol : Z := 1003.

Definition at_time (a t : Z) : Ctx := {| sender := a; timestamp := t |}.

Definition three_votes : list (Ctx * Call) :=
  [ (at_time alice 1000, CallSubmitConfession hello_world_test);
    (at_time bob 1010, CallUpvote 1);
    (at_time carol 1020, CallUpvote 1);
    (at_time bob 1030, CallUpvote 1);
    (at_time alice 1040, CallUpvote 1) ].

Definition voted_then_paused : list (Ctx * Call) :=
  [ (at_time alice 1000, CallSubmitConfession hello_world_test);
    (at_time bob 1010, CallUpvote 1);
    (at_time the_owner 1015, CallEmergencyPause) ].

Definition submitted_then_paused : list (Ctx * Call) :=
  [ (at_time alice 1000, CallSubmitConfession hello_world_test);
    (at_time the_owner 1010, CallEmergencyPause) ].

(** A confession of [the_author] that the senders 1, 2, ..., n upvote. *)
Definition the_author : Z := 2 ^ 40.

Definition crowd_vote (a : nat) : Ctx * Call :=
  (at_time (Z.of_nat a) 2000, CallUpvote 1).

Definition crowd (n : nat) : list (Ctx * Call) :=
  map crowd_vote (seq 1 n).

Definition own_confession : State :=
  submitted (at_time the_author 1000) hello_world_test (initial the_owner).

Definition voted_by_crowd (n : nat) : State :=
  final own_confession (crowd n).

Record crowd_inv (n : nat) (s : State) : Prop := {
  crowd_running : paused s = false;
  crowd_guard : guardStatus s = NOT_ENTERED;
  crowd_exists : exists_ (confessionAt s 1) = true;
  crowd_author : author (confessionAt s 1) = the_author;
  crowd_votes : voteCount (confessionAt s 1) = Z.of_nat n;
  crowd_voters : forall a, hasUpvotedAt s 1 a = true -> 1 <= a <= Z.of_nat n;
}.

End Runs.

(** * Further vocabulary: events and the client *)

Section LedgerVocabulary.
Context {F : FHE}.

(** The events of a log, in emission order; a reverted transaction emits
    none. *)
Definition events_of (log : list (Ctx * Call * Outcome)) : list Event :=
  concat (map (fun e => match snd e with
                        | Ok (_, evs) => evs
                        | Revert _ => []
                        end) log).

Definition is_ConfessionSubmitted (e : Event) : bool :=
  match e with ConfessionSubmitted _ _ _ => true | _ => false end.

Definition is_ConfessionUpvoted (id : Z) (e : Event) : bool :=
  match e with ConfessionUpvoted id' _ _ => id' =? id | _ => false end.

(** The fields of a record that no function writes after creation. *)
Definition same_origin (c c' : Confession) : Prop :=
  message c' = message c /\ createdAt c' = createdAt c /\
  author c' = author c /\ exists_ c' = exists_ c.

(** [updateIPFSCID] calls on [id] sent by [a]. *)
Definition is_cid_update_by (a id : Z) (tx : Ctx * Call) : Prop :=
  sender (fst tx) = a /\
  match snd tx with
  | CallUpdateIPFSCID id' _ => id' = id
  | _ => False
  end.

End LedgerVocabulary.

(** * The client

    The pages, the store and the helpers that call the contract.
    JavaScript values are embedded as follows: a string is the list of its
    UTF-16 code units (what [length] and [slice] count), and the numbers
    the code computes with are integers, kept in [Z]; such a number is
    exact in a double below 2^53, and the conversions that can round are
    written out in [round_to_double]. *)

Abbreviation jsstring := (list Z).

(** An ASCII literal. *)
Definition lit (s : string) : jsstring :=
  map (fun a => Z.of_N (N_of_ascii a)) (list_ascii_of_string s).

(** [`${n}`] for an integer [n] of magnitude below 2^53, which a double
    holds exactly: its decimal digits. *)
Definition number_text (n : Z) : jsstring :=
  lit (NilZero.string_of_int (Z.to_int n)).

(** The integer a double holds after rounding the integer [z] to 53
    significant bits, ties to even: [Number(z)] for a bigint [z]. *)
Definition round_to_double (z : Z) : Z :=
  let a := Z.abs z in
  Z.sgn z *
  (if a <? 2 ^ 53 then a
   else
     let k := Z.log2 a - 52 in
     let q := a / 2 ^ k in
     let rest := a mod 2 ^ k in
     let half := 2 ^ (k - 1) in
     let q' := if rest <? half then q
               else if half <? rest then q + 1
               else if Z.even q then q else q + 1 in
     q' * 2 ^ k).

(** [s.slice(start, end)] with integer arguments. *)
Definition js_slice (s : jsstring) (start : Z) (end_ : option Z) : jsstring :=
  let len := Z.of_nat (length s) in
  let relative (i : Z) := if i <? 0 then Z.max (len + i) 0 else Z.min i len in
  let from := relative start in
  let to := match end_ with Some e => relative e | None => len end in
  take (Z.to_nat (to - from)) (drop (Z.to_nat from) s).

(** ** lib/utils.ts *)

Definition truncateAddress (address : jsstring)
    (startChars endChars : option Z) : jsstring :=
  let startChars := default 6 startChars in
  let endChars := default 4 endChars in
  match address with
  | [] => []
  | _ =>
      if Z.of_nat (length address) <=? startChars + endChars then address
      else js_slice address 0 (Some startChars) ++ lit "..."
           ++ js_slice address (- endChars) None
  end.

(** [now] is [Math.floor(Date.now() / 1000)].  The code computes in
    doubles: for integers [now] and [timestamp] that doubles hold and
    [now - timestamp < 2^53], the difference is exact, [Math.floor] of
    each quotient is the integer quotient, and the count prints as its
    digits, so on that domain the definition is the code; what is proved
    of it assumes that bound. *)
Definition getRelativeTime (now timestamp : Z) : jsstring :=
  let diff := now - timestamp in
  if diff <? 60 then lit "just now"
  else if diff <? 3600 then number_text (diff / 60) ++ lit "m ago"
  else if diff <? 86400 then number_text (diff / 3600) ++ lit "h ago"
  else if diff <? 604800 then number_text (diff / 86400) ++ lit "d ago"
  else if diff <? 2592000 then number_text (diff / 604800) ++ lit "w ago"
  else if diff <? 31536000 then number_text (diff / 2592000) ++ lit "mo ago"
  else number_text (diff / 31536000) ++ lit "y ago".

Inductive LengthStatus := StatusOk | StatusWarning | StatusError.

Record LengthValidation := {
  isValid : bool;
  length_ : Z;
  remaining : Z;
  status : LengthStatus;
}.

(** The double written [0.9] is [NINE_TENTHS / 2^53]. *)
Definition NINE_TENTHS : Z := 8106479329266893.

(** [length > maxLength * 0.9], the product rounded as a double. *)
Definition exceeds_nine_tenths (length maxLength : Z) : bool :=
  round_to_double (maxLength * NINE_TENTHS) <? length * 2 ^ 53.

Definition validateConfessionLength (text : jsstring) (maxLength : option Z)
  : LengthValidation :=
  let maxLength := default 500 maxLength in
  let length := Z.of_nat (length text) in
  let remaining := maxLength - length in
  let status :=
    if maxLength <? length then StatusError
    else if exceeds_nine_tenths length maxLength then StatusWarning
    else StatusOk in
  {| isValid := (10 <=? length) && (length <=? maxLength);
     length_ := length;
     remaining := remaining;
     status := status |}.

(** ** store/useAppStore.ts *)

(** The store's [Confession]: the contract's record as the pages decode
    it (message bytes, author address and CID as values), and the
    client-side optional fields. *)
Record FeedConfession := {
  fc_id : Z;
  fc_encryptedMessage : list byte;
  fc_encryptedVotes : jsstring;
  fc_encryptedCreatedAt : jsstring;
  fc_author : Z;
  fc_ipfsCID : Z;
  fc_exists : bool;
  fc_decryptedMessage : option jsstring;
  fc_decryptedVotes : option Z;
  fc_timestamp : option Z;
  fc_customName : option jsstring;
  fc_hasUpvoted : option bool;
  fc_category : option jsstring;
}.

(** [Partial<Confession>]: the properties an update object carries. *)
Record PartialConfession := {
  pc_id : option Z;
  pc_encryptedMessage : option (list byte);
  pc_encryptedVotes : option jsstring;
  pc_encryptedCreatedAt : option jsstring;
  pc_author : option Z;
  pc_ipfsCID : option Z;
  pc_exists : option bool;
  pc_decryptedMessage : option (option jsstring);
  pc_decryptedVotes : option (option Z);
  pc_timestamp : option (option Z);
  pc_customName : option (option jsstring);
  pc_hasUpvoted : option (option bool);
  pc_category : option (option jsstring);
}.

(** [{ ...c, ...updates }] *)
Definition spread (c : FeedConfession) (u : PartialConfession) : FeedConfession := {|
  fc_id := default (fc_id c) (pc_id u);
  fc_encryptedMessage := default (fc_encryptedMessage c) (pc_encryptedMessage u);
  fc_encryptedVotes := default (fc_encryptedVotes c) (pc_encryptedVotes u);
  fc_encryptedCreatedAt :=
    default (fc_encryptedCreatedAt c) (pc_encryptedCreatedAt u);
  fc_author := default (fc_author c) (pc_author u);
  fc_ipfsCID := default (fc_ipfsCID c) (pc_ipfsCID u);
  fc_exists := default (fc_exists c) (pc_exists u);
  fc_decryptedMessage := default (fc_decryptedMessage c) (pc_decryptedMessage u);
  fc_decryptedVotes := default (fc_decryptedVotes c) (pc_decryptedVotes u);
  fc_timestamp := default (fc_timestamp c) (pc_timestamp u);
  fc_customName := default (fc_customName c) (pc_customName u);
  fc_hasUpvoted := default (fc_hasUpvoted c) (pc_hasUpvoted u);
  fc_category := default (fc_category c) (pc_category u);
|}.

Inductive Theme := dark | light.
Inductive FilterMode := filter_recent | filter_trending | filter_all.
Inductive SortMode := sort_newest | sort_oldest | sort_votes.

Record AppState := {
  app_isConnected : bool;
  app_address : option jsstring;
  app_network : option jsstring;
  app_theme : Theme;
  app_isLoading : bool;
  app_isSidebarOpen : bool;
  app_confessions : list FeedConfession;
  app_selectedConfession : option FeedConfession;
  app_confessionCount : Z;
  app_filterMode : FilterMode;
  app_sortMode : SortMode;
}.

Definition initialAppState : AppState := {|
  app_isConnected := false;
  app_address := None;
  app_network := None;
  app_theme := dark;
  app_isLoading := false;
  app_isSidebarOpen := false;
  app_confessions := [];
  app_selectedConfession := None;
  app_confessionCount := 0;
  app_filterMode := filter_recent;
  app_sortMode := sort_newest;
|}.

Inductive Action :=
| setWallet (address network : jsstring)
| disconnectWallet
| toggleTheme
| setLoading (loading : bool)
| toggleSidebar
| addConfession (confession : FeedConfession)
| updateConfession (id : Z) (updates : PartialConfession)
| setConfessions (confessions : list FeedConfession)
| selectConfession (confession : option FeedConfession)
| clearConfessions
| setFilterMode (mode : FilterMode)
| setSortMode (mode : SortMode).

(** One action: [set] merges the listed properties into the state. *)
Definition dispatch_action (st : AppState) (a : Action) : AppState :=
  let with_wallet c ad nw := {|
    app_isConnected := c; app_address := ad; app_network := nw;
    app_theme := app_theme st; app_isLoading := app_isLoading st;
    app_isSidebarOpen := app_isSidebarOpen st;
    app_confessions := app_confessions st;
    app_selectedConfession := app_selectedConfession st;
    app_confessionCount := app_confessionCount st;
    app_filterMode := app_filterMode st; app_sortMode := app_sortMode st |} in
  let with_ui th ld sb fm sm := {|
    app_isConnected := app_isConnected st; app_address := app_address st;
    app_network := app_network st;
    app_theme := th; app_isLoading := ld; app_isSidebarOpen := sb;
    app_confessions := app_confessions st;
    app_selectedConfession := app_selectedConfession st;
    app_confessionCount := app_confessionCount st;
    app_filterMode := fm; app_sortMode := sm |} in
  let with_confessions cs sel n := {|
    app_isConnected := app_isConnected st; app_address := app_address st;
    app_network := app_network st;
    app_theme := app_theme st; app_isLoading := app_isLoading st;
    app_isSidebarOpen := app_isSidebarOpen st;
    app_confessions := cs;
    app_selectedConfession := sel;
    app_confessionCount := n;
    app_filterMode := app_filterMode st; app_sortMode := app_sortMode st |} in
  match a with
  | setWallet address network => with_wallet true (Some address) (Some network)
  | disconnectWallet => with_wallet false None None
  | toggleTheme =>
      with_ui (match app_theme st with dark => light | light => dark end)
              (app_isLoading st) (app_isSidebarOpen st)
              (app_filterMode st) (app_sortMode st)
  | setLoading loading =>
      with_ui (app_theme st) loading (app_isSidebarOpen st)
              (app_filterMode st) (app_sortMode st)
  | toggleSidebar =>
      with_ui (app_theme st) (app_isLoading st) (negb (app_isSidebarOpen st))
              (app_filterMode st) (app_sortMode st)
  | addConfession confession =>
      with_confessions (confession :: app_confessions st)
                       (app_selectedConfession st)
                       (app_confessionCount st + 1)
  | updateConfession id updates =>
      with_confessions
        (map (fun c => if fc_id c =? id then spread c updates else c)
             (app_confessions st))
        (app_selectedConfession st) (app_confessionCount st)
  | setConfessions confessions =>
      with_confessions confessions (app_selectedConfession st)
                       (Z.of_nat (length confessions))
  | selectConfession confession =>
      with_confessions (app_confessions st) confession (app_confessionCount st)
  | clearConfessions => with_confessions [] None 0
  | setFilterMode mode =>
      with_ui (app_theme st) (app_isLoading st) (app_isSidebarOpen st)
              mode (app_sortMode st)
  | setSortMode mode =>
      with_ui (app_theme st) (app_isLoading st) (app_isSidebarOpen st)
              (app_filterMode st) mode
  end.

Definition dispatch_actions (st : AppState) (acts : list Action) : AppState :=
  fold_left dispatch_action acts st.

(** The update object [{}]. *)
Definition empty_update : PartialConfession := {|
  pc_id := None; pc_encryptedMessage := None; pc_encryptedVotes := None;
  pc_encryptedCreatedAt := None; pc_author := None; pc_ipfsCID := None;
  pc_exists := None; pc_decryptedMessage := None; pc_decryptedVotes := None;
  pc_timestamp := None; pc_customName := None; pc_hasUpvoted := None;
  pc_category := None |}.

(** ** Arrays, [localStorage] and the chain as the pages see them *)

(** [l.sort(compareFn)]: the sort is stable, so for a consistent
    comparator the result is what insertion from the right computes: an
    element moves behind another one only when [compareFn] puts it
    strictly after. *)
Fixpoint sort_insert {A} (compareFn : A -> A -> Z) (x : A) (l : list A)
  : list A :=
  match l with
  | [] => [x]
  | y :: l' =>
      if 0 <? compareFn x y then y :: sort_insert compareFn x l' else x :: l
  end.

Definition js_sort {A} (compareFn : A -> A -> Z) (l : list A) : list A :=
  foldr (sort_insert compareFn) [] l.

(** [s || other] on an optional string: [null], [undefined] and the empty
    string are falsy. *)
Definition truthy (s : option jsstring) : option jsstring :=
  match s with
  | Some (_ :: _) => s
  | _ => None
  end.

Abbreviation LocalStorage := (gmap jsstring jsstring).

Definition getItem (storage : LocalStorage) (key : jsstring)
  : option jsstring := storage !! key.

Definition setItem (key value : jsstring) (storage : LocalStorage)
  : LocalStorage := <[key := value]> storage.

(** The contract reads a page makes through [client.readContract]; [None]
    is a call that throws (a revert, or the node failing). *)
Record ChainReads {F : FHE} := {
  read_getConfession : Z -> option Confession;
  read_hasUserUpvoted : Z -> Z -> option bool;
  read_confessionCount : option Z;
}.

Section Pages.
Context {F : FHE}.

(** The reads served by the ledger in state [s]. *)
Definition reads_of (s : State) : ChainReads := {|
  read_getConfession i :=
    match call_view (getConfession i) s with
    | Ok c => Some c
    | Revert _ => None
    end;
  read_hasUserUpvoted i a :=
    match call_view (hasUserUpvoted i a) s with
    | Ok b => Some b
    | Revert _ => None
    end;
  read_confessionCount :=
    match call_view confessionCount_getter s with
    | Ok n => Some n
    | Revert _ => None
    end;
|}.

(** viem's codecs, which are not part of this repository: the text of a
    [bytes] value ([hexToString]) and the text of an address. *)
Variable hexToString : list byte -> jsstring.
Variable address_text : Z -> jsstring.

(** ** hooks/useConfessionVault.ts *)

(** [useConfessionCount]: [data ? Number(data) : 0], [data] being the
    [bigint] read or [undefined]. *)
Definition useConfessionCount (data : option Z) : Z :=
  match data with
  | Some n => if n =? 0 then 0 else round_to_double n
  | None => 0
  end.

(** ** app/page.tsx and app/[slug]/page.tsx *)

(** The body of the loading loop for index [i]; [None] when the
    [getConfession] read throws and the entry is skipped.  A [uint32]
    comes back as a number, so [Number(data.voteCount) || 0] is the vote
    count itself; [createdAt] comes back as a [bigint].  The hex text of
    a [bytes32] is never empty, so [data.ipfsCID || ""] is the CID. *)
Definition load_entry (reads : ChainReads) (address : option Z)
    (storage : LocalStorage) (i : Z) : option FeedConfession :=
  match read_getConfession reads i with
  | None => None
  | Some data =>
      let messageText := hexToString (message data) in
      let hasUserUpvoted :=
        match address with
        | Some a => default false (read_hasUserUpvoted reads i a)
        | None => false
        end in
      let customNameById :=
        getItem storage (lit "customName_" ++ number_text i) in
      let customNameByAuthor :=
        getItem storage (lit "customName_" ++ address_text (author data)) in
      let customName :=
        match truthy customNameById with
        | Some n => Some n
        | None => truthy customNameByAuthor
        end in
      let category :=
        default (lit "stupid-take")
                (truthy (getItem storage (lit "category_" ++ number_text i))) in
      Some {| fc_id := i;
              fc_encryptedMessage := message data;
              fc_encryptedVotes := lit "0x00";
              fc_encryptedCreatedAt := lit "0x00";
              fc_author := author data;
              fc_ipfsCID := ipfsCID data;
              fc_exists := true;
              fc_decryptedMessage := Some messageText;
              fc_decryptedVotes := Some (voteCount data);
              fc_timestamp := Some (round_to_double (createdAt data));
              fc_customName := customName;
              fc_hasUpvoted := Some hasUserUpvoted;
              fc_category := Some category |}
  end.

(** An entry that carries the record the ledger holds at its id in state
    [s], as [load_entry] builds it for the connected [address]. *)
Definition mirrors (s : State) (address : option Z) (c : FeedConfession)
  : Prop :=
  let r := confessionAt s (fc_id c) in
  fc_encryptedMessage c = message r /\
  fc_decryptedMessage c = Some (hexToString (message r)) /\
  fc_author c = author r /\
  fc_ipfsCID c = ipfsCID r /\
  fc_exists c = true /\
  fc_decryptedVotes c = Some (voteCount r) /\
  fc_timestamp c = Some (round_to_double (createdAt r)) /\
  fc_hasUpvoted c = Some (match address with
                          | Some a => hasUpvotedAt s (fc_id c) a
                          | None => false
                          end).

(** The name and the category an entry gets from [localStorage]: the
    name kept under the entry's id, else the one kept under its author,
    else none; the category kept under the id, else "stupid-take". *)
Definition labelled (storage : LocalStorage) (c : FeedConfession) : Prop :=
  fc_customName c =
    match truthy (getItem storage
                    (lit "customName_" ++ number_text (fc_id c))) with
    | Some n => Some n
    | None =>
        truthy (getItem storage
                  (lit "customName_" ++ address_text (fc_author c)))
    end /\
  fc_category c =
    Some (default (lit "stupid-take")
            (truthy (getItem storage
                       (lit "category_" ++ number_text (fc_id c))))).

(** [loadedConfessions] when the loop [for (i = 1; i <= confessionCount;
    i++)] ends.  The counter is a double: from 2^53 on [i++] no longer
    advances it, and for such a count the loop does not end ([None]). *)
Definition loadedConfessions (confessionCount : Z) (reads : ChainReads)
    (address : option Z) (storage : LocalStorage)
  : option (list FeedConfession) :=
  if 2 ^ 53 <=? confessionCount then None
  else Some (omap (load_entry reads address storage)
                  (seqZ 1 confessionCount)).

(** [Home]'s [loadConfessions]: the list handed to [setConfessions]. *)
Definition loadConfessions (confessionCount : Z) (reads : ChainReads)
    (address : option Z) (storage : LocalStorage)
  : option (list FeedConfession) :=
  if confessionCount =? 0 then Some []
  else
    match loadedConfessions confessionCount reads address storage with
    | Some loaded => Some (reverse loaded)
    | None => None
    end.

Definition votes_of (c : FeedConfession) : Z :=
  default 0 (fc_decryptedVotes c).

(** [(a, b) => (b.decryptedVotes || 0) - (a.decryptedVotes || 0)] *)
Definition by_votes (a b : FeedConfession) : Z := votes_of b - votes_of a.

(** The order of a list sorted with [by_votes] from a list that had the
    newest entry first: more votes first, and among equal votes the entry
    with the greater id. *)
Definition newer (a b : FeedConfession) : Prop := fc_id b < fc_id a.

Definition shown_before (a b : FeedConfession) : Prop :=
  votes_of b < votes_of a \/ (votes_of a = votes_of b /\ fc_id b < fc_id a).

(** The "Popular Confessions" row of [Home]. *)
Definition popularConfessions (confessions : list FeedConfession)
  : list FeedConfession :=
  take 6 (js_sort by_votes
            (List.filter (fun c => 0 <? votes_of c) confessions)).

Definition jsstring_eqb (a b : jsstring) : bool := bool_decide (a = b).

(** The table [categories] of the category page: slug and display name. *)
Definition categories : list (string * string) :=
  [ ("circle-jerkers", "Circle Jerkers");
    ("rekt-founders", "Rekt Founders");
    ("projects", "Projects");
    ("hidden-crushes", "Hidden Crushes");
    ("stupid-take", "Stupid Take");
    ("speculations", "Speculations") ]%string.

(** The property names every object literal inherits from
    [Object.prototype]; each holds a function or an object. *)
Definition Object_prototype_keys : list string :=
  [ "constructor"; "__defineGetter__"; "__defineSetter__"; "hasOwnProperty";
    "__lookupGetter__"; "__lookupSetter__"; "isPrototypeOf";
    "propertyIsEnumerable"; "toString"; "valueOf"; "__proto__";
    "toLocaleString" ]%string.

(** [!categories[slug]]: the lookup finds the table's own keys, whose
    names are non-empty strings, and the inherited ones. *)
Definition not_a_category (slug : jsstring) : bool :=
  negb (bool_decide (slug ∈ map lit (map fst categories
                                       ++ Object_prototype_keys))).

(** What rendering a page comes to: [notFound()] throws before anything
    is loaded, or the page goes on with [a]. *)
Inductive Rendering (A : Type) :=
| PageNotFound
| PageRendered (a : A).
#[global] Arguments PageNotFound {A}.
#[global] Arguments PageRendered {A} a.

(** The [loadConfessions] of [CategoryPage]'s effect, which runs once
    the page has passed its guard (see [CategoryPage] below): the list
    handed to [setConfessions] and the one handed to
    [setCategoryConfessions].  [reverse] works in place, so the filter
    sees the reversed list. *)
Definition loadCategoryConfessions (slug : jsstring) (confessionCount : Z)
    (reads : ChainReads) (address : option Z) (storage : LocalStorage)
  : option (list FeedConfession * option (list FeedConfession)) :=
  if confessionCount =? 0 then Some ([], None)
  else
    match loadedConfessions confessionCount reads address storage with
    | Some loaded =>
        let loaded := reverse loaded in
        let filtered :=
          List.filter (fun c => match fc_category c with
                                | Some k => jsstring_eqb k slug
                                | None => false
                                end) loaded in
        Some (loaded, Some (js_sort by_votes filtered))
    | None => None
    end.

(** [CategoryPage]: [if (!categories[slug]) notFound()], then the effect
    runs [loadConfessions]. *)
Definition CategoryPage (slug : jsstring) (confessionCount : Z)
    (reads : ChainReads) (address : option Z) (storage : LocalStorage)
  : Rendering (option (list FeedConfession * option (list FeedConfession))) :=
  if not_a_category slug then PageNotFound
  else PageRendered (loadCategoryConfessions slug confessionCount reads
                   address storage).

(** ** app/create/page.tsx *)

(** [saveConfessionData]: what the effect leaves in [localStorage] once
    the submission is confirmed. *)
Definition saveConfessionData (isSuccess : bool)
    (pendingCustomName pendingCategory : option jsstring)
    (address : option Z) (reads : ChainReads) (storage : LocalStorage)
  : LocalStorage :=
  match address with
  | Some address =>
      if isSuccess && (bool_decide (is_Some (truthy pendingCustomName))
                       || bool_decide (is_Some (truthy pendingCategory)))
      then
        let storage :=
          match truthy pendingCustomName with
          | Some name =>
              setItem (lit "customName_" ++ address_text address) name storage
          | None => storage
          end in
        match read_confessionCount reads with
        | Some count =>
            let confessionId := round_to_double count in
            let storage :=
              match truthy pendingCustomName with
              | Some name =>
                  setItem (lit "customName_" ++ number_text confessionId)
                          name storage
              | None => storage
              end in
            match truthy pendingCategory with
            | Some category =>
                setItem (lit "category_" ++ number_text confessionId)
                        category storage
            | None => storage
            end
        | None => storage
        end
      else storage
  | None => storage
  end.

(** ** components/ConfessionCard.tsx *)

(** "🔒 Encrypted" *)
Definition ENCRYPTED_PLACEHOLDER : jsstring :=
  [55357; 56594] ++ lit " Encrypted".

(** The text a card shows. *)
Definition truncatedText (confession : FeedConfession)
    (isHomePage isExpanded : bool) : jsstring :=
  let displayText :=
    default ENCRYPTED_PLACEHOLDER
            (truthy (fc_decryptedMessage confession)) in
  let truncateLength := if isHomePage then 150 else 200 in
  let shouldTruncate := truncateLength <? Z.of_nat (length displayText) in
  if shouldTruncate && negb isExpanded
  then js_slice displayText 0 (Some truncateLength) ++ lit "..."
  else displayText.

End Pages.

(** * Further concrete runs *)

Section FurtherRuns.
Local Existing Instance TransparentFHE.

Definition one_confession : list (Ctx * Call) :=
  [ (at_time alice 1000, CallSubmitConfession hello_world_test) ].

Definition voted_once : list (Ctx * Call) :=
  [ (at_time alice 1000, CallSubmitConfession hello_world_test);
    (at_time bob 1010, CallUpvote 1) ].

Definition alice_confession : State :=
  submitted (at_time alice 1000) hello_world_test (initial the_owner).

(** Stand-ins for viem's codecs in the concrete runs: one code unit per
    byte, and the decimal digits of an address. *)
Definition one_unit_per_byte (bs : list byte) : jsstring :=
  map (fun b => Z.of_N (Byte.to_N b)) bs.

Definition decimal_address (a : Z) : jsstring := number_text a.

Definition sample_entry (id votes : Z) : FeedConfession := {|
  fc_id := id;
  fc_encryptedMessage := hello_world_test;
  fc_encryptedVotes := lit "0x00";
  fc_encryptedCreatedAt := lit "0x00";
  fc_author := alice;
  fc_ipfsCID := 0;
  fc_exists := true;
  fc_decryptedMessage := Some (one_unit_per_byte hello_world_test);
  fc_decryptedVotes := Some votes;
  fc_timestamp := Some 1000;
  fc_customName := None;
  fc_hasUpvoted := Some false;
  fc_category := Some (lit "projects");
|}.

End FurtherRuns.

(** * Theorems *)

(** Unfolding of the monad, and case analysis on the checks of a call. *)
Ltac tx_unfold :=
  cbv beta iota delta
    [notPaused nonReentrant onlyOwner bind ret get modify emit require revert
     checked_add fst snd returning_unit _transferOwnership].

Ltac tx_cases :=
  repeat (tx_unfold;
          match goal with
          | |- context [if ?c then _ else _] => destruct c eqn:?
          end;
          try discriminate; try reflexivity).

(** Boolean comparisons in hypotheses, as propositions. *)
Ltac bool_to_prop :=
  repeat match goal with
  | H : (_ =? _) = true |- _ => apply Z.eqb_eq in H
  | H : (_ =? _) = false |- _ => apply Z.eqb_neq in H
  | H : (_ <? _) = true |- _ => apply Z.ltb_lt in H
  | H : (_ <? _) = false |- _ => apply Z.ltb_ge in H
  | H : (_ <=? _) = true |- _ => apply Z.leb_le in H
  | H : (_ <=? _) = false |- _ => apply Z.leb_gt in H
  end.

Section Properties.
Context {F : FHE}.

(** ** What each function computes

    One equation per function: the order of its checks and the storage it
    commits.  Everything below is proved from these. *)

Lemma confessionAt_store s id c id' :
  confessionAt (store_confession id c s) id' =
  if decide (id = id') then c else confessionAt s id'.
Proof.
  unfold confessionAt, store_confession; cbn.
  rewrite lookup_insert. by case_decide.
Qed.

Lemma submitConfession_eq ctx m s evs :
  submitConfession ctx m (s, evs) =
  if paused s then Revert ContractIsPaused
  else if guardStatus s =? ENTERED then Revert ReentrancyGuardReentrantCall
  else if 0 <? Z.of_nat (length m) then
    if lastSubmissionTimeAt s (sender ctx) + rateLimitCooldown s <? 2 ^ 256 then
      if lastSubmissionTimeAt s (sender ctx) + rateLimitCooldown s
           <=? timestamp ctx then
        if confessionCount s + 1 <? 2 ^ 256 then
          Ok (confessionCount s + 1,
              (submitted ctx m s,
               evs ++ [ConfessionSubmitted (confessionCount s + 1)
                         (sender ctx) (timestamp ctx)]))
        else Revert (Panic PANIC_OVERFLOW)
      else Revert RateLimitActive
    else Revert (Panic PANIC_OVERFLOW)
  else Revert MessageCannotBeEmpty.
Proof.
  unfold submitConfession. tx_unfold. cbn [fst snd].
  destruct (paused s); cbn [negb]; [reflexivity|].
  destruct (guardStatus s =? ENTERED); cbn [negb]; [reflexivity|].
  destruct (0 <? Z.of_nat (length m)); [|reflexivity].
  unfold lastSubmissionTimeAt, set_guardStatus; cbn [lastSubmissionTime rateLimitCooldown confessionCount].
  destruct (_ + rateLimitCooldown s <? 2 ^ 256); [|reflexivity].
  destruct (_ + rateLimitCooldown s <=? timestamp ctx); [|reflexivity].
  destruct (confessionCount s + 1 <? 2 ^ 256); reflexivity.
Qed.

Lemma upvote_eq ctx id s evs :
  upvote ctx id (s, evs) =
  if paused s then Revert ContractIsPaused
  else if guardStatus s =? ENTERED then Revert ReentrancyGuardReentrantCall
  else if exists_ (confessionAt s id) then
    if hasUpvotedAt s id (sender ctx) then Revert AlreadyUpvoted
    else if voteCount (confessionAt s id) + 1 <? 2 ^ 32 then
      Ok (tt, (upvoted ctx id s,
               evs ++ [ConfessionUpvoted id (sender ctx) (timestamp ctx)]))
    else Revert (Panic PANIC_OVERFLOW)
  else Revert ConfessionDoesNotExist.
Proof.
  unfold upvote. tx_unfold. cbn [fst snd].
  destruct (paused s); cbn [negb]; [reflexivity|].
  destruct (guardStatus s =? ENTERED); cbn [negb]; [reflexivity|].
  change (confessionAt (set_guardStatus ENTERED s) id) with (confessionAt s id).
  change (hasUpvotedAt (set_guardStatus ENTERED s) id (sender ctx))
    with (hasUpvotedAt s id (sender ctx)).
  destruct (exists_ (confessionAt s id)); [|reflexivity].
  destruct (hasUpvotedAt s id (sender ctx)); cbn [negb]; [reflexivity|].
  rewrite !confessionAt_store.
  rewrite !decide_True by reflexivity.
  cbn [voteCount with_encryptedVotes].
  change (confessionAt (set_guardStatus ENTERED s) id) with (confessionAt s id).
  destruct (voteCount (confessionAt s id) + 1 <? 2 ^ 32); [|reflexivity].
  cbn [fst snd]. rewrite !confessionAt_store, !decide_True by reflexivity.
  unfold upvoted, upvoted_record, store_confession, set_confessions,
    set_hasUpvoted, set_guardStatus, with_voteCount, with_encryptedVotes.
  cbn [confessions hasUpvoted lastSubmissionTime confessionCount
       rateLimitCooldown paused owner guardStatus
       message encryptedVotes voteCount createdAt author ipfsCID exists_].
  rewrite insert_insert_eq. reflexivity.
Qed.

Lemma updateRateLimit_eq ctx n s evs :
  updateRateLimit ctx n (s, evs) =
  if owner s =? sender ctx then
    if n <=? 3600 then
      Ok (tt, (set_rateLimitCooldown n s, evs ++ [RateLimitUpdated n]))
    else Revert CooldownTooLong
  else Revert (OwnableUnauthorizedAccount (sender ctx)).
Proof. unfold updateRateLimit. tx_cases. Qed.

Lemma togglePause_eq ctx s evs :
  togglePause ctx (s, evs) =
  if owner s =? sender ctx then
    Ok (tt, (set_paused (negb (paused s)) s,
             evs ++ [ContractPaused (negb (paused s))]))
  else Revert (OwnableUnauthorizedAccount (sender ctx)).
Proof. unfold togglePause. tx_cases. Qed.

Lemma emergencyPause_eq ctx s evs :
  emergencyPause ctx (s, evs) =
  if owner s =? sender ctx then
    Ok (tt, (set_paused true s, evs ++ [ContractPaused true]))
  else Revert (OwnableUnauthorizedAccount (sender ctx)).
Proof. unfold emergencyPause. tx_cases. Qed.

Lemma unpause_eq ctx s evs :
  unpause ctx (s, evs) =
  if owner s =? sender ctx then
    Ok (tt, (set_paused false s, evs ++ [ContractPaused false]))
  else Revert (OwnableUnauthorizedAccount (sender ctx)).
Proof. unfold unpause. tx_cases. Qed.

Lemma updateIPFSCID_eq ctx id cid s evs :
  updateIPFSCID ctx id cid (s, evs) =
  if exists_ (confessionAt s id) then
    if author (confessionAt s id) =? sender ctx then
      Ok (tt, (store_confession id (with_ipfsCID cid (confessionAt s id)) s,
               evs))
    else Revert OnlyAuthorCanUpdate
  else Revert ConfessionDoesNotExist.
Proof. unfold updateIPFSCID. tx_cases. Qed.

Lemma transferOwnership_eq ctx a s evs :
  transferOwnership ctx a (s, evs) =
  if owner s =? sender ctx then
    if a =? 0 then Revert (OwnableInvalidOwner 0)
    else Ok (tt, (set_owner a s, evs ++ [OwnershipTransferred (owner s) a]))
  else Revert (OwnableUnauthorizedAccount (sender ctx)).
Proof.
  unfold transferOwnership. tx_unfold.
  destruct (owner s =? sender ctx); [|reflexivity].
  destruct (a =? 0); reflexivity.
Qed.

Lemma renounceOwnership_eq ctx s evs :
  renounceOwnership ctx (s, evs) =
  if owner s =? sender ctx then
    Ok (tt, (set_owner 0 s, evs ++ [OwnershipTransferred (owner s) 0]))
  else Revert (OwnableUnauthorizedAccount (sender ctx)).
Proof. unfold renounceOwnership. tx_cases. Qed.

(** ** Committed transactions and the step relation *)

Lemma length_pos_nonnil {A} (l : list A) :
  (0 <? Z.of_nat (length l)) = true <-> l <> [].
Proof.
  destruct l; cbn [length]; rewrite Z.ltb_lt; split; try lia; congruence.
Qed.

(** A transaction that reverts leaves the storage as it was. *)
Lemma execute_revert s tx r s' :
  execute s tx = (Revert r, s') -> s' = s.
Proof.
  unfold execute.
  destruct (dispatch (fst tx) (snd tx) (s, [])) as [[a [s1 evs]]|r1];
    intros H; inversion H; reflexivity.
Qed.

Lemma execute_revert_eq s tx r :
  fst (execute s tx) = Revert r -> execute s tx = (Revert r, s).
Proof.
  destruct (execute s tx) as [o s'] eqn:E. cbn. intros ->.
  by rewrite (execute_revert _ _ _ _ E).
Qed.

(** A transaction commits exactly as [commits] says. *)
Lemma execute_commits s ctx c r evs s' :
  execute s (ctx, c) = (Ok (r, evs), s') <-> commits s ctx c r evs s'.
Proof.
  split.
  - unfold execute, dispatch; cbn [fst snd].
    destruct c; unfold returning_unit, bind, ret;
      rewrite ?submitConfession_eq, ?upvote_eq, ?updateRateLimit_eq,
        ?togglePause_eq, ?emergencyPause_eq, ?unpause_eq, ?updateIPFSCID_eq,
        ?transferOwnership_eq, ?renounceOwnership_eq;
      repeat match goal with
             | |- context [if ?b then _ else _] => destruct b eqn:?
             end;
      intros H; inversion H; subst; clear H;
      rewrite ?length_pos_nonnil in *; bool_to_prop;
      constructor; auto.
  - intros H. unfold execute, dispatch; cbn [fst snd].
    destruct H; unfold returning_unit, bind, ret.
    + rewrite submitConfession_eq.
      rewrite H. apply Z.eqb_neq in H0. rewrite H0.
      apply length_pos_nonnil in H1. rewrite H1.
      apply Z.ltb_lt in H2, H4. apply Z.leb_le in H3.
      rewrite H2, H3, H4. reflexivity.
    + rewrite upvote_eq.
      rewrite H. apply Z.eqb_neq in H0. rewrite H0, H1, H2.
      apply Z.ltb_lt in H3. rewrite H3. reflexivity.
    + rewrite updateRateLimit_eq.
      apply Z.eqb_eq in H. apply Z.leb_le in H0. rewrite H, H0. reflexivity.
    + rewrite togglePause_eq. apply Z.eqb_eq in H. rewrite H. reflexivity.
    + rewrite emergencyPause_eq. apply Z.eqb_eq in H. rewrite H. reflexivity.
    + rewrite unpause_eq. apply Z.eqb_eq in H. rewrite H. reflexivity.
    + rewrite updateIPFSCID_eq.
      apply Z.eqb_eq in H0. rewrite H, H0. reflexivity.
    + rewrite transferOwnership_eq.
      apply Z.eqb_eq in H. apply Z.eqb_neq in H0. rewrite H, H0. reflexivity.
    + rewrite renounceOwnership_eq. apply Z.eqb_eq in H. rewrite H. reflexivity.
Qed.

(** ** Sequences of transactions *)

Lemma run_app s txs1 txs2 :
  run s (txs1 ++ txs2) =
  (fst (run s txs1) ++ fst (run (final s txs1) txs2),
   final (final s txs1) txs2).
Proof.
  unfold final. revert s.
  induction txs1 as [|tx txs1 IH]; intros s; cbn [run app fst snd].
  - destruct (run s txs2); reflexivity.
  - destruct (execute s tx) as [o s1]. rewrite IH.
    destruct (run s1 txs1) as [l1 s2]; cbn [fst snd].
    destruct (run s2 txs2); reflexivity.
Qed.

Lemma run_snoc s txs tx :
  run s (txs ++ [tx]) =
  (fst (run s txs) ++ [(tx, fst (execute (final s txs) tx))],
   snd (execute (final s txs) tx)).
Proof.
  rewrite run_app. unfold final; cbn [run].
  destruct (execute (snd (run s txs)) tx); reflexivity.
Qed.

Lemma final_snoc s txs tx :
  final s (txs ++ [tx]) = snd (execute (final s txs) tx).
Proof. unfold final at 1. rewrite run_snoc. reflexivity. Qed.

Lemma final_app s txs1 txs2 :
  final s (txs1 ++ txs2) = final (final s txs1) txs2.
Proof. unfold final at 1. rewrite run_app. reflexivity. Qed.

(** Every transaction reverts and changes nothing, or commits. *)
Lemma execute_inv s ctx c :
  (exists r, execute s (ctx, c) = (Revert r, s)) \/
  (exists r evs s', execute s (ctx, c) = (Ok (r, evs), s') /\
                    commits s ctx c r evs s').
Proof.
  destruct (execute s (ctx, c)) as [[[r evs]|r] s'] eqn:E.
  - right. exists r, evs, s'. split; [reflexivity|].
    by apply execute_commits.
  - left. exists r. by rewrite (execute_revert _ _ _ _ E).
Qed.

Lemma submitted_ids_snoc log e :
  submitted_ids (log ++ [e]) = submitted_ids log ++ submitted_id e.
Proof.
  unfold submitted_ids. rewrite map_app, concat_app. cbn. by rewrite app_nil_r.
Qed.

Lemma upvoters_snoc id log e :
  upvoters id (log ++ [e]) = upvoters id log ++ upvoter id e.
Proof.
  unfold upvoters. rewrite map_app, concat_app. cbn. by rewrite app_nil_r.
Qed.

(** ** Reads of a committed state *)

Lemma confessionAt_submitted ctx m s id :
  confessionAt (submitted ctx m s) id =
  if decide (confessionCount s + 1 = id) then
    {| message := m; encryptedVotes := asEuint32 0; voteCount := 0;
       createdAt := timestamp ctx mod 2 ^ 64; author := sender ctx;
       ipfsCID := 0; exists_ := true |}
  else confessionAt s id.
Proof.
  unfold confessionAt, submitted; cbn [confessions].
  rewrite lookup_insert. by case_decide.
Qed.

Lemma confessionAt_upvoted ctx i s id :
  confessionAt (upvoted ctx i s) id =
  if decide (i = id) then upvoted_record (confessionAt s i)
  else confessionAt s id.
Proof.
  unfold confessionAt, upvoted; cbn [confessions].
  rewrite lookup_insert. by case_decide.
Qed.

Lemma hasUpvotedAt_upvoted ctx i s id a :
  hasUpvotedAt (upvoted ctx i s) id a =
  if decide (i = id /\ sender ctx = a) then true else hasUpvotedAt s id a.
Proof.
  unfold hasUpvotedAt, upvoted; cbn [hasUpvoted].
  rewrite lookup_insert.
  destruct (decide (i = id /\ sender ctx = a)) as [[-> ->]|Hne].
  - by rewrite decide_True.
  - rewrite decide_False; [done|]. intros [= ? ?]. by apply Hne.
Qed.

Lemma lastSubmissionTimeAt_submitted ctx m s a :
  lastSubmissionTimeAt (submitted ctx m s) a =
  if decide (sender ctx = a) then timestamp ctx else lastSubmissionTimeAt s a.
Proof.
  unfold lastSubmissionTimeAt, submitted; cbn [lastSubmissionTime].
  rewrite lookup_insert. by case_decide.
Qed.

(** ** Preservation of the ledger invariant *)

Lemma ledger_inv_initial deployer : ledger_inv [] (initial deployer).
Proof.
  split; cbn; try done.
  - intros id. unfold confessionAt; cbn. rewrite lookup_empty; cbn.
    split; [done | lia].
  - intros id a. unfold hasUpvotedAt; cbn. rewrite lookup_empty; cbn.
    split; [by intros ?%elem_of_nil | done].
  - intros id. constructor.
Qed.

Lemma ledger_inv_absent log s id :
  ledger_inv log s -> exists_ (confessionAt s id) = false ->
  confessionAt s id = zeroConfession.
Proof.
  intros I. unfold confessionAt.
  destruct (confessions s !! id) as [c|] eqn:E; cbn; [|done].
  rewrite (inv_stored _ _ I _ _ E). done.
Qed.

(** A reverted transaction adds nothing to the projections of the log. *)
Lemma ledger_inv_revert log s tx r :
  ledger_inv log s -> ledger_inv (log ++ [(tx, Revert r)]) s.
Proof.
  intros I.
  assert (Hs : submitted_ids (log ++ [(tx, Revert r)]) = submitted_ids log).
  { rewrite submitted_ids_snoc. destruct tx as [ctx []]; cbn; by rewrite app_nil_r. }
  assert (Hu : forall id, upvoters id (log ++ [(tx, Revert r)]) = upvoters id log).
  { intros id. rewrite upvoters_snoc.
    destruct tx as [ctx []]; cbn; by rewrite app_nil_r. }
  destruct I; split; intros; rewrite ?Hs, ?Hu; eauto.
Qed.

(** Calls other than the two core functions leave ids and votes alone. *)
Lemma ledger_inv_frame log s s' tx o :
  ledger_inv log s ->
  submitted_id (tx, o) = [] ->
  (forall id, upvoter id (tx, o) = []) ->
  guardStatus s' = guardStatus s ->
  confessionCount s' = confessionCount s ->
  hasUpvoted s' = hasUpvoted s ->
  (forall id, exists_ (confessionAt s' id) = exists_ (confessionAt s id)) ->
  (forall id, voteCount (confessionAt s' id) = voteCount (confessionAt s id)) ->
  (forall id c, confessions s' !! id = Some c -> exists_ c = true) ->
  ledger_inv (log ++ [(tx, o)]) s'.
Proof.
  intros I Hs Hu Hg Hc Hh He Hv Hst.
  assert (Hs' : submitted_ids (log ++ [(tx, o)]) = submitted_ids log).
  { by rewrite submitted_ids_snoc, Hs, app_nil_r. }
  assert (Hu' : forall id, upvoters id (log ++ [(tx, o)]) = upvoters id log).
  { intros id. by rewrite upvoters_snoc, Hu, app_nil_r. }
  destruct I; split; intros;
    rewrite ?Hs', ?Hu', ?Hg, ?Hc, ?He, ?Hv; unfold hasUpvotedAt;
    rewrite ?Hh; eauto.
Qed.

Lemma ledger_inv_submit log s ctx m evs :
  ledger_inv log s ->
  confessionCount s + 1 < 2 ^ 256 ->
  ledger_inv
    (log ++ [((ctx, CallSubmitConfession m),
              Ok (RetUint (confessionCount s + 1), evs))])
    (submitted ctx m s).
Proof.
  intros I Hlt.
  pose proof (inv_count _ _ I) as Hc.
  assert (Hfresh : exists_ (confessionAt s (confessionCount s + 1)) = false).
  { destruct (exists_ (confessionAt s (confessionCount s + 1))) eqn:E; [|done].
    apply (inv_exists _ _ I) in E. lia. }
  assert (Hu : forall id, upvoters id (log ++ [((ctx, CallSubmitConfession m),
              Ok (RetUint (confessionCount s + 1), evs))]) = upvoters id log).
  { intros id. rewrite upvoters_snoc. cbn. by rewrite app_nil_r. }
  split; intros; rewrite ?Hu.
  - reflexivity.
  - rewrite submitted_ids_snoc; cbn [submitted_id submitted confessionCount].
    rewrite (inv_ids _ _ I), Hc.
    replace (Z.of_nat (length (submitted_ids log)) + 1)
      with (Z.of_nat (S (length (submitted_ids log)))) by lia.
    rewrite seqZ_S. do 2 f_equal. lia.
  - rewrite submitted_ids_snoc, length_app; cbn. lia.
  - rewrite confessionAt_submitted; cbn [submitted confessionCount].
    case_decide as Hid.
    + cbn. split; [intros _; lia | done].
    + rewrite (inv_exists _ _ I). lia.
  - revert H. cbn [submitted confessions]. rewrite lookup_insert.
    case_decide.
    + intros [= <-]. reflexivity.
    + apply (inv_stored _ _ I).
  - rewrite confessionAt_submitted. case_decide as Hid.
    + subst id. cbn [voteCount].
      rewrite <- (inv_votes _ _ I).
      by rewrite (ledger_inv_absent _ _ _ I Hfresh).
    + apply (inv_votes _ _ I).
  - apply (inv_voters _ _ I).
  - apply (inv_distinct _ _ I).
Qed.

Lemma ledger_inv_upvote log s ctx i evs :
  ledger_inv log s ->
  exists_ (confessionAt s i) = true ->
  hasUpvotedAt s i (sender ctx) = false ->
  ledger_inv (log ++ [((ctx, CallUpvote i), Ok (RetUnit, evs))])
             (upvoted ctx i s).
Proof.
  intros I Hex Hnot.
  assert (Hu : forall id,
    upvoters id (log ++ [((ctx, CallUpvote i), Ok (RetUnit, evs))]) =
    upvoters id log ++ (if decide (i = id) then [sender ctx] else [])).
  { intros id. by rewrite upvoters_snoc. }
  split; intros; rewrite ?Hu.
  - reflexivity.
  - rewrite submitted_ids_snoc; cbn. rewrite app_nil_r. apply (inv_ids _ _ I).
  - rewrite submitted_ids_snoc; cbn. rewrite app_nil_r. apply (inv_count _ _ I).
  - rewrite confessionAt_upvoted. cbn [upvoted confessionCount].
    case_decide; [subst id; cbn [upvoted_record exists_]|];
      apply (inv_exists _ _ I).
  - revert H. cbn [upvoted confessions]. rewrite lookup_insert.
    case_decide.
    + intros [= <-]. exact Hex.
    + apply (inv_stored _ _ I).
  - rewrite confessionAt_upvoted, length_app.
    case_decide; [subst id; cbn|cbn]; rewrite (inv_votes _ _ I); lia.
  - rewrite hasUpvotedAt_upvoted, elem_of_app, (inv_voters _ _ I).
    destruct (decide (i = id)) as [->|Hne].
    + rewrite list_elem_of_singleton.
      destruct (decide (id = id /\ sender ctx = a)) as [[_ <-]|Hn].
      * split; [done | intros _; by right].
      * split; [intros [Hin|Heq]; [done | exfalso; by apply Hn]
               | intros Hin; by left].
    + rewrite elem_of_nil, decide_False by (by intros [? _]).
      split; [by intros [Hin|[]] | by left].
  - case_decide; [subst id | by rewrite app_nil_r; apply (inv_distinct _ _ I)].
    apply NoDup_app. split; [apply (inv_distinct _ _ I)|].
    split; [|apply NoDup_singleton].
    intros a Ha ->%list_elem_of_singleton.
    apply (inv_voters _ _ I) in Ha. congruence.
Qed.

(** The invariant is kept by every transaction. *)
Lemma ledger_inv_step log s tx :
  ledger_inv log s ->
  ledger_inv (log ++ [(tx, fst (execute s tx))]) (snd (execute s tx)).
Proof.
  intros I. destruct tx as [ctx c].
  destruct (execute_inv s ctx c) as [[r ->]|(r & evs & s' & -> & Hc)];
    cbn [fst snd].
  { by apply ledger_inv_revert. }
  inversion Hc; subst; clear Hc.
  - by apply ledger_inv_submit.
  - by apply ledger_inv_upvote.
  - apply (ledger_inv_frame _ s); try done. apply (inv_stored _ _ I).
  - apply (ledger_inv_frame _ s); try done. apply (inv_stored _ _ I).
  - apply (ledger_inv_frame _ s); try done. apply (inv_stored _ _ I).
  - apply (ledger_inv_frame _ s); try done. apply (inv_stored _ _ I).
  - apply (ledger_inv_frame _ s); try done.
    + intros id'. rewrite confessionAt_store. by case_decide; subst.
    + intros id'. rewrite confessionAt_store. by case_decide; subst.
    + intros id' c'. cbn [store_confession set_confessions confessions].
      rewrite lookup_insert. case_decide.
      * intros [= <-]. done.
      * apply (inv_stored _ _ I).
  - apply (ledger_inv_frame _ s); try done. apply (inv_stored _ _ I).
  - apply (ledger_inv_frame _ s); try done. apply (inv_stored _ _ I).
Qed.

Lemma ledger_inv_run log s txs :
  ledger_inv log s ->
  ledger_inv (log ++ fst (run s txs)) (final s txs).
Proof.
  revert log s. induction txs as [|tx txs IH]; intros log s I.
  - cbn. by rewrite app_nil_r.
  - unfold final; cbn [run].
    destruct (execute s tx) as [o s1] eqn:E.
    pose proof (ledger_inv_step log s tx I) as I1. rewrite E in I1.
    cbn [fst snd] in I1. specialize (IH _ _ I1). unfold final in IH.
    destruct (run s1 txs) as [l s2]; cbn [fst snd] in *.
    by rewrite <- app_assoc in IH.
Qed.

Lemma ledger_inv_deployed deployer txs :
  ledger_inv (fst (run (initial deployer) txs))
             (final (initial deployer) txs).
Proof. apply (ledger_inv_run [] _ txs), ledger_inv_initial. Qed.

(** ** Confession ids *)

(** C1. From deployment, whatever transactions are sent, the ids returned
    by the committed [submitConfession] calls are 1, 2, 3, ... in call
    order (so without gaps or reuse); [confessionCount] is the number of
    confessions created, and an id holds a confession exactly when it lies
    in [1 .. confessionCount]. *)
Theorem submit_ids_sequential (deployer : Z) (txs : list (Ctx * Call)) :
  let log := fst (run (initial deployer) txs) in
  let s := final (initial deployer) txs in
  submitted_ids log = seqZ 1 (Z.of_nat (length (submitted_ids log))) /\
  NoDup (submitted_ids log) /\
  confessionCount s = Z.of_nat (length (submitted_ids log)) /\
  (forall id, exists_ (confessionAt s id) = true <->
              1 <= id <= confessionCount s).
Proof.
  intros log s.
  pose proof (ledger_inv_deployed deployer txs) as I. fold log s in I.
  pose proof (inv_ids _ _ I) as Hids.
  pose proof (inv_count _ _ I) as Hcount.
  split; [|split; [|split]].
  - by rewrite <- Hcount.
  - rewrite Hids. apply NoDup_seqZ.
  - exact Hcount.
  - apply (inv_exists _ _ I).
Qed.

(** ** Reachable states *)

Lemma clock_inv_initial deployer : clock_inv (initial deployer).
Proof.
  split; cbn; [lia|].
  intros a. unfold lastSubmissionTimeAt; cbn. rewrite lookup_empty; cbn.
  unfold is_uint. lia.
Qed.

Lemma clock_inv_step s tx :
  wf_tx tx -> clock_inv s -> clock_inv (snd (execute s tx)).
Proof.
  intros [[Hsender Htime] Hcall] [Hcd Hlast]. destruct tx as [ctx c].
  destruct (execute_inv s ctx c) as [[r ->]|(r & evs & s' & -> & Hc)];
    cbn [fst snd] in *; [by split|].
  inversion Hc; subst; clear Hc; split; try done.
  - intros a. rewrite lastSubmissionTimeAt_submitted. by case_decide.
  - cbn in *. unfold is_uint in Hcall. lia.
Qed.

Lemma clock_inv_run s txs :
  Forall wf_tx txs -> clock_inv s -> clock_inv (final s txs).
Proof.
  intros Hwf. revert s.
  induction Hwf as [|tx txs Htx _ IH]; intros s C; [exact C|].
  unfold final; cbn [run].
  pose proof (clock_inv_step s tx Htx C) as C1.
  destruct (execute s tx) as [o s1]; cbn [fst snd] in *.
  specialize (IH _ C1). unfold final in IH. by destruct (run s1 txs).
Qed.

Lemma reachable_initial deployer : reachable (initial deployer).
Proof. exists deployer, []. by split. Qed.

Lemma reachable_run s txs :
  reachable s -> Forall wf_tx txs -> reachable (final s txs).
Proof.
  intros (d & txs0 & Hwf0 & ->) Hwf. exists d, (txs0 ++ txs).
  split; [by apply Forall_app | by rewrite final_app].
Qed.

Lemma reachable_execute s tx :
  reachable s -> wf_tx tx -> reachable (snd (execute s tx)).
Proof.
  intros R Hwf. apply (reachable_run s [tx]) in R; [|by constructor].
  unfold final in R; cbn [run] in R.
  by destruct (execute s tx).
Qed.

Lemma reachable_guard s : reachable s -> guardStatus s = NOT_ENTERED.
Proof.
  intros (d & txs & _ & ->). apply (inv_guard _ _ (ledger_inv_deployed d txs)).
Qed.

Lemma reachable_clock s : reachable s -> clock_inv s.
Proof.
  intros (d & txs & Hwf & ->). apply clock_inv_run; [done|].
  apply clock_inv_initial.
Qed.

Lemma reachable_exists s id :
  reachable s ->
  exists_ (confessionAt s id) = true <-> 1 <= id <= confessionCount s.
Proof.
  intros (d & txs & _ & ->). apply (inv_exists _ _ (ledger_inv_deployed d txs)).
Qed.

(** ** Rate limiting *)

(** Only a committed submission of [a] moves [lastSubmissionTime[a]]. *)
Lemma lastSubmissionTimeAt_execute s tx a :
  ~ is_submit_by a tx ->
  lastSubmissionTimeAt (snd (execute s tx)) a = lastSubmissionTimeAt s a.
Proof.
  intros Hno. destruct tx as [ctx c].
  destruct (execute_inv s ctx c) as [[r ->]|(r & evs & s' & -> & Hc)];
    cbn [fst snd]; [done|].
  inversion Hc; subst; clear Hc; try done.
  rewrite lastSubmissionTimeAt_submitted. case_decide; [|done].
  exfalso. apply Hno. by split.
Qed.

Lemma lastSubmissionTimeAt_run s txs a :
  Forall (fun tx => ~ is_submit_by a tx) txs ->
  lastSubmissionTimeAt (final s txs) a = lastSubmissionTimeAt s a.
Proof.
  intros Hno. revert s.
  induction Hno as [|tx txs Htx _ IH]; intros s; [done|].
  unfold final; cbn [run].
  pose proof (lastSubmissionTimeAt_execute s tx a Htx) as E.
  destruct (execute s tx) as [o s1]; cbn [fst snd] in *.
  specialize (IH s1). unfold final in IH.
  destruct (run s1 txs); cbn [snd] in *. congruence.
Qed.

Lemma execute_submit_eq s ctx m :
  execute s (ctx, CallSubmitConfession m) =
  match submitConfession ctx m (s, []) with
  | Ok (id, (s', evs)) => (Ok (RetUint id, evs), s')
  | Revert r => (Revert r, s)
  end.
Proof.
  unfold execute, dispatch, bind, ret; cbn [fst snd].
  by destruct (submitConfession ctx m (s, [])) as [[? [? ?]]|].
Qed.

Lemma execute_upvote_eq s ctx id :
  execute s (ctx, CallUpvote id) =
  match upvote ctx id (s, []) with
  | Ok (_, (s', evs)) => (Ok (RetUnit, evs), s')
  | Revert r => (Revert r, s)
  end.
Proof.
  unfold execute, dispatch, returning_unit, bind, ret; cbn [fst snd].
  by destruct (upvote ctx id (s, [])) as [[? [? ?]]|].
Qed.

(** C4. After a committed submission of a caller at [t1], the caller's
    next submission, sent at [t2] with the other preconditions holding
    (ledger not paused, message not empty), is refused with
    "Rate limit active" (RateLimited) when [t2 - t1] is below the cooldown
    in force, and commits (the id counter having room) when [t2 - t1] is
    at least the cooldown. *)
Theorem rate_limit_window
    (s : State) (c1 c2 : Ctx) (m1 m2 : list byte)
    (mid : list (Ctx * Call)) (r1 : RetVal) (evs1 : list Event) (s1 : State) :
  reachable s -> wf_ctx c1 -> Forall wf_tx mid ->
  execute s (c1, CallSubmitConfession m1) = (Ok (r1, evs1), s1) ->
  Forall (fun tx => ~ is_submit_by (sender c1) tx) mid ->
  sender c2 = sender c1 ->
  timestamp c1 < timestamp c2 ->
  let s2 := final s1 mid in
  paused s2 = false -> m2 <> [] ->
  (timestamp c2 - timestamp c1 < rateLimitCooldown s2 ->
   execute s2 (c2, CallSubmitConfession m2) = (Revert RateLimitActive, s2) /\
   kind_of RateLimitActive = Some RateLimited) /\
  (rateLimitCooldown s2 <= timestamp c2 - timestamp c1 ->
   confessionCount s2 < MAX_UINT256 ->
   execute s2 (c2, CallSubmitConfession m2) =
     (Ok (RetUint (confessionCount s2 + 1),
          [ConfessionSubmitted (confessionCount s2 + 1)
             (sender c2) (timestamp c2)]),
      submitted c2 m2 s2)).
Proof.
  intros R Hc1 Hmid E1 Hno Hsame Hlt s2 Hp Hm2.
  assert (R1 : reachable s1).
  { pose proof (reachable_execute s (c1, CallSubmitConfession m1) R) as R1.
    rewrite E1 in R1. apply R1. by split. }
  assert (R2 : reachable s2) by by apply reachable_run.
  assert (Hlast : lastSubmissionTimeAt s2 (sender c2) = timestamp c1).
  { unfold s2. rewrite Hsame, lastSubmissionTimeAt_run by done.
    apply execute_commits in E1. inversion E1; subst.
    rewrite lastSubmissionTimeAt_submitted. by rewrite decide_True. }
  pose proof (clock_cooldown _ (reachable_clock _ R2)) as Hcd.
  pose proof (reachable_guard _ R2) as Hg.
  destruct Hc1 as [_ [Ht1 Ht1']].
  assert (Hsum : lastSubmissionTimeAt s2 (sender c2) + rateLimitCooldown s2
                 < 2 ^ 256).
  { rewrite Hlast.
    assert (2 ^ 64 + 3600 < 2 ^ 256) by (vm_compute; reflexivity). lia. }
  split.
  - intros Hshort. split; [|reflexivity].
    rewrite execute_submit_eq, submitConfession_eq, Hp, Hg.
    change (NOT_ENTERED =? ENTERED) with false.
    apply length_pos_nonnil in Hm2. rewrite Hm2.
    apply Z.ltb_lt in Hsum. rewrite Hsum, Hlast.
    destruct (timestamp c1 + rateLimitCooldown s2 <=? timestamp c2) eqn:E;
      [apply Z.leb_le in E; lia | reflexivity].
  - intros Hlong Hroom. apply execute_commits. constructor; try done.
    + rewrite Hg. discriminate.
    + rewrite Hlast. lia.
    + unfold MAX_UINT256 in Hroom. lia.
Qed.

(** ** The pause switch *)

Lemma execute_submit_paused s ctx m :
  paused s = true ->
  execute s (ctx, CallSubmitConfession m) = (Revert ContractIsPaused, s).
Proof. intros Hp. by rewrite execute_submit_eq, submitConfession_eq, Hp. Qed.

Lemma execute_upvote_paused s ctx id :
  paused s = true ->
  execute s (ctx, CallUpvote id) = (Revert ContractIsPaused, s).
Proof. intros Hp. by rewrite execute_upvote_eq, upvote_eq, Hp. Qed.

Lemma paused_execute s tx :
  paused s = true -> unpausing (snd tx) = false ->
  paused (snd (execute s tx)) = true /\
  (core_call (snd tx) = true -> fst (execute s tx) = Revert ContractIsPaused).
Proof.
  intros Hp Hu. destruct tx as [ctx c]. cbn [fst snd] in *. split.
  - destruct (execute_inv s ctx c) as [[r ->]|(r & evs & s' & -> & Hc)];
      cbn [fst snd]; [done|].
    inversion Hc; subst; clear Hc; done.
  - destruct c; try discriminate; intros _.
    + by rewrite execute_submit_paused.
    + by rewrite execute_upvote_paused.
Qed.

Lemma paused_run s txs :
  paused s = true ->
  Forall (fun tx => unpausing (snd tx) = false) txs ->
  paused (final s txs) = true /\
  Forall (fun e => core_call (snd (fst e)) = true ->
                   snd e = Revert ContractIsPaused) (fst (run s txs)).
Proof.
  intros Hp Hno. revert s Hp.
  induction Hno as [|tx txs Htx _ IH]; intros s Hp; [by split|].
  unfold final; cbn [run].
  destruct (paused_execute s tx Hp Htx) as [Hp1 Hcore].
  destruct (execute s tx) as [o s1]; cbn [fst snd] in *.
  destruct (IH s1 Hp1) as [Hfin Hlog]. unfold final in Hfin.
  destruct (run s1 txs) as [log s2]; cbn [fst snd] in *.
  split; [done|]. by constructor.
Qed.

(** The values the view functions return. *)
Lemma getConfession_eq s id :
  call_view (getConfession id) s =
  if exists_ (confessionAt s id) then Ok (confessionAt s id)
  else Revert ConfessionDoesNotExist.
Proof.
  unfold call_view, getConfession. tx_unfold.
  by destruct (exists_ (confessionAt s id)).
Qed.

Lemma hasUserUpvoted_eq s id voter :
  call_view (hasUserUpvoted id voter) s = Ok (hasUpvotedAt s id voter).
Proof. reflexivity. Qed.

Lemma getRemainingCooldown_eq s ctx user :
  call_view (getRemainingCooldown ctx user) s =
  if lastSubmissionTimeAt s user + rateLimitCooldown s <? 2 ^ 256 then
    Ok (Z.max 0 (lastSubmissionTimeAt s user + rateLimitCooldown s
                 - timestamp ctx))
  else Revert (Panic PANIC_OVERFLOW).
Proof.
  unfold call_view, getRemainingCooldown. tx_unfold.
  destruct (_ + _ <? 2 ^ 256); [|done].
  destruct (_ + _ <=? timestamp ctx) eqn:E; f_equal; bool_to_prop; lia.
Qed.

Lemma confessionCount_getter_eq s :
  call_view confessionCount_getter s = Ok (confessionCount s).
Proof. reflexivity. Qed.

(** C5. While [paused] is set, every [submitConfession] and every [upvote]
    reverts with "Contract is paused" and leaves the storage alone, and the
    flag stays set over any transactions other than [unpause] and
    [togglePause].  The views do not read the flag: each returns the same
    with the flag set or cleared, and in a reachable state [getConfession]
    returns the record of every id in [1 .. confessionCount],
    [hasUserUpvoted], [getRemainingCooldown] and [confessionCount] return
    their value. *)
Theorem pause_invariant (s : State) :
  (paused s = true ->
   (forall ctx m id,
      execute s (ctx, CallSubmitConfession m) = (Revert ContractIsPaused, s) /\
      execute s (ctx, CallUpvote id) = (Revert ContractIsPaused, s)) /\
   (forall txs,
      Forall (fun tx => unpausing (snd tx) = false) txs ->
      paused (final s txs) = true /\
      Forall (fun e => core_call (snd (fst e)) = true ->
                       snd e = Revert ContractIsPaused) (fst (run s txs)))) /\
  (forall (b : bool) ctx id voter user,
     call_view (getConfession id) (set_paused b s) =
       call_view (getConfession id) s /\
     call_view (hasUserUpvoted id voter) (set_paused b s) =
       call_view (hasUserUpvoted id voter) s /\
     call_view (getRemainingCooldown ctx user) (set_paused b s) =
       call_view (getRemainingCooldown ctx user) s /\
     call_view confessionCount_getter (set_paused b s) =
       call_view confessionCount_getter s) /\
  (reachable s ->
   forall ctx id voter user,
     (1 <= id <= confessionCount s ->
      call_view (getConfession id) s = Ok (confessionAt s id)) /\
     call_view (hasUserUpvoted id voter) s = Ok (hasUpvotedAt s id voter) /\
     call_view (getRemainingCooldown ctx user) s =
       Ok (Z.max 0 (lastSubmissionTimeAt s user + rateLimitCooldown s
                    - timestamp ctx)) /\
     call_view confessionCount_getter s = Ok (confessionCount s)).
Proof.
  split; [|split].
  - intros Hp. split.
    + intros ctx m id.
      by rewrite execute_submit_paused, execute_upvote_paused.
    + intros txs Hno. by apply paused_run.
  - intros b ctx id voter user. by rewrite !getConfession_eq,
      !hasUserUpvoted_eq, !getRemainingCooldown_eq, !confessionCount_getter_eq.
  - intros R ctx id voter user.
    split; [|split; [done|split; [|done]]].
    + intros Hid. apply (reachable_exists s id R) in Hid.
      by rewrite getConfession_eq, Hid.
    + rewrite getRemainingCooldown_eq.
      destruct (reachable_clock s R) as [Hcd Hlast].
      specialize (Hlast user). unfold is_uint in Hlast.
      assert (2 ^ 64 + 3600 < 2 ^ 256) by (vm_compute; reflexivity).
      rewrite (proj2 (Z.ltb_lt _ _)) by lia. done.
Qed.

(** ** Upvotes *)

Lemma upvoters_exist log s id a :
  ledger_inv log s -> a ∈ upvoters id log ->
  exists_ (confessionAt s id) = true.
Proof.
  intros I Ha.
  destruct (exists_ (confessionAt s id)) eqn:E; [done|].
  pose proof (inv_votes _ _ I id) as Hv.
  rewrite (ledger_inv_absent _ _ _ I E) in Hv. cbn in Hv.
  destruct (upvoters id log); [by apply elem_of_nil in Ha | cbn in Hv; lia].
Qed.

(** C3. From deployment, once a voter has a committed upvote on a
    confession, a further [upvote] of that voter on that confession
    reverts with "Already upvoted this confession" (AlreadyVoted) and
    leaves the whole storage, the record's [voteCount] included, as it
    was.  In a paused ledger the pause check, which runs first for every
    core call, answers instead with "Contract is paused" (Paused), the
    storage equally unchanged. *)
Theorem repeat_upvote_rejected
    (deployer : Z) (txs : list (Ctx * Call)) (id : Z) (ctx : Ctx) :
  let log := fst (run (initial deployer) txs) in
  let s := final (initial deployer) txs in
  sender ctx ∈ upvoters id log ->
  execute s (ctx, CallUpvote id) =
    (Revert (if paused s then ContractIsPaused else AlreadyUpvoted), s).
Proof.
  intros log s Hin.
  pose proof (ledger_inv_deployed deployer txs) as I. fold log s in I.
  rewrite execute_upvote_eq, upvote_eq.
  destruct (paused s); [done|].
  rewrite (inv_guard _ _ I). change (NOT_ENTERED =? ENTERED) with false.
  rewrite (upvoters_exist _ _ _ _ I Hin).
  apply (inv_voters _ _ I) in Hin. by rewrite Hin.
Qed.

(** C9. A committed [upvote] writes the target record's [encryptedVotes]
    and [voteCount] and the entry [hasUpvoted[id][sender]], and nothing
    else: the record's other fields, every other record, every other
    entry of the upvote relation, [confessionCount], [lastSubmissionTime],
    [rateLimitCooldown], [owner] and [paused] are as before (and the
    reentrancy guard is released again). *)
Theorem upvote_frame
    (s s' : State) (ctx : Ctx) (id : Z) (r : RetVal) (evs : list Event) :
  execute s (ctx, CallUpvote id) = (Ok (r, evs), s') ->
  let c := confessionAt s id in
  let c' := confessionAt s' id in
  (encryptedVotes c' = fhe_add (encryptedVotes c) (asEuint32 1) /\
   voteCount c' = voteCount c + 1 /\
   hasUpvotedAt s' id (sender ctx) = true) /\
  (message c' = message c /\ createdAt c' = createdAt c /\
   author c' = author c /\ ipfsCID c' = ipfsCID c /\
   exists_ c' = exists_ c) /\
  (forall id', id' <> id -> confessions s' !! id' = confessions s !! id') /\
  (forall id' a, (id', a) <> (id, sender ctx) ->
     hasUpvoted s' !! (id', a) = hasUpvoted s !! (id', a)) /\
  confessionCount s' = confessionCount s /\
  lastSubmissionTime s' = lastSubmissionTime s /\
  rateLimitCooldown s' = rateLimitCooldown s /\
  owner s' = owner s /\
  paused s' = paused s /\
  (guardStatus s = NOT_ENTERED -> guardStatus s' = guardStatus s).
Proof.
  intros E c c'. apply execute_commits in E. inversion E; subst; clear E.
  subst c c'. rewrite confessionAt_upvoted, decide_True by done.
  split; [|split; [done|]].
  - split; [done|split; [done|]].
    rewrite hasUpvotedAt_upvoted. by rewrite decide_True.
  - split; [|split; [|done]].
    + intros id' Hne. cbn [upvoted confessions]. by rewrite lookup_insert_ne.
    + intros id' a Hne. cbn [upvoted hasUpvoted]. by rewrite lookup_insert_ne.
Qed.

(** ** Configuration *)

(** C8. Sent by the owner, [updateRateLimit n] commits and sets
    [rateLimitCooldown] to [n] exactly when [n <= 3600], and otherwise
    reverts with "Cooldown too long" (InvalidInput) and leaves it alone:
    3600 is accepted and 3601 refused. *)
Theorem updateRateLimit_bound (s : State) (ctx : Ctx) :
  sender ctx = owner s ->
  (forall n, n <= 3600 ->
     execute s (ctx, CallUpdateRateLimit n) =
       (Ok (RetUnit, [RateLimitUpdated n]), set_rateLimitCooldown n s)) /\
  (forall n, 3600 < n ->
     execute s (ctx, CallUpdateRateLimit n) = (Revert CooldownTooLong, s)) /\
  kind_of CooldownTooLong = Some InvalidInput /\
  (forall n, (exists r evs s',
                execute s (ctx, CallUpdateRateLimit n) = (Ok (r, evs), s'))
             <-> n <= 3600) /\
  rateLimitCooldown (snd (execute s (ctx, CallUpdateRateLimit 3600))) = 3600 /\
  execute s (ctx, CallUpdateRateLimit 3601) = (Revert CooldownTooLong, s).
Proof.
  intros Hown.
  assert (Hok : forall n, n <= 3600 ->
     execute s (ctx, CallUpdateRateLimit n) =
       (Ok (RetUnit, [RateLimitUpdated n]), set_rateLimitCooldown n s)).
  { intros n Hn. apply execute_commits. by constructor. }
  assert (Hko : forall n, 3600 < n ->
     execute s (ctx, CallUpdateRateLimit n) = (Revert CooldownTooLong, s)).
  { intros n Hn.
    unfold execute, dispatch, returning_unit, bind; cbn [fst snd].
    rewrite updateRateLimit_eq, Hown, Z.eqb_refl.
    by rewrite (proj2 (Z.leb_gt _ _)). }
  split; [done|]. split; [done|]. split; [done|]. split; [|split].
  - intros n. split.
    + intros (r & evs & s' & E).
      apply execute_commits in E. by inversion E.
    + intros Hn. eexists _, _, _. by apply Hok.
  - by rewrite Hok.
  - by apply Hko.
Qed.

(** C6, for the calls the switch does gate. The pause switch gates [submitConfession] and
    [upvote] only: in a paused ledger these two revert with
    "Contract is paused" and change nothing, while [updateIPFSCID], which
    carries no [notPaused] modifier, still commits for the author of an
    existing confession and overwrites its [ipfsCID], and the owner's
    [updateRateLimit] and [unpause] still commit. *)
Theorem pause_gates_core_only (s : State) (ctx : Ctx) :
  paused s = true ->
  (forall m,
     execute s (ctx, CallSubmitConfession m) = (Revert ContractIsPaused, s)) /\
  (forall id,
     execute s (ctx, CallUpvote id) = (Revert ContractIsPaused, s)) /\
  (forall id cid,
     exists_ (confessionAt s id) = true ->
     author (confessionAt s id) = sender ctx ->
     execute s (ctx, CallUpdateIPFSCID id cid) =
       (Ok (RetUnit, []),
        store_confession id (with_ipfsCID cid (confessionAt s id)) s)) /\
  (owner s = sender ctx ->
   (forall n, n <= 3600 ->
      execute s (ctx, CallUpdateRateLimit n) =
        (Ok (RetUnit, [RateLimitUpdated n]), set_rateLimitCooldown n s)) /\
   execute s (ctx, CallUnpause) =
     (Ok (RetUnit, [ContractPaused false]), set_paused false s)).
Proof.
  intros Hp. split; [|split; [|split]].
  - intros m. by apply execute_submit_paused.
  - intros id. by apply execute_upvote_paused.
  - intros id cid Hex Hauth. apply execute_commits. by constructor.
  - intros Hown. split.
    + intros n Hn. apply execute_commits. by constructor.
    + apply execute_commits. by constructor.
Qed.

(** C10. The author of a confession may upvote it like anyone else: in
    a reachable state, with the ledger not paused, the confession
    existing, the author not having upvoted it and the record's [uint32]
    counter not yet at its maximum (the bound every upvote needs), the
    author's [upvote] commits, adds one to [voteCount] and records the
    author as a voter; and the upvote of any other sender who has not
    voted commits in that same state and leaves the very record the
    author's upvote leaves. *)
Theorem author_may_upvote (s : State) (ctx : Ctx) (id : Z) :
  reachable s ->
  paused s = false ->
  exists_ (confessionAt s id) = true ->
  sender ctx = author (confessionAt s id) ->
  hasUpvotedAt s id (sender ctx) = false ->
  voteCount (confessionAt s id) < MAX_UINT32 ->
  execute s (ctx, CallUpvote id) =
    (Ok (RetUnit, [ConfessionUpvoted id (sender ctx) (timestamp ctx)]),
     upvoted ctx id s) /\
  voteCount (confessionAt (upvoted ctx id s) id) =
    voteCount (confessionAt s id) + 1 /\
  hasUpvotedAt (upvoted ctx id s) id (sender ctx) = true /\
  (forall other : Ctx,
     hasUpvotedAt s id (sender other) = false ->
     exists s_other,
       execute s (other, CallUpvote id) =
         (Ok (RetUnit,
              [ConfessionUpvoted id (sender other) (timestamp other)]),
          s_other) /\
       confessionAt s_other id =
         confessionAt (snd (execute s (ctx, CallUpvote id))) id).
Proof.
  intros R Hp Hex Hauth Hnot Hroom.
  assert (Hcommit : forall c : Ctx,
            hasUpvotedAt s id (sender c) = false ->
            execute s (c, CallUpvote id) =
              (Ok (RetUnit, [ConfessionUpvoted id (sender c) (timestamp c)]),
               upvoted c id s)).
  { intros c Hc. apply execute_commits. constructor; try done.
    - rewrite (reachable_guard s R). discriminate.
    - unfold MAX_UINT32 in Hroom. lia. }
  split; [by apply Hcommit|]. split; [|split].
  - by rewrite confessionAt_upvoted, decide_True.
  - by rewrite hasUpvotedAt_upvoted, decide_True.
  - intros other Hother. exists (upvoted other id s).
    split; [by apply Hcommit|].
    rewrite (Hcommit ctx Hnot). cbn [snd].
    by rewrite !confessionAt_upvoted, !decide_True.
Qed.

(** ** The submit / upvote / resubmit scenario *)

(** C7, with the clock started late enough. With the default cooldown of 300 and the clock
    starting at any [t0 >= 300] (written [t] below for [t - t0]): alice's
    submission of the 16-byte message "hello world test" at [t = 0] returns
    id 1 with [createdAt = t0] and [voteCount = 0]; bob's upvote of id 1 at
    [t = 10] makes [voteCount = 1] and [hasUserUpvoted(1, bob)] true; bob's
    second upvote at [t = 20] reverts with AlreadyVoted; alice's second
    submission at [t = 100] reverts with RateLimited, the remaining
    cooldown being exactly 200; her submission at [t = 301] returns id 2. *)
Theorem scenario_after_cooldown (deployer alice bob t0 : Z) :
  300 <= t0 < 2 ^ 64 ->
  let c1 := {| sender := alice; timestamp := t0 |} in
  let c2 := {| sender := bob; timestamp := t0 + 10 |} in
  let c3 := {| sender := bob; timestamp := t0 + 20 |} in
  let c4 := {| sender := alice; timestamp := t0 + 100 |} in
  let c5 := {| sender := alice; timestamp := t0 + 301 |} in
  let s0 := initial deployer in
  let s1 := submitted c1 hello_world_test s0 in
  let s2 := upvoted c2 1 s1 in
  let s5 := submitted c5 hello_world_test s2 in
  length hello_world_test = 16%nat /\
  execute s0 (c1, CallSubmitConfession hello_world_test) =
    (Ok (RetUint 1, [ConfessionSubmitted 1 alice t0]), s1) /\
  createdAt (confessionAt s1 1) = t0 /\
  voteCount (confessionAt s1 1) = 0 /\
  execute s1 (c2, CallUpvote 1) =
    (Ok (RetUnit, [ConfessionUpvoted 1 bob (t0 + 10)]), s2) /\
  voteCount (confessionAt s2 1) = 1 /\
  call_view (hasUserUpvoted 1 bob) s2 = Ok true /\
  execute s2 (c3, CallUpvote 1) = (Revert AlreadyUpvoted, s2) /\
  execute s2 (c4, CallSubmitConfession hello_world_test) =
    (Revert RateLimitActive, s2) /\
  call_view (getRemainingCooldown c4 alice) s2 = Ok 200 /\
  execute s2 (c5, CallSubmitConfession hello_world_test) =
    (Ok (RetUint 2, [ConfessionSubmitted 2 alice (t0 + 301)]), s5).
Proof.
  intros Ht0 c1 c2 c3 c4 c5 s0 s1 s2 s5.
  assert (Hbig : 2 ^ 64 + 1000 < 2 ^ 256) by (vm_compute; reflexivity).
  assert (Hc1 : confessionAt s1 1 =
    {| message := hello_world_test; encryptedVotes := asEuint32 0;
       voteCount := 0; createdAt := t0 mod 2 ^ 64; author := alice;
       ipfsCID := 0; exists_ := true |}).
  { unfold s1. by rewrite confessionAt_submitted, decide_True. }
  assert (Hlast : lastSubmissionTimeAt s2 alice = t0).
  { change (lastSubmissionTimeAt s2 alice) with (lastSubmissionTimeAt s1 alice).
    unfold s1. by rewrite lastSubmissionTimeAt_submitted, decide_True. }
  assert (Hvoted : hasUpvotedAt s2 1 bob = true).
  { unfold s2. by rewrite hasUpvotedAt_upvoted, decide_True. }
  assert (Hc2 : confessionAt s2 1 = upvoted_record (confessionAt s1 1)).
  { unfold s2. by rewrite confessionAt_upvoted, decide_True. }
  split; [reflexivity|].
  split.
  { apply (execute_commits s0 c1 (CallSubmitConfession hello_world_test)
             (RetUint 1) _ s1).
    assert (Hlast0 : lastSubmissionTimeAt s0 (sender c1) = 0).
    { unfold lastSubmissionTimeAt, s0; cbn. by rewrite lookup_empty. }
    apply (commits_submit s0 c1 hello_world_test); try done;
      rewrite ?Hlast0; cbn; lia. }
  split; [rewrite Hc1; cbn; apply Z.mod_small; lia|].
  split; [by rewrite Hc1|].
  split.
  { apply (execute_commits s1 c2 (CallUpvote 1) RetUnit _ s2).
    apply (commits_upvote s1 c2 1); by rewrite ?Hc1. }
  split; [by rewrite Hc2, Hc1|].
  split; [by rewrite hasUserUpvoted_eq, Hvoted|].
  split.
  { rewrite execute_upvote_eq, upvote_eq.
    change (paused s2) with false. change (guardStatus s2 =? ENTERED) with false.
    rewrite Hc2, Hc1. cbn [upvoted_record exists_].
    change (sender c3) with bob. by rewrite Hvoted. }
  split.
  { rewrite execute_submit_eq, submitConfession_eq.
    change (paused s2) with false. change (guardStatus s2 =? ENTERED) with false.
    change (0 <? Z.of_nat (length hello_world_test)) with true.
    change (sender c4) with alice. rewrite Hlast.
    change (rateLimitCooldown s2) with 300. change (timestamp c4) with (t0 + 100).
    rewrite (proj2 (Z.ltb_lt _ _)) by lia.
    by rewrite (proj2 (Z.leb_gt _ _)) by lia. }
  split.
  { rewrite getRemainingCooldown_eq, Hlast.
    change (rateLimitCooldown s2) with 300. change (timestamp c4) with (t0 + 100).
    rewrite (proj2 (Z.ltb_lt _ _)) by lia. f_equal. lia. }
  apply (execute_commits s2 c5 (CallSubmitConfession hello_world_test)
           (RetUint 2) _ s5).
  apply (commits_submit s2 c5 hello_world_test); try done.
  - change (sender c5) with alice. rewrite Hlast. cbn. lia.
  - change (sender c5) with alice. rewrite Hlast. cbn. lia.
Qed.

End Properties.

(** ** Vote counters *)

Section Votes.
Context {F : FHE} {O : DecryptionOracle F}.
Lemma counters_agree_step log s tx :
  ledger_inv log s -> counters_agree s ->
  counters_agree (snd (execute s tx)).
Proof.
  intros I A. destruct tx as [ctx c].
  destruct (execute_inv s ctx c) as [[r ->]|(r & evs & s' & -> & Hc)];
    cbn [fst snd]; [exact A|].
  inversion Hc; subst; clear Hc; try exact A; intros id'.
  - rewrite confessionAt_submitted. case_decide; [|apply A].
    intros _. cbn. apply decrypt_asEuint32.
  - rewrite confessionAt_upvoted. case_decide; [subst id'|apply A].
    cbn [upvoted_record exists_ encryptedVotes voteCount]. intros Hex.
    rewrite decrypt_add, decrypt_asEuint32, (A _ Hex).
    pose proof (inv_votes _ _ I id) as Hv.
    rewrite Zplus_mod_idemp_r. apply Z.mod_small. lia.
  - rewrite confessionAt_store. case_decide; [subst id'|apply A].
    cbn. apply A.
Qed.

Lemma counters_agree_run log s txs :
  ledger_inv log s -> counters_agree s -> counters_agree (final s txs).
Proof.
  revert log s. induction txs as [|tx txs IH]; intros log s I A; [exact A|].
  unfold final; cbn [run].
  pose proof (ledger_inv_step log s tx I) as I1.
  pose proof (counters_agree_step log s tx I A) as A1.
  destruct (execute s tx) as [o s1]; cbn [fst snd] in *.
  specialize (IH _ _ I1 A1). unfold final in IH.
  by destruct (run s1 txs).
Qed.

(** C2. From deployment, whatever transactions are sent: the voters of the
    committed [upvote] calls on a confession are pairwise distinct, and when
    there are [k] of them the record's [voteCount] is [k] and, for a
    capability with a decryption oracle (such as the transparent one),
    its encrypted counter decrypts to [k]. *)
Theorem upvotes_counted (deployer : Z) (txs : list (Ctx * Call)) (id : Z) :
  let log := fst (run (initial deployer) txs) in
  let s := final (initial deployer) txs in
  let k := Z.of_nat (length (upvoters id log)) in
  NoDup (upvoters id log) /\
  voteCount (confessionAt s id) = k /\
  (exists_ (confessionAt s id) = true ->
   decrypt (encryptedVotes (confessionAt s id)) = k).
Proof.
  intros log s k.
  pose proof (ledger_inv_deployed deployer txs) as I. fold log s in I.
  split; [apply (inv_distinct _ _ I)|].
  split; [apply (inv_votes _ _ I)|].
  intros Hex. rewrite <- (inv_votes _ _ I id : _ = k).
  refine (counters_agree_run [] (initial deployer) txs _ _ id Hex).
  - apply ledger_inv_initial.
  - intros id'. unfold confessionAt; cbn. by rewrite lookup_empty.
Qed.

End Votes.

(** * The ledger under the transparent capability

    Concrete runs: the inputs at which the general statements above are
    exercised, and the runs that separate the contract from a stricter
    reading of its rules. *)

Section ConcreteRuns.
Local Existing Instance TransparentFHE.
Local Existing Instance TransparentOracle.
Lemma wf_at_time a t :
  (0 <=? a) && (a <? 2 ^ 160) && (0 <=? t) && (t <? 2 ^ 64) = true ->
  wf_ctx (at_time a t).
Proof.
  rewrite !andb_true_iff. intros [[[? ?] ?] ?]. bool_to_prop.
  by repeat split.
Qed.

(** ** Distinct voters *)

Lemma upvotes_counted_witness :
  let s := final (initial the_owner) three_votes in
  upvoters 1 (fst (run (initial the_owner) three_votes)) = [bob; carol; alice] /\
  voteCount (confessionAt s 1) = 3 /\
  decrypt (encryptedVotes (confessionAt s 1)) = 3.
Proof.
  cbv zeta.
  pose proof (upvotes_counted the_owner three_votes 1) as W. cbv zeta in W.
  destruct W as (_ & Hv & Hd).
  split; [vm_compute; reflexivity|].
  split.
  - rewrite Hv. vm_compute. reflexivity.
  - rewrite Hd; vm_compute; reflexivity.
Defined.

(** ** A repeated upvote *)

Lemma repeat_upvote_rejected_witness :
  let s2 := final (initial the_owner) (firstn 2 voted_then_paused) in
  let s3 := final (initial the_owner) voted_then_paused in
  execute s2 (at_time bob 1020, CallUpvote 1) = (Revert AlreadyUpvoted, s2) /\
  execute s3 (at_time bob 1020, CallUpvote 1) = (Revert ContractIsPaused, s3).
Proof.
  cbv zeta.
  assert (H2 : upvoters 1 (fst (run (initial the_owner)
                 (firstn 2 voted_then_paused))) = [sender (at_time bob 1020)])
    by (vm_compute; reflexivity).
  assert (H3 : upvoters 1 (fst (run (initial the_owner) voted_then_paused))
               = [sender (at_time bob 1020)])
    by (vm_compute; reflexivity).
  assert (P2 : paused (final (initial the_owner) (firstn 2 voted_then_paused))
               = false) by (vm_compute; reflexivity).
  assert (P3 : paused (final (initial the_owner) voted_then_paused) = true)
    by (vm_compute; reflexivity).
  split.
  - pose proof (repeat_upvote_rejected the_owner (firstn 2 voted_then_paused) 1
                  (at_time bob 1020)) as W.
    cbv zeta in W. rewrite H2, P2 in W.
    apply W, list_elem_of_singleton. reflexivity.
  - pose proof (repeat_upvote_rejected the_owner voted_then_paused 1
                  (at_time bob 1020)) as W.
    cbv zeta in W. rewrite H3, P3 in W.
    apply W, list_elem_of_singleton. reflexivity.
Defined.

(** ** Two submissions of one caller *)

Lemma alice_submits_first :
  execute (initial the_owner)
          (at_time alice 1000, CallSubmitConfession hello_world_test) =
    (Ok (RetUint 1, [ConfessionSubmitted 1 alice 1000]),
     submitted (at_time alice 1000) hello_world_test (initial the_owner)).
Proof.
  apply execute_commits.
  apply (commits_submit (initial the_owner) (at_time alice 1000)
           hello_world_test); vm_compute; (reflexivity || discriminate).
Qed.

Lemma rate_limit_window_witness :
  let c1 := at_time alice 1000 in
  let s1 := submitted c1 hello_world_test (initial the_owner) in
  let s2 := final s1 [(at_time bob 1010, CallUpvote 1)] in
  execute s2 (at_time alice 1299, CallSubmitConfession hello_world_test) =
    (Revert RateLimitActive, s2) /\
  execute s2 (at_time alice 1300, CallSubmitConfession hello_world_test) =
    (Ok (RetUint (confessionCount s2 + 1),
         [ConfessionSubmitted (confessionCount s2 + 1) alice 1300]),
     submitted (at_time alice 1300) hello_world_test s2).
Proof.
  cbv zeta.
  assert (Hmid : Forall wf_tx [(at_time bob 1010, CallUpvote 1)]).
  { constructor; [|constructor].
    split; [apply wf_at_time; vm_compute; reflexivity|].
    split; vm_compute; (reflexivity || discriminate). }
  assert (Hno : Forall (fun tx => ~ is_submit_by (sender (at_time alice 1000)) tx)
                       [(at_time bob 1010, CallUpvote 1)]).
  { constructor; [|constructor]. intros [_ []]. }
  assert (Hw1 : wf_ctx (at_time alice 1000))
    by (apply wf_at_time; vm_compute; reflexivity).
  pose proof (rate_limit_window (initial the_owner)
      (at_time alice 1000) (at_time alice 1299)
      hello_world_test hello_world_test
      [(at_time bob 1010, CallUpvote 1)] _ _ _
      (reachable_initial the_owner) Hw1 Hmid alice_submits_first Hno
      eq_refl) as Wshort.
  pose proof (rate_limit_window (initial the_owner)
      (at_time alice 1000) (at_time alice 1300)
      hello_world_test hello_world_test
      [(at_time bob 1010, CallUpvote 1)] _ _ _
      (reachable_initial the_owner) Hw1 Hmid alice_submits_first Hno
      eq_refl) as Wlong.
  cbv zeta in Wshort, Wlong.
  split.
  - apply Wshort; vm_compute; (reflexivity || discriminate).
  - apply Wlong; vm_compute; (reflexivity || discriminate).
Defined.

(** ** A paused ledger *)

Lemma submitted_then_paused_reachable :
  reachable (final (initial the_owner) submitted_then_paused).
Proof.
  exists the_owner, submitted_then_paused. split; [|reflexivity].
  repeat constructor; vm_compute; (reflexivity || discriminate).
Qed.

Lemma submitted_then_paused_is_paused :
  paused (final (initial the_owner) submitted_then_paused) = true.
Proof. vm_compute. reflexivity. Qed.

Lemma pause_invariant_witness :
  let s := final (initial the_owner) submitted_then_paused in
  execute s (at_time bob 1020, CallSubmitConfession hello_world_test) =
    (Revert ContractIsPaused, s) /\
  execute s (at_time bob 1020, CallUpvote 1) = (Revert ContractIsPaused, s) /\
  paused (final s [(at_time bob 1020, CallUpvote 1);
                   (at_time alice 1030, CallUpdateIPFSCID 1 42)]) = true /\
  call_view (getConfession 1) s = Ok (confessionAt s 1) /\
  call_view (hasUserUpvoted 1 bob) s = Ok (hasUpvotedAt s 1 bob).
Proof.
  cbv zeta.
  destruct (pause_invariant (final (initial the_owner) submitted_then_paused))
    as (Hpaused & _ & Hviews).
  destruct (Hpaused submitted_then_paused_is_paused) as [Hcore Htrace].
  destruct (Hcore (at_time bob 1020) hello_world_test 1) as [Hs Hu].
  destruct (Hviews submitted_then_paused_reachable
              (at_time alice 1100) 1 bob alice) as (Hg & Hh & _ & _).
  split; [exact Hs|]. split; [exact Hu|]. split; [|split].
  - refine (proj1 (Htrace _ _)). repeat constructor.
  - apply Hg. vm_compute. split; discriminate.
  - exact Hh.
Defined.

(** Against C6 as worded: the author of confession 1 sets its [ipfsCID]
    while the ledger is paused; the call commits and the storage changes. *)
Lemma updateIPFSCID_while_paused :
  let s := final (initial the_owner) submitted_then_paused in
  let s' := snd (execute s (at_time alice 1020, CallUpdateIPFSCID 1 42)) in
  paused s = true /\
  fst (execute s (at_time alice 1020, CallUpdateIPFSCID 1 42)) =
    Ok (RetUnit, []) /\
  ipfsCID (confessionAt s 1) = 0 /\
  ipfsCID (confessionAt s' 1) = 42 /\
  s' <> s.
Proof.
  cbv zeta.
  split; [vm_compute; reflexivity|].
  split; [vm_compute; reflexivity|].
  split; [vm_compute; reflexivity|].
  split; [vm_compute; reflexivity|].
  intros E.
  apply (f_equal (fun st => ipfsCID (confessionAt st 1))) in E.
  vm_compute in E. discriminate.
Qed.

Lemma pause_gates_core_only_witness :
  let s := final (initial the_owner) submitted_then_paused in
  execute s (at_time alice 1020, CallSubmitConfession hello_world_test) =
    (Revert ContractIsPaused, s) /\
  execute s (at_time alice 1020, CallUpdateIPFSCID 1 42) =
    (Ok (RetUnit, []),
     store_confession 1 (with_ipfsCID 42 (confessionAt s 1)) s) /\
  execute s (at_time the_owner 1020, CallUnpause) =
    (Ok (RetUnit, [ContractPaused false]), set_paused false s).
Proof.
  cbv zeta.
  destruct (pause_gates_core_only
              (final (initial the_owner) submitted_then_paused)
              (at_time alice 1020) submitted_then_paused_is_paused)
    as (Hs & _ & Hi & _).
  destruct (pause_gates_core_only
              (final (initial the_owner) submitted_then_paused)
              (at_time the_owner 1020) submitted_then_paused_is_paused)
    as (_ & _ & _ & Ha).
  split; [apply Hs|]. split; [apply Hi; vm_compute; reflexivity|].
  apply Ha. vm_compute. reflexivity.
Defined.

(** ** The scenario *)

(** Against C7 as worded: with the clock at 0 the very first submission is
    refused; a sender who never submitted has [lastSubmissionTime = 0], and
    [0 >= 0 + 300] fails.  The message has 16 bytes. *)
Lemma first_submission_at_time_zero :
  length hello_world_test = 16%nat /\
  rateLimitCooldown (initial the_owner) = 300 /\
  execute (initial the_owner)
          (at_time alice 0, CallSubmitConfession hello_world_test) =
    (Revert RateLimitActive, initial the_owner) /\
  call_view (getRemainingCooldown (at_time alice 0) alice) (initial the_owner)
    = Ok 300.
Proof.
  split; [reflexivity|]. split; [reflexivity|]. split.
  - apply execute_revert_eq. vm_compute. reflexivity.
  - vm_compute. reflexivity.
Qed.

(** The outcomes of the scenario's five calls with the clock started at
    300, from the deployed state. *)
Example scenario_outcomes_from_300 :
  map snd (fst (run (initial the_owner)
    [ (at_time alice 300, CallSubmitConfession hello_world_test);
      (at_time bob 310, CallUpvote 1);
      (at_time bob 320, CallUpvote 1);
      (at_time alice 400, CallSubmitConfession hello_world_test);
      (at_time alice 601, CallSubmitConfession hello_world_test) ])) =
  [ Ok (RetUint 1, [ConfessionSubmitted 1 alice 300]);
    Ok (RetUnit, [ConfessionUpvoted 1 bob 310]);
    Revert AlreadyUpvoted;
    Revert RateLimitActive;
    Ok (RetUint 2, [ConfessionSubmitted 2 alice 601]) ].
Proof. vm_compute. reflexivity. Qed.

Lemma scenario_after_cooldown_witness :
  let s1 := submitted (at_time alice 300) hello_world_test (initial the_owner) in
  let s2 := upvoted (at_time bob (300 + 10)) 1 s1 in
  execute (initial the_owner)
          (at_time alice 300, CallSubmitConfession hello_world_test) =
    (Ok (RetUint 1, [ConfessionSubmitted 1 alice 300]), s1) /\
  createdAt (confessionAt s1 1) = 300 /\
  execute s2 (at_time bob (300 + 20), CallUpvote 1) =
    (Revert AlreadyUpvoted, s2) /\
  execute s2 (at_time alice (300 + 100),
              CallSubmitConfession hello_world_test) =
    (Revert RateLimitActive, s2) /\
  call_view (getRemainingCooldown (at_time alice (300 + 100)) alice) s2
    = Ok 200.
Proof.
  cbv zeta.
  assert (H300 : 300 <= 300 < 2 ^ 64) by (split; vm_compute; (reflexivity || discriminate)).
  pose proof (scenario_after_cooldown the_owner alice bob 300 H300) as W.
  cbv zeta in W.
  destruct W as (_ & W1 & W2 & _ & _ & _ & _ & W3 & W4 & W5 & _).
  split; [exact W1|]. split; [exact W2|]. split; [exact W3|].
  split; [exact W4|exact W5].
Defined.

(** ** The cooldown bound *)

Lemma updateRateLimit_bound_witness :
  execute (initial the_owner) (at_time the_owner 1000, CallUpdateRateLimit 3600) =
    (Ok (RetUnit, [RateLimitUpdated 3600]),
     set_rateLimitCooldown 3600 (initial the_owner)) /\
  execute (initial the_owner) (at_time the_owner 1000, CallUpdateRateLimit 3601) =
    (Revert CooldownTooLong, initial the_owner).
Proof.
  destruct (updateRateLimit_bound (initial the_owner)
              (at_time the_owner 1000) eq_refl) as (Hok & _ & _ & _ & _ & Hko).
  split; [apply Hok; vm_compute; discriminate | exact Hko].
Defined.

(** ** The frame of an upvote *)

Lemma bob_upvotes_first :
  let s := submitted (at_time alice 1000) hello_world_test (initial the_owner) in
  execute s (at_time bob 1010, CallUpvote 1) =
    (Ok (RetUnit, [ConfessionUpvoted 1 bob 1010]),
     upvoted (at_time bob 1010) 1 s).
Proof.
  cbv zeta. apply execute_commits.
  apply (commits_upvote _ (at_time bob 1010) 1);
    vm_compute; (reflexivity || discriminate).
Qed.

Lemma upvote_frame_witness :
  let s := submitted (at_time alice 1000) hello_world_test (initial the_owner) in
  let s' := upvoted (at_time bob 1010) 1 s in
  voteCount (confessionAt s' 1) = voteCount (confessionAt s 1) + 1 /\
  message (confessionAt s' 1) = message (confessionAt s 1) /\
  confessionCount s' = confessionCount s /\
  lastSubmissionTime s' = lastSubmissionTime s /\
  paused s' = paused s.
Proof.
  cbv zeta.
  pose proof (upvote_frame _ _ _ _ _ _ bob_upvotes_first) as W.
  cbv zeta in W.
  destruct W as ((_ & Hv & _) & (Hm & _) & _ & _ & Hc & Hl & _ & _ & Hp & _).
  split; [exact Hv|]. split; [exact Hm|]. split; [exact Hc|].
  split; [exact Hl|exact Hp].
Defined.

(** ** The author's own upvote *)

Lemma alice_confession_reachable :
  reachable (submitted (at_time alice 1000) hello_world_test
               (initial the_owner)).
Proof.
  exists the_owner,
    [(at_time alice 1000, CallSubmitConfession hello_world_test)].
  split.
  - repeat constructor; vm_compute; (reflexivity || discriminate).
  - unfold final; cbn [run]. by rewrite alice_submits_first.
Qed.

Lemma author_may_upvote_witness :
  let s := submitted (at_time alice 1000) hello_world_test (initial the_owner) in
  author (confessionAt s 1) = alice /\
  execute s (at_time alice 1010, CallUpvote 1) =
    (Ok (RetUnit, [ConfessionUpvoted 1 alice 1010]),
     upvoted (at_time alice 1010) 1 s) /\
  voteCount (confessionAt (upvoted (at_time alice 1010) 1 s) 1) =
    voteCount (confessionAt s 1) + 1 /\
  exists s_bob,
    execute s (at_time bob 1010, CallUpvote 1) =
      (Ok (RetUnit, [ConfessionUpvoted 1 bob 1010]), s_bob) /\
    confessionAt s_bob 1 =
      confessionAt (snd (execute s (at_time alice 1010, CallUpvote 1))) 1.
Proof.
  cbv zeta. split; [vm_compute; reflexivity|].
  assert (W : _) by
    (refine (author_may_upvote
               (submitted (at_time alice 1000) hello_world_test
                  (initial the_owner))
               (at_time alice 1010) 1
               alice_confession_reachable _ _ _ _ _);
     vm_compute; reflexivity).
  destruct W as (Hcommit & Hcount & _ & Hother).
  split; [exact Hcommit|]. split; [exact Hcount|].
  apply (Hother (at_time bob 1010)). vm_compute. reflexivity.
Defined.

Lemma own_confession_committed :
  execute (initial the_owner)
          (at_time the_author 1000, CallSubmitConfession hello_world_test) =
    (Ok (RetUint 1, [ConfessionSubmitted 1 the_author 1000]), own_confession).
Proof.
  apply execute_commits.
  apply (commits_submit (initial the_owner) (at_time the_author 1000)
           hello_world_test); vm_compute; (reflexivity || discriminate).
Qed.

Lemma crowd_S n : crowd (S n) = crowd n ++ [crowd_vote (S n)].
Proof. unfold crowd. by rewrite seq_S, map_app. Qed.

Lemma crowd_inv_voted n :
  Z.of_nat n <= MAX_UINT32 -> crowd_inv n (voted_by_crowd n).
Proof.
  unfold MAX_UINT32. induction n as [|n IH]; intros Hn.
  - split; try reflexivity.
    intros a. unfold hasUpvotedAt, voted_by_crowd, final; cbn [crowd seq map run snd].
    cbn [own_confession submitted hasUpvoted initial].
    rewrite lookup_empty. discriminate.
  - destruct IH as [Hp Hg He Ha Hv Hvs]; [lia|].
    unfold voted_by_crowd. rewrite crowd_S, final_snoc.
    fold (voted_by_crowd n). set (s := voted_by_crowd n) in *.
    assert (Hfresh : hasUpvotedAt s 1 (Z.of_nat (S n)) = false).
    { destruct (hasUpvotedAt s 1 (Z.of_nat (S n))) eqn:E; [|reflexivity].
      apply Hvs in E. lia. }
    assert (E : execute s (crowd_vote (S n)) =
                (Ok (RetUnit,
                     [ConfessionUpvoted 1 (Z.of_nat (S n)) 2000]),
                 upvoted (at_time (Z.of_nat (S n)) 2000) 1 s)).
    { apply execute_commits.
      apply (commits_upvote s (at_time (Z.of_nat (S n)) 2000) 1);
        try assumption.
      - rewrite Hg. discriminate.
      - rewrite Hv. lia. }
    rewrite E; cbn [snd].
    split; try assumption; try reflexivity.
    + by rewrite confessionAt_upvoted, decide_True.
    + by rewrite confessionAt_upvoted, decide_True.
    + rewrite confessionAt_upvoted, decide_True by reflexivity.
      cbn [upvoted_record voteCount]. rewrite Hv. lia.
    + intros a. rewrite hasUpvotedAt_upvoted.
      destruct (decide (1 = 1 /\ sender (at_time (Z.of_nat (S n)) 2000) = a))
        as [[_ <-]|_].
      * intros _. cbn [sender at_time]. lia.
      * intros Hin. apply Hvs in Hin. lia.
Qed.

Lemma crowd_wf n : Z.of_nat n <= MAX_UINT32 -> Forall wf_tx (crowd n).
Proof.
  unfold MAX_UINT32. intros Hn. unfold crowd.
  apply Forall_map, Forall_forall. intros a Ha.
  apply elem_of_seq in Ha.
  assert (H160 : 2 ^ 32 < 2 ^ 160) by (vm_compute; reflexivity).
  assert (H64 : 2000 < 2 ^ 64) by (vm_compute; reflexivity).
  assert (H256 : 1 < 2 ^ 256) by (vm_compute; reflexivity).
  split; [split|]; cbn [crowd_vote fst snd at_time sender timestamp wf_call];
    unfold is_uint; lia.
Qed.

Lemma voted_by_crowd_reachable n :
  Z.of_nat n <= MAX_UINT32 -> reachable (voted_by_crowd n).
Proof.
  intros Hn. exists the_owner,
    ((at_time the_author 1000, CallSubmitConfession hello_world_test)
       :: crowd n).
  split.
  - constructor; [|by apply crowd_wf].
    split; [apply wf_at_time|]; vm_compute; reflexivity.
  - unfold voted_by_crowd, final at 2; cbn [run].
    rewrite own_confession_committed. unfold final.
    by destruct (run own_confession (crowd n)).
Qed.

Lemma author_reverts_when_full n :
  Z.of_nat n = MAX_UINT32 ->
  let s := voted_by_crowd n in
  let ctx := at_time the_author 3000 in
  reachable s /\
  paused s = false /\
  exists_ (confessionAt s 1) = true /\
  sender ctx = author (confessionAt s 1) /\
  hasUpvotedAt s 1 (sender ctx) = false /\
  voteCount (confessionAt s 1) = MAX_UINT32 /\
  execute s (ctx, CallUpvote 1) = (Revert (Panic PANIC_OVERFLOW), s).
Proof.
  intros Hn. cbv zeta.
  destruct (crowd_inv_voted n) as [Hp Hg He Ha Hv Hvs]; [lia|].
  set (s := voted_by_crowd n) in *. set (ctx := at_time the_author 3000).
  assert (Hnot : hasUpvotedAt s 1 (sender ctx) = false).
  { destruct (hasUpvotedAt s 1 (sender ctx)) eqn:E; [|reflexivity].
    apply Hvs in E. rewrite Hn in E. unfold MAX_UINT32 in E.
    assert (2 ^ 32 - 1 < sender ctx) by (vm_compute; reflexivity). lia. }
  split; [apply voted_by_crowd_reachable; lia|].
  split; [exact Hp|]. split; [exact He|]. split; [by rewrite Ha|].
  split; [exact Hnot|]. split; [by rewrite Hv|].
  rewrite execute_upvote_eq, upvote_eq, Hp, Hg, He, Hnot, Hv, Hn.
  reflexivity.
Qed.

(** The bound on the counter in [author_may_upvote] cannot be dropped:
    with 2^32 - 1 upvotes on a confession the [uint32] increment of
    [voteCount] overflows, and the next upvote, here the author's, reverts
    with [Panic(0x11)]. *)
Lemma author_upvote_at_saturation :
  let s := voted_by_crowd (Z.to_nat MAX_UINT32) in
  let ctx := at_time the_author 3000 in
  reachable s /\
  paused s = false /\
  exists_ (confessionAt s 1) = true /\
  sender ctx = author (confessionAt s 1) /\
  hasUpvotedAt s 1 (sender ctx) = false /\
  voteCount (confessionAt s 1) = MAX_UINT32 /\
  execute s (ctx, CallUpvote 1) = (Revert (Panic PANIC_OVERFLOW), s).
Proof.
  apply (author_reverts_when_full (Z.to_nat MAX_UINT32)).
  apply Z2Nat.id. unfold MAX_UINT32. lia.
Qed.

End ConcreteRuns.

(** * Further properties of the ledger *)

Section LedgerFacts.
Context {F : FHE}.

(** ** Records are written once *)

Lemma same_origin_step log s tx id :
  ledger_inv log s ->
  exists_ (confessionAt s id) = true ->
  same_origin (confessionAt s id) (confessionAt (snd (execute s tx)) id) /\
  voteCount (confessionAt s id)
    <= voteCount (confessionAt (snd (execute s tx)) id).
Proof.
  intros I Hex. destruct tx as [ctx c].
  assert (Hsame : forall c0 : Confession,
            same_origin c0 c0 /\ voteCount c0 <= voteCount c0).
  { intros c0. split; [by repeat split | apply Z.le_refl]. }
  destruct (execute_inv s ctx c) as [[r ->]|(r & evs & s' & -> & Hc)];
    cbn [fst snd]; [apply Hsame|].
  inversion Hc; subst; clear Hc; try apply Hsame.
  - rewrite confessionAt_submitted. case_decide as Hid; [|apply Hsame].
    subst id. apply (inv_exists _ _ I) in Hex. lia.
  - rewrite confessionAt_upvoted. case_decide as Hid; [|apply Hsame].
    subst id. split; [by repeat split|cbn; lia].
  - rewrite confessionAt_store. case_decide as Hid; [|apply Hsame].
    subst id. split; [by repeat split|cbn; lia].
Qed.

Lemma same_origin_run log s txs id :
  ledger_inv log s ->
  exists_ (confessionAt s id) = true ->
  same_origin (confessionAt s id) (confessionAt (final s txs) id) /\
  voteCount (confessionAt s id) <= voteCount (confessionAt (final s txs) id).
Proof.
  revert log s. induction txs as [|tx txs IH]; intros log s I Hex.
  - by split; [repeat split|cbn; lia].
  - unfold final; cbn [run].
    pose proof (ledger_inv_step log s tx I) as I1.
    destruct (same_origin_step log s tx id I Hex) as [(Hm & Hc & Ha & He) Hv].
    destruct (execute s tx) as [o s1]; cbn [fst snd] in *.
    assert (Hex1 : exists_ (confessionAt s1 id) = true) by congruence.
    destruct (IH _ _ I1 Hex1) as [(Hm' & Hc' & Ha' & He') Hv'].
    unfold final in *. destruct (run s1 txs) as [l s2]; cbn [snd] in *.
    split; [repeat split; congruence | lia].
Qed.

(** X1. The ledger is append-only: once a confession exists, whatever
    transactions follow, its [message], [createdAt] and [author] stay as
    they were written and it keeps existing. *)
Theorem confession_never_rewritten
    (deployer : Z) (before after : list (Ctx * Call)) (id : Z) :
  let s1 := final (initial deployer) before in
  let s2 := final s1 after in
  exists_ (confessionAt s1 id) = true ->
  message (confessionAt s2 id) = message (confessionAt s1 id) /\
  createdAt (confessionAt s2 id) = createdAt (confessionAt s1 id) /\
  author (confessionAt s2 id) = author (confessionAt s1 id) /\
  exists_ (confessionAt s2 id) = true.
Proof.
  intros s1 s2 Hex.
  destruct (same_origin_run _ s1 after id
              (ledger_inv_deployed deployer before) Hex)
    as [(Hm & Hc & Ha & He) _].
  fold s2 in Hm, Hc, Ha, He. repeat split; congruence.
Qed.

(** ** Votes are never withdrawn *)

Lemma hasUpvotedAt_step s tx id a :
  hasUpvotedAt s id a = true ->
  hasUpvotedAt (snd (execute s tx)) id a = true.
Proof.
  intros Hv. destruct tx as [ctx c].
  destruct (execute_inv s ctx c) as [[r ->]|(r & evs & s' & -> & Hc)];
    cbn [fst snd]; [done|].
  inversion Hc; subst; clear Hc; try done.
  rewrite hasUpvotedAt_upvoted. by case_decide.
Qed.

Lemma hasUpvotedAt_run s txs id a :
  hasUpvotedAt s id a = true -> hasUpvotedAt (final s txs) id a = true.
Proof.
  revert s. induction txs as [|tx txs IH]; intros s Hv; [done|].
  unfold final; cbn [run].
  pose proof (hasUpvotedAt_step s tx id a Hv) as Hv1.
  destruct (execute s tx) as [o s1]; cbn [fst snd] in *.
  specialize (IH s1 Hv1). unfold final in IH. by destruct (run s1 txs).
Qed.

(** X2. No function clears a vote: once [hasUserUpvoted(id, voter)] is
    true it stays true over any transactions, and the [voteCount] of an
    existing confession never decreases. *)
Theorem votes_never_withdrawn
    (deployer : Z) (before after : list (Ctx * Call)) (id voter : Z) :
  let s1 := final (initial deployer) before in
  let s2 := final s1 after in
  (hasUpvotedAt s1 id voter = true ->
   call_view (hasUserUpvoted id voter) s2 = Ok true) /\
  (exists_ (confessionAt s1 id) = true ->
   voteCount (confessionAt s1 id) <= voteCount (confessionAt s2 id)).
Proof.
  intros s1 s2. split.
  - intros Hv. rewrite hasUserUpvoted_eq. f_equal.
    by apply hasUpvotedAt_run.
  - intros Hex.
    apply (same_origin_run _ s1 after id
             (ledger_inv_deployed deployer before) Hex).
Qed.

(** ** Configuration belongs to the owner *)

Lemma config_step s tx :
  sender (fst tx) <> owner s ->
  paused (snd (execute s tx)) = paused s /\
  rateLimitCooldown (snd (execute s tx)) = rateLimitCooldown s /\
  owner (snd (execute s tx)) = owner s.
Proof.
  intros Hne. destruct tx as [ctx c]. cbn [fst] in Hne.
  destruct (execute_inv s ctx c) as [[r ->]|(r & evs & s' & -> & Hc)];
    cbn [fst snd]; [done|].
  inversion Hc; subst; clear Hc; try done; congruence.
Qed.

(** X3. Only the owner reconfigures the ledger: over any transactions none
    of which is sent by the owner, [paused], [rateLimitCooldown] and
    [owner] keep their values. *)
Theorem config_only_by_owner (s : State) (txs : list (Ctx * Call)) :
  Forall (fun tx => sender (fst tx) <> owner s) txs ->
  paused (final s txs) = paused s /\
  rateLimitCooldown (final s txs) = rateLimitCooldown s /\
  owner (final s txs) = owner s.
Proof.
  revert s. induction txs as [|tx txs IH]; intros s Hall; [done|].
  inversion Hall as [|? ? Htx Hrest]; subst.
  unfold final; cbn [run].
  destruct (config_step s tx Htx) as (Hp & Hc & Ho).
  destruct (execute s tx) as [o s1]; cbn [fst snd] in *.
  assert (Hrest1 : Forall (fun tx => sender (fst tx) <> owner s1) txs).
  { rewrite Ho. exact Hrest. }
  destruct (IH s1 Hrest1) as (Hp' & Hc' & Ho'). unfold final in *.
  destruct (run s1 txs) as [l s2]; cbn [snd] in *.
  repeat split; congruence.
Qed.

(** ** The pause functions compose *)

Lemma set_paused_same s : set_paused (paused s) s = s.
Proof. by destruct s. Qed.

Lemma set_paused_twice b b' s : set_paused b' (set_paused b s) = set_paused b' s.
Proof. reflexivity. Qed.

(** X4. Sent by the owner, [togglePause] twice restores the storage it
    started from; [emergencyPause] and [unpause] are idempotent, each
    overrides the other, and [togglePause] on a paused ledger is
    [unpause]. *)
Theorem pause_functions_compose (s : State) (c1 c2 : Ctx) :
  sender c1 = owner s -> sender c2 = owner s ->
  final s [(c1, CallTogglePause); (c2, CallTogglePause)] = s /\
  final s [(c1, CallEmergencyPause); (c2, CallEmergencyPause)] =
    final s [(c1, CallEmergencyPause)] /\
  final s [(c1, CallUnpause); (c2, CallUnpause)] = final s [(c1, CallUnpause)] /\
  final s [(c1, CallEmergencyPause); (c2, CallUnpause)] = set_paused false s /\
  final s [(c1, CallUnpause); (c2, CallEmergencyPause)] = set_paused true s /\
  (paused s = true ->
   final s [(c1, CallTogglePause)] = final s [(c1, CallUnpause)]).
Proof.
  intros H1 H2.
  assert (T : forall s0 c, sender c = owner s0 ->
            execute s0 (c, CallTogglePause) =
            (Ok (RetUnit, [ContractPaused (negb (paused s0))]),
             set_paused (negb (paused s0)) s0)).
  { intros s0 c Hc. apply execute_commits. by constructor. }
  assert (E : forall s0 c, sender c = owner s0 ->
            execute s0 (c, CallEmergencyPause) =
            (Ok (RetUnit, [ContractPaused true]), set_paused true s0)).
  { intros s0 c Hc. apply execute_commits. by constructor. }
  assert (U : forall s0 c, sender c = owner s0 ->
            execute s0 (c, CallUnpause) =
            (Ok (RetUnit, [ContractPaused false]), set_paused false s0)).
  { intros s0 c Hc. apply execute_commits. by constructor. }
  assert (H2' : forall b, sender c2 = owner (set_paused b s)) by (intros; exact H2).
  unfold final; cbn [run].
  rewrite (T s c1 H1), (E s c1 H1), (U s c1 H1).
  rewrite (T _ c2 (H2' _)), !(E _ c2 (H2' _)), !(U _ c2 (H2' _)).
  cbn [snd paused set_paused]. rewrite negb_involutive.
  repeat split; try reflexivity.
  - rewrite set_paused_twice. apply set_paused_same.
  - intros Hp. by rewrite Hp.
Qed.

(** ** The IPFS reference *)

Lemma ipfsCID_step log s tx id :
  ledger_inv log s ->
  exists_ (confessionAt s id) = true ->
  ~ is_cid_update_by (author (confessionAt s id)) id tx ->
  ipfsCID (confessionAt (snd (execute s tx)) id) = ipfsCID (confessionAt s id).
Proof.
  intros I Hex Hno. destruct tx as [ctx c].
  destruct (execute_inv s ctx c) as [[r ->]|(r & evs & s' & -> & Hc)];
    cbn [fst snd]; [done|].
  inversion Hc; subst; clear Hc; try done.
  - rewrite confessionAt_submitted. case_decide as Hid; [|done].
    subst id. apply (inv_exists _ _ I) in Hex. lia.
  - rewrite confessionAt_upvoted. by case_decide as Hid; [subst id|].
  - rewrite confessionAt_store. case_decide as Hid; [subst id|done].
    exfalso. apply Hno. by split.
Qed.

(** X5. A confession's [ipfsCID] is written by its author only: over any
    transactions that contain no [updateIPFSCID] on that id sent by the
    author, the field keeps its value (zero if it was never set). *)
Theorem ipfsCID_only_by_author
    (deployer : Z) (before after : list (Ctx * Call)) (id : Z) :
  let s1 := final (initial deployer) before in
  let s2 := final s1 after in
  exists_ (confessionAt s1 id) = true ->
  Forall (fun tx => ~ is_cid_update_by (author (confessionAt s1 id)) id tx)
         after ->
  ipfsCID (confessionAt s2 id) = ipfsCID (confessionAt s1 id).
Proof.
  intros s1 s2 Hex Hno. subst s2.
  pose proof (ledger_inv_deployed deployer before) as I. fold s1 in I.
  clearbody s1. revert s1 Hex Hno I.
  generalize (fst (run (initial deployer) before)) as log.
  induction after as [|tx txs IH]; intros log s1 Hex Hno I; [done|].
  inversion Hno as [|? ? Htx Hrest]; subst.
  unfold final; cbn [run].
  pose proof (ledger_inv_step log s1 tx I) as I1.
  pose proof (ipfsCID_step log s1 tx id I Hex Htx) as Hcid.
  destruct (same_origin_step log s1 tx id I Hex) as [(_ & _ & Ha & He) _].
  destruct (execute s1 tx) as [o s'] eqn:E; cbn [fst snd] in *.
  assert (Hex' : exists_ (confessionAt s' id) = true) by congruence.
  assert (Hrest' : Forall (fun tx => ~ is_cid_update_by
                             (author (confessionAt s' id)) id tx) txs)
    by (by rewrite Ha).
  specialize (IH _ s' Hex' Hrest' I1). unfold final in IH.
  destruct (run s' txs) as [l s2]; cbn [snd] in *. congruence.
Qed.

(** X6. [updateIPFSCID] overwrites: the author's second value replaces the
    first, so two updates leave the storage one update with the second
    value would, and a repeated update changes nothing more. *)
Theorem updateIPFSCID_last_write_wins
    (s : State) (c1 c2 : Ctx) (id cid1 cid2 : Z) :
  exists_ (confessionAt s id) = true ->
  sender c1 = author (confessionAt s id) ->
  sender c2 = author (confessionAt s id) ->
  final s [(c1, CallUpdateIPFSCID id cid1); (c2, CallUpdateIPFSCID id cid2)] =
    final s [(c2, CallUpdateIPFSCID id cid2)] /\
  ipfsCID (confessionAt (final s [(c2, CallUpdateIPFSCID id cid2)]) id) = cid2.
Proof.
  intros Hex H1 H2.
  assert (U : forall s0 c cid,
            exists_ (confessionAt s0 id) = true ->
            sender c = author (confessionAt s0 id) ->
            execute s0 (c, CallUpdateIPFSCID id cid) =
            (Ok (RetUnit, []),
             store_confession id (with_ipfsCID cid (confessionAt s0 id)) s0)).
  { intros s0 c cid He Ha. apply execute_commits. by constructor. }
  unfold final; cbn [run].
  rewrite (U s c1 cid1 Hex H1), (U s c2 cid2 Hex H2).
  rewrite U; cycle 1.
  - by rewrite confessionAt_store, decide_True.
  - by rewrite confessionAt_store, decide_True.
  - cbn [snd]. split.
    + rewrite confessionAt_store, decide_True by done.
      unfold store_confession, set_confessions; cbn [confessions hasUpvoted
        lastSubmissionTime confessionCount rateLimitCooldown paused owner
        guardStatus]. by rewrite insert_insert_eq.
    + by rewrite confessionAt_store, decide_True.
Qed.

(** ** Ids that hold no confession *)

(** X7. In a reachable state an id outside [1 .. confessionCount] (0
    included) holds nothing: [getConfession], [getConfessionData] and
    [updateIPFSCID] revert with "Confession does not exist", so does
    [upvote] unless the ledger is paused, and [hasUserUpvoted] returns
    false for every address. *)
Theorem missing_id_behaviour (s : State) (ctx : Ctx) (id cid voter : Z) :
  reachable s ->
  ~ (1 <= id <= confessionCount s) ->
  call_view (getConfession id) s = Revert ConfessionDoesNotExist /\
  call_view (getConfessionData id) s = Revert ConfessionDoesNotExist /\
  execute s (ctx, CallUpdateIPFSCID id cid) =
    (Revert ConfessionDoesNotExist, s) /\
  (paused s = false ->
   execute s (ctx, CallUpvote id) = (Revert ConfessionDoesNotExist, s)) /\
  call_view (hasUserUpvoted id voter) s = Ok false.
Proof.
  intros R Hid.
  assert (Hex : exists_ (confessionAt s id) = false).
  { destruct (exists_ (confessionAt s id)) eqn:E; [|done].
    by apply (reachable_exists s id R) in E. }
  split; [by rewrite getConfession_eq, Hex|].
  split.
  { unfold call_view, getConfessionData. tx_unfold. by rewrite Hex. }
  split.
  { apply execute_revert_eq.
    unfold execute, dispatch, returning_unit, bind; cbn [fst snd].
    by rewrite updateIPFSCID_eq, Hex. }
  split.
  { intros Hp. rewrite execute_upvote_eq, upvote_eq, Hp, (reachable_guard s R).
    change (NOT_ENTERED =? ENTERED) with false. by rewrite Hex. }
  rewrite hasUserUpvoted_eq. f_equal.
  destruct R as (d & txs & _ & ->).
  pose proof (ledger_inv_deployed d txs) as I.
  destruct (hasUpvotedAt _ id voter) eqn:E; [|done].
  apply (inv_voters _ _ I) in E.
  by rewrite (upvoters_exist _ _ _ _ I E) in Hex.
Qed.

(** ** Why a core call reverts *)

Lemma confessionCount_bound_step s tx :
  confessionCount s < 2 ^ 256 ->
  confessionCount (snd (execute s tx)) < 2 ^ 256.
Proof.
  intros Hb. destruct tx as [ctx c].
  destruct (execute_inv s ctx c) as [[r ->]|(r & evs & s' & -> & Hc)];
    cbn [fst snd]; [done|].
  inversion Hc; subst; clear Hc; done.
Qed.

Lemma confessionCount_bound s :
  reachable s -> 0 <= confessionCount s < 2 ^ 256.
Proof.
  intros (d & txs & _ & ->). split.
  - rewrite (inv_count _ _ (ledger_inv_deployed d txs)). lia.
  - generalize (initial d), (eq_refl : confessionCount (initial d) < 2 ^ 256).
    induction txs as [|tx txs IH]; intros s Hb; [done|].
    unfold final; cbn [run].
    pose proof (confessionCount_bound_step s tx Hb) as Hb1.
    destruct (execute s tx) as [o s1]; cbn [fst snd] in *.
    specialize (IH s1 Hb1). unfold final in IH. by destruct (run s1 txs).
Qed.

Lemma submit_table (s : State) (ctx : Ctx) (m : list byte) :
  reachable s ->
  execute s (ctx, CallSubmitConfession m) =
    if paused s then (Revert ContractIsPaused, s)
    else if decide (m = []) then (Revert MessageCannotBeEmpty, s)
    else if timestamp ctx <? lastSubmissionTimeAt s (sender ctx)
                             + rateLimitCooldown s
      then (Revert RateLimitActive, s)
    else if confessionCount s =? MAX_UINT256
      then (Revert (Panic PANIC_OVERFLOW), s)
    else (Ok (RetUint (confessionCount s + 1),
              [ConfessionSubmitted (confessionCount s + 1)
                 (sender ctx) (timestamp ctx)]),
          submitted ctx m s).
Proof.
  intros R.
  rewrite execute_submit_eq, submitConfession_eq, (reachable_guard s R).
  change (NOT_ENTERED =? ENTERED) with false.
  destruct (paused s); [done|].
  destruct (reachable_clock s R) as [Hcd Hlast].
  specialize (Hlast (sender ctx)). unfold is_uint in Hlast.
  pose proof (confessionCount_bound s R) as Hcount.
  assert (Hbig : 2 ^ 64 + 3600 < 2 ^ 256) by (vm_compute; reflexivity).
  destruct (decide (m = [])) as [->|Hm]; [done|].
  apply length_pos_nonnil in Hm. rewrite Hm.
  rewrite (proj2 (Z.ltb_lt _ (2 ^ 256))) by lia.
  destruct (timestamp ctx <? _) eqn:Et; bool_to_prop.
  - by rewrite (proj2 (Z.leb_gt _ _)) by lia.
  - rewrite (proj2 (Z.leb_le _ _)) by lia.
    unfold MAX_UINT256.
    destruct (confessionCount _ =? 2 ^ 256 - 1) eqn:Ec; bool_to_prop.
    + by rewrite (proj2 (Z.ltb_ge _ _)) by lia.
    + by rewrite (proj2 (Z.ltb_lt _ _)) by lia.
Qed.

Lemma voteCount_bound_step s tx :
  (forall id, voteCount (confessionAt s id) < 2 ^ 32) ->
  forall id, voteCount (confessionAt (snd (execute s tx)) id) < 2 ^ 32.
Proof.
  intros Hb id. destruct tx as [ctx c].
  destruct (execute_inv s ctx c) as [[r ->]|(r & evs & s' & -> & Hc)];
    cbn [fst snd]; [done|].
  inversion Hc; subst; clear Hc; try apply Hb.
  - rewrite confessionAt_submitted. case_decide; [by cbn|apply Hb].
  - rewrite confessionAt_upvoted. case_decide; [subst; by cbn|apply Hb].
  - rewrite confessionAt_store. case_decide; [subst; cbn|]; apply Hb.
Qed.

Lemma voteCount_bound s :
  reachable s -> forall id, voteCount (confessionAt s id) < 2 ^ 32.
Proof.
  intros (d & txs & _ & ->).
  assert (H0 : forall id, voteCount (confessionAt (initial d) id) < 2 ^ 32).
  { intros id. unfold confessionAt; cbn. by rewrite lookup_empty. }
  revert H0. generalize (initial d).
  induction txs as [|tx txs IH]; intros s Hb; [done|].
  unfold final; cbn [run].
  pose proof (voteCount_bound_step s tx Hb) as Hb1.
  destruct (execute s tx) as [o s1]; cbn [fst snd] in *.
  specialize (IH s1 Hb1). unfold final in IH. by destruct (run s1 txs).
Qed.

Lemma upvote_table (s : State) (ctx : Ctx) (id : Z) :
  reachable s ->
  execute s (ctx, CallUpvote id) =
    if paused s then (Revert ContractIsPaused, s)
    else if negb (exists_ (confessionAt s id))
      then (Revert ConfessionDoesNotExist, s)
    else if hasUpvotedAt s id (sender ctx) then (Revert AlreadyUpvoted, s)
    else if voteCount (confessionAt s id) =? MAX_UINT32
      then (Revert (Panic PANIC_OVERFLOW), s)
    else (Ok (RetUnit, [ConfessionUpvoted id (sender ctx) (timestamp ctx)]),
          upvoted ctx id s).
Proof.
  intros R.
  rewrite execute_upvote_eq, upvote_eq, (reachable_guard s R).
  change (NOT_ENTERED =? ENTERED) with false.
  destruct (paused s); [done|].
  destruct (exists_ (confessionAt s id)) eqn:Hex; cbn [negb]; [|done].
  destruct (hasUpvotedAt s id (sender ctx)); [done|].
  pose proof (voteCount_bound s R id) as Hv.
  unfold MAX_UINT32.
  destruct (voteCount _ =? 2 ^ 32 - 1) eqn:Ec; bool_to_prop.
  - by rewrite (proj2 (Z.ltb_ge _ _)) by lia.
  - by rewrite (proj2 (Z.ltb_lt _ _)) by lia.
Qed.

(** X8. In a reachable state [submitConfession] has exactly these
    outcomes, tried in this order: "Contract is paused"; "Message cannot be
    empty"; "Rate limit active" when [now < lastSubmissionTime + cooldown];
    an arithmetic panic only when [confessionCount] is [2^256 - 1];
    otherwise it commits with id [confessionCount + 1].  The reentrancy
    guard and the overflow of the rate-limit sum never fire. *)
Theorem submitConfession_outcomes (s : State) (ctx : Ctx) (m : list byte) :
  reachable s ->
  execute s (ctx, CallSubmitConfession m) =
    if paused s then (Revert ContractIsPaused, s)
    else if decide (m = []) then (Revert MessageCannotBeEmpty, s)
    else if timestamp ctx <? lastSubmissionTimeAt s (sender ctx)
                             + rateLimitCooldown s
      then (Revert RateLimitActive, s)
    else if confessionCount s =? MAX_UINT256
      then (Revert (Panic PANIC_OVERFLOW), s)
    else (Ok (RetUint (confessionCount s + 1),
              [ConfessionSubmitted (confessionCount s + 1)
                 (sender ctx) (timestamp ctx)]),
          submitted ctx m s).
Proof. apply submit_table. Qed.

(** X9. In a reachable state [upvote] has exactly these outcomes, tried in
    this order: "Contract is paused"; "Confession does not exist";
    "Already upvoted this confession"; an arithmetic panic only when the
    record's [voteCount] is [2^32 - 1]; otherwise it commits.  The
    reentrancy guard never fires. *)
Theorem upvote_outcomes (s : State) (ctx : Ctx) (id : Z) :
  reachable s ->
  execute s (ctx, CallUpvote id) =
    if paused s then (Revert ContractIsPaused, s)
    else if negb (exists_ (confessionAt s id))
      then (Revert ConfessionDoesNotExist, s)
    else if hasUpvotedAt s id (sender ctx) then (Revert AlreadyUpvoted, s)
    else if voteCount (confessionAt s id) =? MAX_UINT32
      then (Revert (Panic PANIC_OVERFLOW), s)
    else (Ok (RetUnit, [ConfessionUpvoted id (sender ctx) (timestamp ctx)]),
          upvoted ctx id s).
Proof. apply upvote_table. Qed.

(** ** The cooldown *)

(** X10. The cooldown never exceeds one hour: in every reachable state
    [0 <= rateLimitCooldown <= 3600], [getRemainingCooldown] returns (it
    cannot overflow), its result is not negative, and it is at most 3600
    once the clock is not behind the user's last submission. *)
Theorem cooldown_at_most_one_hour (s : State) (ctx : Ctx) (user : Z) :
  reachable s ->
  0 <= rateLimitCooldown s <= 3600 /\
  exists r,
    call_view (getRemainingCooldown ctx user) s = Ok r /\
    0 <= r /\
    (lastSubmissionTimeAt s user <= timestamp ctx -> r <= 3600).
Proof.
  intros R. destruct (reachable_clock s R) as [Hcd Hlast].
  split; [done|]. specialize (Hlast user). unfold is_uint in Hlast.
  eexists. rewrite getRemainingCooldown_eq.
  assert (Hbig : 2 ^ 64 + 3600 < 2 ^ 256) by (vm_compute; reflexivity).
  rewrite (proj2 (Z.ltb_lt _ _)) by lia.
  split; [reflexivity|]. lia.
Qed.

(** X11. The remaining cooldown is exact.  In a reachable, unpaused state
    with room for one more id, let [r] be what [getRemainingCooldown]
    returns for the sender at time [now]: a submission of a non-empty
    message by that sender is refused with "Rate limit active" at every
    time in [[now, now + r)] and commits at every time from [now + r] on. *)
Theorem remaining_cooldown_is_exact
    (s : State) (ctx later : Ctx) (m : list byte) :
  reachable s ->
  paused s = false -> m <> [] -> confessionCount s < MAX_UINT256 ->
  sender later = sender ctx -> timestamp ctx <= timestamp later ->
  exists r,
    call_view (getRemainingCooldown ctx (sender ctx)) s = Ok r /\
    (timestamp later < timestamp ctx + r ->
     execute s (later, CallSubmitConfession m) = (Revert RateLimitActive, s)) /\
    (timestamp ctx + r <= timestamp later ->
     execute s (later, CallSubmitConfession m) =
       (Ok (RetUint (confessionCount s + 1),
            [ConfessionSubmitted (confessionCount s + 1)
               (sender later) (timestamp later)]),
        submitted later m s)).
Proof.
  intros R Hp Hm Hroom Hsame Hle.
  destruct (reachable_clock s R) as [Hcd Hlast].
  specialize (Hlast (sender ctx)). unfold is_uint in Hlast.
  assert (Hbig : 2 ^ 64 + 3600 < 2 ^ 256) by (vm_compute; reflexivity).
  eexists. rewrite getRemainingCooldown_eq.
  rewrite (proj2 (Z.ltb_lt _ _)) by lia.
  split; [reflexivity|].
  rewrite (submit_table s later m R), Hp, Hsame.
  rewrite decide_False by done.
  split; intros Ht.
  - by rewrite (proj2 (Z.ltb_lt _ _)) by lia.
  - rewrite (proj2 (Z.ltb_ge _ _)) by lia.
    by rewrite (proj2 (Z.eqb_neq _ _)) by lia.
Qed.

(** X12. Rate limits are kept per address: over any transactions among
    which [user] submits nothing, and which leave [rateLimitCooldown] as it
    was, [getRemainingCooldown(user)] answers the same at every time;
    other users' submissions and all upvotes do not delay [user]. *)
Theorem rate_limit_is_per_user
    (s : State) (txs : list (Ctx * Call)) (user : Z) (ctx : Ctx) :
  Forall (fun tx => ~ is_submit_by user tx) txs ->
  rateLimitCooldown (final s txs) = rateLimitCooldown s ->
  lastSubmissionTimeAt (final s txs) user = lastSubmissionTimeAt s user /\
  call_view (getRemainingCooldown ctx user) (final s txs) =
    call_view (getRemainingCooldown ctx user) s.
Proof.
  intros Hno Hcd.
  pose proof (lastSubmissionTimeAt_run s txs user Hno) as Hl.
  split; [done|]. by rewrite !getRemainingCooldown_eq, Hl, Hcd.
Qed.

(** ** Events *)

Lemma events_step s tx :
  let e := (tx, fst (execute s tx)) in
  length (filter (fun ev => is_ConfessionSubmitted ev = true) (events_of [e]))
    = length (submitted_id e) /\
  forall id,
    length (filter (fun ev => is_ConfessionUpvoted id ev = true) (events_of [e]))
    = length (upvoter id e).
Proof.
  destruct tx as [ctx c]. cbn zeta.
  destruct (execute_inv s ctx c) as [[r ->]|(r & evs & s' & -> & Hc)];
    cbn [fst snd].
  - split; [|intros id]; by destruct c.
  - inversion Hc; subst; clear Hc; (split; [done|intros id0]); try done.
    unfold events_of; cbn. destruct (decide (id = id0)) as [->|Hne].
    + by rewrite Z.eqb_refl, decide_True.
    + by rewrite (proj2 (Z.eqb_neq _ _)), decide_False.
Qed.

Lemma events_of_app l1 l2 : events_of (l1 ++ l2) = events_of l1 ++ events_of l2.
Proof. unfold events_of. by rewrite map_app, concat_app. Qed.

Lemma events_run s txs :
  let log := fst (run s txs) in
  length (filter (fun ev => is_ConfessionSubmitted ev = true) (events_of log))
    = length (submitted_ids log) /\
  forall id,
    length (filter (fun ev => is_ConfessionUpvoted id ev = true) (events_of log))
    = length (upvoters id log).
Proof.
  revert s. induction txs as [|tx txs IH]; intros s; [by split|].
  cbn zeta. cbn [run].
  destruct (events_step s tx) as [Hs Hu].
  destruct (execute s tx) as [o s1]; cbn [fst snd] in *.
  destruct (IH s1) as [Hs' Hu'].
  destruct (run s1 txs) as [log s2]; cbn [fst snd] in *.
  change ((tx, o) :: log) with ([(tx, o)] ++ log).
  rewrite events_of_app.
  split; [|intros id]; rewrite filter_app, length_app.
  - unfold submitted_ids in *. rewrite map_app, concat_app, length_app.
    rewrite Hs', Hs. unfold submitted_ids; cbn. by rewrite app_nil_r.
  - unfold upvoters in *. rewrite map_app, concat_app, length_app.
    rewrite Hu', Hu. cbn. by rewrite app_nil_r.
Qed.

(** X13. The events index the ledger: from deployment, [confessionCount]
    is the number of [ConfessionSubmitted] events emitted so far, and the
    [voteCount] of every id is the number of [ConfessionUpvoted] events
    emitted for it; a reverted transaction contributes none. *)
Theorem events_index_the_ledger
    (deployer : Z) (txs : list (Ctx * Call)) (id : Z) :
  let log := fst (run (initial deployer) txs) in
  let s := final (initial deployer) txs in
  confessionCount s =
    Z.of_nat (length (filter (fun ev => is_ConfessionSubmitted ev = true)
                             (events_of log))) /\
  voteCount (confessionAt s id) =
    Z.of_nat (length (filter (fun ev => is_ConfessionUpvoted id ev = true)
                             (events_of log))).
Proof.
  intros log s.
  pose proof (ledger_inv_deployed deployer txs) as I. fold log s in I.
  destruct (events_run (initial deployer) txs) as [Hs Hu]. fold log in Hs, Hu.
  by rewrite Hs, Hu, (inv_count _ _ I), (inv_votes _ _ I).
Qed.

(** ** The id counter after a submission *)

Lemma confessionCount_run s txs :
  confessionCount (final s txs) =
  confessionCount s + Z.of_nat (length (submitted_ids (fst (run s txs)))).
Proof.
  revert s. induction txs as [|tx txs IH]; intros s; [cbn; lia|].
  unfold final; cbn [run].
  assert (Hstep : confessionCount (snd (execute s tx)) =
                  confessionCount s
                  + Z.of_nat (length (submitted_id (tx, fst (execute s tx))))).
  { destruct tx as [ctx c].
    destruct (execute_inv s ctx c) as [[r ->]|(r & evs & s' & -> & Hc)];
      cbn [fst snd].
    - destruct c; cbn; lia.
    - inversion Hc; subst; clear Hc; cbn; lia. }
  destruct (execute s tx) as [o s1]; cbn [fst snd] in *.
  specialize (IH s1). unfold final in IH.
  destruct (run s1 txs) as [log s2]; cbn [fst snd] in *.
  unfold submitted_ids in *; cbn [map concat]. rewrite length_app. lia.
Qed.

(** X14. Reading [confessionCount] after one's own submission gives the
    id of that confession only if nobody submitted in between: right after
    a committed [submitConfession] the counter equals the returned id, and
    after further transactions it exceeds the id by the number of
    submissions committed among them. *)
Theorem confessionCount_after_submission
    (s s' : State) (ctx : Ctx) (m : list byte) (id : Z) (evs : list Event)
    (txs : list (Ctx * Call)) :
  execute s (ctx, CallSubmitConfession m) = (Ok (RetUint id, evs), s') ->
  confessionCount s' = id /\
  call_view confessionCount_getter (final s' txs) =
    Ok (id + Z.of_nat (length (submitted_ids (fst (run s' txs))))).
Proof.
  intros E. apply execute_commits in E. inversion E; subst; clear E.
  split; [reflexivity|].
  by rewrite confessionCount_getter_eq, confessionCount_run.
Qed.

End LedgerFacts.

(** * Properties of the client *)

Section ClientFacts.

(** ** lib/utils.ts *)

Lemma length_lit_dots : length (lit "...") = 3%nat.
Proof. reflexivity. Qed.

(** X15. [truncateAddress] keeps an address of at most
    [startChars + endChars] characters (and the empty one) unchanged, and
    otherwise returns its first [startChars] characters, three dots and its
    last [endChars] characters, [startChars + 3 + endChars] characters in
    all (13 with the defaults 6 and 4).  With [endChars = 0] the slice
    [slice(-0)] is the whole string: the result is the prefix, the dots
    and then the entire address. *)
Theorem truncateAddress_shape (address : jsstring) (startChars endChars : Z) :
  let len := Z.of_nat (length address) in
  0 <= startChars -> 0 <= endChars ->
  truncateAddress address None None = truncateAddress address (Some 6) (Some 4) /\
  (len <= startChars + endChars ->
   truncateAddress address (Some startChars) (Some endChars) = address) /\
  (startChars + endChars < len -> 0 < endChars ->
   truncateAddress address (Some startChars) (Some endChars) =
     take (Z.to_nat startChars) address ++ lit "..."
     ++ drop (Z.to_nat (len - endChars)) address /\
   Z.of_nat (length (truncateAddress address (Some startChars) (Some endChars)))
     = startChars + 3 + endChars) /\
  (startChars < len -> endChars = 0 ->
   truncateAddress address (Some startChars) (Some endChars) =
     take (Z.to_nat startChars) address ++ lit "..." ++ address).
Proof.
  intros len Hs He. split; [reflexivity|].
  unfold truncateAddress; cbn [default].
  destruct address as [|x l]; [by repeat split; intros; cbn in *; lia|].
  cbv iota. unfold id. set (address := x :: l) in *. fold len.
  split; [|split].
  - intros Hle. by rewrite (proj2 (Z.leb_le _ _)).
  - intros Hlt Hpos. rewrite (proj2 (Z.leb_gt _ _)) by lia.
    unfold js_slice. fold len.
    change (0 <? 0) with false.
    rewrite (proj2 (Z.ltb_ge startChars 0)) by lia.
    rewrite (proj2 (Z.ltb_lt (- endChars) 0)) by lia.
    rewrite !Z.min_l, Z.max_l by lia.
    rewrite drop_0, Z.sub_0_r.
    rewrite (take_ge (drop _ _)) by (rewrite length_drop; lia).
    replace (len + - endChars) with (len - endChars) by lia.
    split; [done|].
    rewrite !length_app, length_take, length_drop, length_lit_dots. lia.
  - intros Hlt ->. rewrite (proj2 (Z.leb_gt _ _)) by lia.
    unfold js_slice. fold len. cbn [Z.opp].
    change (0 <? 0) with false.
    rewrite (proj2 (Z.ltb_ge startChars 0)) by lia.
    rewrite !Z.min_l by lia.
    rewrite !drop_0, !Z.sub_0_r.
    by rewrite (take_ge address (Z.to_nat len)) by lia.
Qed.

(** X16. [getRelativeTime], for an age [now - timestamp] below 2^53
    seconds, where its double arithmetic is exact: it shows "just now"
    for anything younger than a minute, timestamps in the future
    included; otherwise it shows the count [n = floor (age / unit)],
    [n >= 1], of the one unit whose range holds the age: minutes from 60
    seconds up to an hour (at most 59), hours up to a day (at most 23),
    days up to 7 days (at most 6), weeks of 7 days up to 30 days (at most
    4), months of 30 days up to 365 days (at most 12), years of 365 days
    from there on. *)
Theorem getRelativeTime_buckets (now timestamp : Z) :
  let diff := now - timestamp in
  diff < 2 ^ 53 ->
  (diff < 60 -> getRelativeTime now timestamp = lit "just now") /\
  (60 <= diff ->
   exists n suffix seconds upto most,
     getRelativeTime now timestamp = number_text n ++ lit suffix /\
     In (suffix, seconds, upto, most)
        [ ("m ago", 60, Some 3600, Some 59);
          ("h ago", 3600, Some 86400, Some 23);
          ("d ago", 86400, Some 604800, Some 6);
          ("w ago", 604800, Some 2592000, Some 4);
          ("mo ago", 2592000, Some 31536000, Some 12);
          ("y ago", 31536000, None, None) ]%string /\
     seconds <= diff /\ (forall u, upto = Some u -> diff < u) /\
     n = diff / seconds /\
     1 <= n < 2 ^ 53 /\ (forall k, most = Some k -> n <= k) /\
     n * seconds <= diff < (n + 1) * seconds).
Proof.
  intros diff Hbound. unfold getRelativeTime. fold diff. split.
  - intros H. by rewrite (proj2 (Z.ltb_lt _ _)).
  - intros H. rewrite (proj2 (Z.ltb_ge diff 60)) by lia.
    assert (Hdiv : forall d, 0 < d -> d <= diff ->
              1 <= diff / d < 2 ^ 53 /\
              (diff / d) * d <= diff < (diff / d + 1) * d).
    { intros d Hd Hle. split; [split|].
      - apply Z.div_le_lower_bound; lia.
      - apply Z.le_lt_trans with diff; [|done].
        apply Z.div_le_upper_bound; nia.
      - pose proof (Z.mul_div_le diff d Hd).
        pose proof (Z.mul_succ_div_gt diff d Hd). lia. }
    assert (Hup : forall d b, 0 < d -> diff < b * d -> diff / d <= b - 1).
    { intros d b Hd Hlt.
      assert (diff / d < b) by (apply Z.div_lt_upper_bound; lia). lia. }
    destruct (diff <? 3600) eqn:E1; bool_to_prop.
    { exists (diff / 60), "m ago"%string, 60, (Some 3600), (Some 59).
      destruct (Hdiv 60) as [? ?]; try lia.
      repeat split; try done; try lia.
      - by left.
      - by intros u [= <-].
      - intros k [= <-]. apply (Hup 60 60); lia. }
    destruct (diff <? 86400) eqn:E2; bool_to_prop.
    { exists (diff / 3600), "h ago"%string, 3600, (Some 86400), (Some 23).
      destruct (Hdiv 3600) as [? ?]; try lia.
      repeat split; try done; try lia.
      - right. by left.
      - by intros u [= <-].
      - intros k [= <-]. apply (Hup 3600 24); lia. }
    destruct (diff <? 604800) eqn:E3; bool_to_prop.
    { exists (diff / 86400), "d ago"%string, 86400, (Some 604800), (Some 6).
      destruct (Hdiv 86400) as [? ?]; try lia.
      repeat split; try done; try lia.
      - do 2 right. by left.
      - by intros u [= <-].
      - intros k [= <-]. apply (Hup 86400 7); lia. }
    destruct (diff <? 2592000) eqn:E4; bool_to_prop.
    { exists (diff / 604800), "w ago"%string, 604800, (Some 2592000), (Some 4).
      destruct (Hdiv 604800) as [? ?]; try lia.
      repeat split; try done; try lia.
      - do 3 right. by left.
      - by intros u [= <-].
      - intros k [= <-]. apply (Hup 604800 5); lia. }
    destruct (diff <? 31536000) eqn:E5; bool_to_prop.
    { exists (diff / 2592000), "mo ago"%string, 2592000, (Some 31536000),
        (Some 12).
      destruct (Hdiv 2592000) as [? ?]; try lia.
      repeat split; try done; try lia.
      - do 4 right. by left.
      - by intros u [= <-].
      - intros k [= <-]. apply (Hup 2592000 13); lia. }
    exists (diff / 31536000), "y ago"%string, 31536000, None, None.
    destruct (Hdiv 31536000) as [? ?]; try lia.
    repeat split; try done; try lia.
    do 5 right. by left.
Qed.

Lemma nine_tenths_of_500 : round_to_double (500 * NINE_TENTHS) = 450 * 2 ^ 53.
Proof. vm_compute. reflexivity. Qed.

(** X17. [validateConfessionLength] accepts a text exactly when it has
    between 10 and [maxLength] code units; [status] is "error" exactly when
    the text is longer than [maxLength], so an accepted text is never in
    error, and [remaining] is negative exactly then.  With the default
    [maxLength] of 500, [status] is "warning" exactly for lengths 451 to
    500. *)
Theorem validateConfessionLength_verdict (text : jsstring) (maxLength : Z) :
  let len := Z.of_nat (length text) in
  let v := validateConfessionLength text (Some maxLength) in
  let d := validateConfessionLength text None in
  (isValid v = true <-> 10 <= len <= maxLength) /\
  (status v = StatusError <-> maxLength < len) /\
  (isValid v = true -> status v <> StatusError) /\
  (remaining v < 0 <-> status v = StatusError) /\
  (isValid d = true <-> 10 <= len <= 500) /\
  (status d = StatusWarning <-> 450 < len <= 500).
Proof.
  intros len v d. unfold v, d, validateConfessionLength; cbn [default isValid
    status remaining]. unfold id. fold len.
  assert (Herr : forall mx,
            (if mx <? len then StatusError
             else if exceeds_nine_tenths len mx then StatusWarning
             else StatusOk) = StatusError <-> mx < len).
  { intros mx. destruct (mx <? len) eqn:E; bool_to_prop; [done|].
    split; [by destruct (exceeds_nine_tenths len mx)|lia]. }
  split; [rewrite andb_true_iff, Z.leb_le, Z.leb_le; lia|].
  split; [apply Herr|].
  split.
  { rewrite andb_true_iff, Z.leb_le, Z.leb_le, Herr. lia. }
  split; [rewrite Herr; lia|].
  split; [rewrite andb_true_iff, Z.leb_le, Z.leb_le; lia|].
  unfold exceeds_nine_tenths. rewrite nine_tenths_of_500.
  destruct (500 <? len) eqn:E; bool_to_prop; [split; [done|lia]|].
  destruct (450 * 2 ^ 53 <? len * 2 ^ 53) eqn:E2; bool_to_prop.
  - split; [intros _|done]. split; [|lia].
    apply Z.mul_lt_mono_pos_r in E2; lia.
  - split; [done|]. intros [Hlt _].
    assert (450 * 2 ^ 53 < len * 2 ^ 53); [|lia].
    apply Z.mul_lt_mono_pos_r; lia.
Qed.

(** ** store/useAppStore.ts *)

Lemma dispatch_action_count st a :
  app_confessionCount st = Z.of_nat (length (app_confessions st)) ->
  app_confessionCount (dispatch_action st a) =
    Z.of_nat (length (app_confessions (dispatch_action st a))).
Proof.
  intros H. destruct a; cbn; try done.
  - lia.
  - by rewrite length_map.
Qed.

(** X18. Whatever actions are dispatched on the store from its initial
    state, [confessionCount] is the length of [confessions]. *)
Theorem store_count_is_list_length (acts : list Action) :
  let st := dispatch_actions initialAppState acts in
  app_confessionCount st = Z.of_nat (length (app_confessions st)).
Proof.
  cbv zeta. unfold dispatch_actions.
  assert (H0 : app_confessionCount initialAppState =
               Z.of_nat (length (app_confessions initialAppState))) by done.
  revert H0. generalize initialAppState.
  induction acts as [|a acts IH]; intros st H; [done|].
  cbn [fold_left]. apply IH. by apply dispatch_action_count.
Qed.

Lemma spread_empty c : spread c empty_update = c.
Proof. by destruct c. Qed.

Lemma app_state_eta st cs :
  cs = app_confessions st ->
  {| app_isConnected := app_isConnected st; app_address := app_address st;
     app_network := app_network st; app_theme := app_theme st;
     app_isLoading := app_isLoading st;
     app_isSidebarOpen := app_isSidebarOpen st;
     app_confessions := cs;
     app_selectedConfession := app_selectedConfession st;
     app_confessionCount := app_confessionCount st;
     app_filterMode := app_filterMode st; app_sortMode := app_sortMode st |}
  = st.
Proof. intros ->. by destruct st. Qed.

(** X19. [updateConfession(id, updates)] replaces, in place, every entry
    whose id is [id] by its merge with [updates] and nothing else: the
    list keeps its length and order, the entries with another id are
    untouched, and so are the ids when [updates] carries none; the action
    is a no-op when no entry has that id, and when [updates] is empty. *)
Theorem updateConfession_in_place
    (st : AppState) (id : Z) (updates : PartialConfession) :
  let st' := dispatch_action st (updateConfession id updates) in
  length (app_confessions st') = length (app_confessions st) /\
  (forall i c, app_confessions st !! i = Some c ->
     app_confessions st' !! i =
       Some (if fc_id c =? id then spread c updates else c)) /\
  (pc_id updates = None ->
   map fc_id (app_confessions st') = map fc_id (app_confessions st)) /\
  (Forall (fun c => fc_id c <> id) (app_confessions st) -> st' = st) /\
  dispatch_action st (updateConfession id empty_update) = st.
Proof.
  cbv zeta. cbn [dispatch_action app_confessions].
  split; [by rewrite length_map|].
  split.
  { intros i c Hi. by rewrite list_lookup_fmap, Hi. }
  split.
  { intros Hid. rewrite map_map. apply map_ext. intros c.
    destruct (fc_id c =? id); [|done]. cbn. by rewrite Hid. }
  split.
  { intros Hno. apply app_state_eta.
    induction Hno as [|c l Hc _ IH]; [done|]. cbn [map].
    by rewrite (proj2 (Z.eqb_neq _ _) Hc), IH. }
  apply app_state_eta.
  induction (app_confessions st) as [|c l IH]; [done|]. cbn [map].
  rewrite IH, spread_empty. by destruct (fc_id c =? id).
Qed.

End ClientFacts.

(** * Properties of the pages *)

Lemma round_to_double_exact z : Z.abs z < 2 ^ 53 -> round_to_double z = z.
Proof.
  intros H. unfold round_to_double.
  rewrite (proj2 (Z.ltb_lt _ _) H), Z.mul_comm. apply Z.abs_sgn.
Qed.

Lemma sort_insert_perm {A} (compareFn : A -> A -> Z) x l :
  sort_insert compareFn x l ≡ₚ x :: l.
Proof.
  induction l as [|y l IH]; cbn; [done|].
  destruct (0 <? compareFn x y); [|done].
  rewrite IH. apply perm_swap.
Qed.

Lemma js_sort_perm {A} (compareFn : A -> A -> Z) l :
  js_sort compareFn l ≡ₚ l.
Proof.
  induction l as [|x l IH]; [done|].
  change (js_sort compareFn (x :: l))
    with (sort_insert compareFn x (js_sort compareFn l)).
  rewrite sort_insert_perm. by f_equiv.
Qed.

Lemma sort_insert_sorted x l :
  StronglySorted shown_before l -> Forall (newer x) l ->
  StronglySorted shown_before (sort_insert by_votes x l).
Proof.
  induction l as [|y l IH]; intros Hs Hn; cbn.
  - by repeat constructor.
  - apply StronglySorted_inv in Hs as [Hs Hy].
    apply Forall_cons in Hn as [Hxy Hn].
    unfold by_votes at 1.
    destruct (0 <? votes_of y - votes_of x) eqn:E; bool_to_prop.
    + constructor; [by apply IH|].
      rewrite sort_insert_perm. constructor; [|done]. left. lia.
    + constructor; [by constructor|].
      constructor.
      * unfold shown_before, newer in *. lia.
      * rewrite Forall_forall in *. intros z Hz.
        specialize (Hy z Hz). specialize (Hn z Hz).
        unfold shown_before, newer in *. lia.
Qed.

Lemma js_sort_sorted l :
  StronglySorted newer l -> StronglySorted shown_before (js_sort by_votes l).
Proof.
  induction 1 as [|x l Hs IH Hx]; [constructor|].
  change (js_sort by_votes (x :: l))
    with (sort_insert by_votes x (js_sort by_votes l)).
  apply sort_insert_sorted; [done|]. by rewrite js_sort_perm.
Qed.

Lemma elem_of_List_filter {A} (f : A -> bool) l x :
  x ∈ List.filter f l <-> x ∈ l /\ f x = true.
Proof. rewrite !list_elem_of_In. apply filter_In. Qed.

Lemma StronglySorted_List_filter {A} (R : relation A) (f : A -> bool) l :
  StronglySorted R l -> StronglySorted R (List.filter f l).
Proof.
  induction 1 as [|x l Hs IH Hx]; cbn; [constructor|].
  destruct (f x); [|done]. constructor; [done|].
  rewrite Forall_forall in *. intros y Hy.
  apply Hx. by apply elem_of_List_filter in Hy as [? _].
Qed.

Lemma StronglySorted_reverse {A} (R : relation A) l :
  StronglySorted R l -> StronglySorted (flip R) (reverse l).
Proof.
  induction 1 as [|x l Hs IH Hx]; [constructor|].
  rewrite reverse_cons. apply StronglySorted_app_2; [|done|by repeat constructor].
  intros y z Hy Hz. apply list_elem_of_singleton in Hz as ->.
  rewrite elem_of_reverse in Hy. rewrite Forall_forall in Hx.
  unfold flip. by apply Hx.
Qed.

Lemma seqZ_sorted m n : StronglySorted Z.lt (seqZ m n).
Proof.
  destruct (decide (n <= 0)) as [Hn|Hn]; [rewrite seqZ_nil by done; constructor|].
  rewrite <- (Z2Nat.id n) by lia. generalize (Z.to_nat n) as k. clear Hn.
  intros k. revert m. induction k as [|k IH]; intros m; [constructor|].
  rewrite seqZ_cons by lia. constructor.
  - replace (Z.pred (Z.of_nat (S k))) with (Z.of_nat k) by lia. apply IH.
  - apply Forall_seqZ. lia.
Qed.

Lemma lit_inj s s' : lit s = lit s' -> s = s'.
Proof.
  unfold lit. intros H.
  apply (f_equal (fun l => string_of_list_ascii
                             (map (fun z => ascii_of_N (Z.to_N z)) l))) in H.
  rewrite !map_map in H.
  assert (Hid : forall l : list ascii,
            map (fun a => ascii_of_N (Z.to_N (Z.of_N (N_of_ascii a)))) l = l).
  { intros l. induction l as [|a l IH]; [done|]. cbn [map].
    by rewrite N2Z.id, ascii_N_embedding, IH. }
  by rewrite !Hid, !string_of_list_ascii_of_string in H.
Qed.

Lemma number_text_inj a b : number_text a = number_text b -> a = b.
Proof.
  unfold number_text. intros H. apply lit_inj in H.
  assert (Hn : forall z, Z.to_int z <> Decimal.Pos Decimal.Nil /\
                         Z.to_int z <> Decimal.Neg Decimal.Nil).
  { intros [|p|p]; split; try discriminate; intros [= E];
      by apply Unsigned.to_uint_nonnil in E. }
  apply (f_equal NilZero.int_of_string) in H.
  rewrite !NilZero.isi in H by apply Hn.
  injection H as H. apply (f_equal Z.of_int) in H.
  by rewrite !DecimalZ.of_to in H.
Qed.

Lemma truthy_Some s n : truthy s = Some n -> truthy (Some n) = Some n.
Proof. destruct s as [[|c l]|]; [done| |done]. by intros [= <-]. Qed.

Lemma category_key_not_name_key x y :
  lit "category_" ++ x <> lit "customName_" ++ y.
Proof.
  change (lit "category_") with ([99; 97] ++ lit "tegory_").
  change (lit "customName_") with ([99; 117] ++ lit "stomName_").
  cbn [app]. discriminate.
Qed.

Section PageFacts.
Context {F : FHE}.
Variable hexToString : list byte -> jsstring.
Variable address_text : Z -> jsstring.

Lemma reachable_ledger_inv s : reachable s -> exists log, ledger_inv log s.
Proof.
  intros (d & txs & _ & ->). eexists. apply ledger_inv_deployed.
Qed.

Lemma load_entry_id reads address storage i c :
  load_entry hexToString address_text reads address storage i = Some c ->
  fc_id c = i.
Proof.
  unfold load_entry.
  destruct (read_getConfession reads i); [|done]. by intros [= <-].
Qed.

Lemma load_entry_labelled reads address storage i c :
  load_entry hexToString address_text reads address storage i = Some c ->
  labelled address_text storage c.
Proof.
  unfold load_entry.
  destruct (read_getConfession reads i); [|done]. by intros [= <-].
Qed.

Lemma load_entry_reachable s address storage i :
  reachable s -> 1 <= i <= confessionCount s ->
  exists c,
    load_entry hexToString address_text (reads_of s) address storage i
      = Some c /\
    fc_id c = i /\ mirrors hexToString s address c.
Proof.
  intros R Hi. unfold load_entry, reads_of;
    cbn [read_getConfession read_hasUserUpvoted].
  rewrite getConfession_eq, (proj2 (reachable_exists s i R) Hi).
  eexists. split; [reflexivity|]. split; [reflexivity|].
  unfold mirrors; cbn [fc_id fc_encryptedMessage fc_decryptedMessage
    fc_author fc_ipfsCID fc_exists fc_decryptedVotes fc_timestamp
    fc_hasUpvoted].
  repeat split.
Qed.

Lemma omap_total {A B} (f : A -> option B) (g : B -> A) (P : B -> Prop) l :
  (forall x, x ∈ l -> exists y, f x = Some y /\ g y = x /\ P y) ->
  g <$> omap f l = l /\ Forall P (omap f l).
Proof.
  induction l as [|x l IH]; intros H; [by split|].
  destruct (H x) as (y & Hf & Hg & HP); [by left|].
  destruct IH as [IH1 IH2]; [intros z Hz; apply H; by right|].
  cbn. rewrite Hf. cbn. split; [by rewrite Hg, IH1 | by constructor].
Qed.

Lemma loadedConfessions_labelled n reads address storage loaded :
  loadedConfessions hexToString address_text n reads address storage
    = Some loaded ->
  Forall (labelled address_text storage) loaded /\
  StronglySorted newer (reverse loaded).
Proof.
  unfold loadedConfessions. destruct (2 ^ 53 <=? n); [done|].
  intros [= <-]. split.
  - rewrite Forall_forall. intros c Hc.
    apply list_elem_of_omap in Hc as (i & _ & Hc).
    by apply load_entry_labelled in Hc.
  - apply (StronglySorted_reverse (fun a b => fc_id a < fc_id b)).
    pose proof (seqZ_sorted 1 n) as Hs.
    induction Hs as [|i l Hs IH Hi]; [constructor|]. cbn [omap list_omap].
    destruct (load_entry _ _ _ _ _ i) as [c|] eqn:E; [|done].
    constructor; [done|].
    rewrite Forall_forall in Hi. rewrite Forall_forall. intros c' Hc'.
    apply list_elem_of_omap in Hc' as (j & Hj & Hc').
    apply load_entry_id in E, Hc'. specialize (Hi j Hj). lia.
Qed.

Lemma loadedConfessions_reachable s address storage :
  reachable s -> confessionCount s < 2 ^ 53 ->
  exists loaded,
    loadedConfessions hexToString address_text
      (confessionCount s) (reads_of s) address storage = Some loaded /\
    fc_id <$> loaded = seqZ 1 (confessionCount s) /\
    Forall (mirrors hexToString s address) loaded.
Proof.
  intros R Hlt. unfold loadedConfessions.
  rewrite (proj2 (Z.leb_gt _ _)) by lia.
  eexists. split; [reflexivity|].
  apply omap_total. intros i Hi. apply elem_of_seqZ in Hi.
  apply load_entry_reachable; [done|lia].
Qed.

Lemma useConfessionCount_exact n :
  0 <= n < 2 ^ 53 -> useConfessionCount (Some n) = n.
Proof.
  intros H. unfold useConfessionCount.
  destruct (n =? 0) eqn:E; bool_to_prop; [done|].
  apply round_to_double_exact. lia.
Qed.

Lemma loadConfessions_reachable s address storage :
  reachable s -> confessionCount s < 2 ^ 53 ->
  exists feed,
    loadConfessions hexToString address_text
      (useConfessionCount (read_confessionCount (reads_of s)))
      (reads_of s) address storage = Some feed /\
    fc_id <$> feed = reverse (seqZ 1 (confessionCount s)) /\
    Forall (mirrors hexToString s address) feed /\
    Forall (labelled address_text storage) feed.
Proof.
  intros R Hlt.
  pose proof (confessionCount_bound s R) as Hb.
  assert (Hc : useConfessionCount (read_confessionCount (reads_of s))
               = confessionCount s).
  { unfold reads_of; cbn [read_confessionCount].
    rewrite confessionCount_getter_eq. apply useConfessionCount_exact. lia. }
  rewrite Hc. unfold loadConfessions.
  destruct (confessionCount s =? 0) eqn:E; bool_to_prop.
  - exists []. rewrite E. by repeat split.
  - destruct (loadedConfessions_reachable s address storage R Hlt)
      as (loaded & Hl & Hids & Hm).
    rewrite Hl. exists (reverse loaded). split; [done|].
    split; [by rewrite fmap_reverse, Hids|].
    split; [by apply Forall_reverse|].
    apply Forall_reverse. by apply loadedConfessions_labelled in Hl as [? _].
Qed.

(** X20. On a ledger state reached from deployment that holds fewer than
    2^53 confessions, the loader of the feed returns one entry for every
    confession, the newest (greatest id) first, and each entry carries
    the record as the ledger holds it: message, author, CID, vote count,
    creation time (as a double) and whether the connected account has
    upvoted it ([false] without an account); its name and category are
    the ones kept in [localStorage]. *)
Theorem feed_mirrors_ledger
    (s : State) (address : option Z) (storage : LocalStorage) :
  reachable s -> confessionCount s < 2 ^ 53 ->
  let count := useConfessionCount (read_confessionCount (reads_of s)) in
  exists feed,
    loadConfessions hexToString address_text
      count (reads_of s) address storage = Some feed /\
    fc_id <$> feed = reverse (seqZ 1 (confessionCount s)) /\
    Forall (mirrors hexToString s address) feed /\
    Forall (labelled address_text storage) feed.
Proof. intros R Hlt. by apply loadConfessions_reachable. Qed.

(** X21. The "Popular Confessions" row, for a feed that has the newest
    entry first: it shows at most six entries, all of them from the feed
    and with at least one vote; together with the entries left out they
    are the feed's entries with votes, and every entry shown comes before
    every later one and every one left out in the order "more votes
    first, newer first among equal votes".  Entries are left out only
    when six are shown. *)
Theorem popular_is_top_six (confessions : list FeedConfession) :
  StronglySorted newer confessions ->
  let popular := popularConfessions confessions in
  exists rest,
    popular ++ rest ≡ₚ List.filter (fun c => 0 <? votes_of c) confessions /\
    StronglySorted shown_before (popular ++ rest) /\
    Forall (fun c => c ∈ confessions /\ 0 < votes_of c) popular /\
    (length popular <= 6)%nat /\
    (rest <> [] -> length popular = 6%nat).
Proof.
  intros Hs popular. unfold popularConfessions in popular.
  set (voted := List.filter (fun c => 0 <? votes_of c) confessions) in *.
  exists (drop 6 (js_sort by_votes voted)). subst popular.
  rewrite take_drop.
  split; [apply js_sort_perm|].
  split; [by apply js_sort_sorted, StronglySorted_List_filter|].
  split.
  { rewrite Forall_forall. intros c Hc.
    apply elem_of_take in Hc as (i & Hc & _).
    apply list_elem_of_lookup_2 in Hc. rewrite js_sort_perm in Hc.
    apply elem_of_List_filter in Hc as [? ?]. by bool_to_prop. }
  rewrite length_take. split; [lia|].
  intros Hrest.
  destruct (decide (length (js_sort by_votes voted) <= 6)%nat) as [Hle|]; [|lia].
  by rewrite drop_ge in Hrest.
Qed.

Lemma not_a_category_key slug :
  In slug (map fst categories) -> not_a_category (lit slug) = false.
Proof.
  intros Hin. unfold not_a_category.
  rewrite bool_decide_eq_true_2; [done|].
  apply list_elem_of_In, in_map, in_or_app. by left.
Qed.

(** X22. The category page.  For a slug that is neither a key of the
    table [categories] nor a property name inherited from
    [Object.prototype] the page is [notFound()] and loads nothing.  For
    a key of the table (and a count between 1 and 2^53 - 1) it hands
    [setConfessions] the same list as the home page and shows exactly
    its entries of that category, ordered by votes, newer first among
    equal votes; an entry with no category in [localStorage] counts as
    "stupid-take". *)
Theorem category_page_shows_category
    (slug : string) (other : jsstring) (confessionCount : Z)
    (reads : ChainReads) (address : option Z) (storage : LocalStorage) :
  In slug (map fst categories) ->
  0 < confessionCount < 2 ^ 53 ->
  (not_a_category other = true ->
   CategoryPage hexToString address_text
     other confessionCount reads address storage = PageNotFound) /\
  exists loaded shown,
    CategoryPage hexToString address_text
      (lit slug) confessionCount reads address storage
      = PageRendered (Some (loaded, Some shown)) /\
    loadConfessions hexToString address_text
      confessionCount reads address storage = Some loaded /\
    (forall c, c ∈ shown <-> c ∈ loaded /\ fc_category c = Some (lit slug)) /\
    StronglySorted shown_before shown /\
    (forall c, c ∈ loaded ->
       truthy (getItem storage (lit "category_" ++ number_text (fc_id c)))
         = None ->
       fc_category c = Some (lit "stupid-take")).
Proof.
  intros Hkey Hc. split.
  { intros Hno. unfold CategoryPage. by rewrite Hno. }
  unfold CategoryPage. rewrite (not_a_category_key slug Hkey).
  unfold loadCategoryConfessions, loadConfessions.
  rewrite (proj2 (Z.eqb_neq _ _)) by lia.
  destruct (loadedConfessions _ _ _ _ _ _) as [loaded|] eqn:E.
  2:{ unfold loadedConfessions in E.
      rewrite (proj2 (Z.leb_gt _ _)) in E by lia. done. }
  apply loadedConfessions_labelled in E as [Hlab Hsorted].
  eexists _, _. split; [reflexivity|]. split; [reflexivity|].
  split; [|split].
  - intros c. rewrite js_sort_perm, elem_of_List_filter.
    split; intros [Hin Hcat]; (split; [done|]).
    + destruct (fc_category c) as [k|]; [|done].
      unfold jsstring_eqb in Hcat. by apply bool_decide_eq_true in Hcat as ->.
    + rewrite Hcat. unfold jsstring_eqb. by apply bool_decide_eq_true.
  - by apply js_sort_sorted, StronglySorted_List_filter.
  - intros c Hin Hnone. rewrite elem_of_reverse in Hin.
    rewrite Forall_forall in Hlab. destruct (Hlab c Hin) as [_ ->].
    by rewrite Hnone.
Qed.

Lemma saveConfessionData_eq name category a reads storage count :
  read_confessionCount reads = Some count ->
  0 <= count < 2 ^ 53 -> category <> [] ->
  saveConfessionData address_text true name (Some category) (Some a)
    reads storage =
  <[lit "category_" ++ number_text count := category]>
    (match truthy name with
     | Some n =>
         <[lit "customName_" ++ number_text count := n]>
           (<[lit "customName_" ++ address_text a := n]> storage)
     | None => storage
     end).
Proof.
  intros Hr Hc Hcat. unfold saveConfessionData, setItem. rewrite Hr.
  assert (Ht : truthy (Some category) = Some category)
    by by destruct category.
  rewrite Ht, round_to_double_exact by lia.
  rewrite (bool_decide_eq_true_2 (is_Some (Some category))) by by eexists.
  rewrite orb_true_r. cbn [andb]. by destruct (truthy name).
Qed.

(** X23. After a confirmed submission [saveConfessionData] files the
    pending category, and the custom name if there is one, under the
    value of [confessionCount] it reads: the submitter's id plus the
    number [k] of submissions committed in between.  The feed loaded
    from that state shows them on confession [id + k]; the submitter's
    own confession gets them when [k = 0], and keeps the category it had
    in [localStorage] before, "stupid-take" if none, when another
    submission came first. *)
Theorem labels_saved_under_latest_id
    (s0 : State) (ctx : Ctx) (m : list byte) (id : Z) (evs : list Event)
    (s1 : State) (txs : list (Ctx * Call))
    (name : option jsstring) (category : jsstring)
    (viewer : option Z) (storage : LocalStorage) :
  reachable s0 -> wf_tx (ctx, CallSubmitConfession m) -> Forall wf_tx txs ->
  execute s0 (ctx, CallSubmitConfession m) = (Ok (RetUint id, evs), s1) ->
  let s2 := final s1 txs in
  let k := Z.of_nat (length (submitted_ids (fst (run s1 txs)))) in
  confessionCount s2 < 2 ^ 53 -> category <> [] ->
  let storage' :=
    saveConfessionData address_text true name (Some category)
      (Some (sender ctx)) (reads_of s2) storage in
  exists feed mine latest,
    loadConfessions hexToString address_text
      (useConfessionCount (read_confessionCount (reads_of s2)))
      (reads_of s2) viewer storage' = Some feed /\
    mine ∈ feed /\ fc_id mine = id /\
    fc_author mine = sender ctx /\ fc_encryptedMessage mine = m /\
    latest ∈ feed /\ fc_id latest = id + k /\
    fc_category latest = Some category /\
    (forall n, truthy name = Some n -> fc_customName latest = Some n) /\
    (k = 0 -> mine = latest) /\
    (0 < k ->
     fc_category mine =
       Some (default (lit "stupid-take")
               (truthy (getItem storage
                          (lit "category_" ++ number_text id))))).
Proof.
  intros R0 Hwf Hwfs Hex s2 k Hlt Hcat storage'.
  assert (R1 : reachable s1).
  { pose proof (reachable_execute s0 _ R0 Hwf) as R1. by rewrite Hex in R1. }
  assert (R2 : reachable s2) by by apply reachable_run.
  apply execute_commits in Hex. inversion Hex; subst; clear Hex.
  set (s1 := submitted ctx m s0) in *.
  set (id := confessionCount s0 + 1) in *.
  assert (Hcount1 : confessionCount s1 = id) by reflexivity.
  assert (Hcount2 : confessionCount s2 = id + k).
  { unfold s2, k. by rewrite confessionCount_run, Hcount1. }
  pose proof (confessionCount_bound s0 R0) as Hb0.
  assert (Hk : 0 <= k) by (unfold k; lia).
  assert (Hst : storage' =
    <[lit "category_" ++ number_text (id + k) := category]>
      (match truthy name with
       | Some n =>
           <[lit "customName_" ++ number_text (id + k) := n]>
             (<[lit "customName_" ++ address_text (sender ctx) := n]> storage)
       | None => storage
       end)).
  { unfold storage'. apply saveConfessionData_eq; [|lia|done].
    unfold reads_of; cbn [read_confessionCount].
    by rewrite confessionCount_getter_eq, Hcount2. }
  destruct (loadConfessions_reachable s2 viewer storage' R2 Hlt)
    as (feed & Hfeed & Hids & Hmir & Hlab).
  rewrite Forall_forall in Hmir, Hlab.
  assert (Hentry : forall i, 1 <= i <= id + k ->
            exists c, c ∈ feed /\ fc_id c = i).
  { intros i Hi.
    assert (Hin : i ∈ fc_id <$> feed).
    { rewrite Hids, elem_of_reverse, elem_of_seqZ. lia. }
    apply list_elem_of_fmap in Hin as (c & -> & Hin). by exists c. }
  destruct (Hentry (id + k)) as (latest & Hlin & Hlid); [lia|].
  assert (Hmine : exists mine, mine ∈ feed /\ fc_id mine = id /\
                               (k = 0 -> mine = latest)).
  { destruct (decide (k = 0)) as [Hk0|Hk0].
    - exists latest. split; [done|]. split; [lia|done].
    - destruct (Hentry id) as (mine & ? & ?); [lia|]. by exists mine. }
  destruct Hmine as (mine & Hmin & Hmid & Hsame).
  exists feed, mine, latest.
  split; [done|]. split; [done|]. split; [done|].
  destruct (reachable_ledger_inv s1 R1) as [log I1].
  assert (Hrec : confessionAt s1 id =
    {| message := m; encryptedVotes := asEuint32 0; voteCount := 0;
       createdAt := timestamp ctx mod 2 ^ 64; author := sender ctx;
       ipfsCID := 0; exists_ := true |}).
  { unfold s1. rewrite confessionAt_submitted. by rewrite decide_True. }
  destruct (same_origin_run log s1 txs id I1) as [(Hm & _ & Ha & _) _];
    [by rewrite Hrec|].
  fold s2 in Hm, Ha. rewrite Hrec in Hm, Ha. cbn [message author] in Hm, Ha.
  destruct (Hmir mine Hmin) as (Hmm & _ & Hma & _). rewrite Hmid in Hmm, Hma.
  split; [congruence|]. split; [congruence|].
  split; [done|]. split; [done|].
  destruct (Hlab latest Hlin) as [Hname Hcategory]. rewrite Hlid in *.
  split.
  { rewrite Hcategory. unfold getItem. rewrite Hst, lookup_insert_eq.
    by destruct category. }
  split.
  { intros n Hn. rewrite Hname. unfold getItem.
    rewrite Hst, Hn, lookup_insert_ne by apply category_key_not_name_key.
    by rewrite lookup_insert_eq, (truthy_Some _ _ Hn). }
  split; [done|].
  intros Hpos. destruct (Hlab mine Hmin) as [_ ->]. rewrite Hmid.
  do 3 f_equal. unfold getItem. rewrite Hst.
  rewrite lookup_insert_ne.
  2:{ intros H. apply app_inv_head, number_text_inj in H. lia. }
  destruct (truthy name); [|done].
  by rewrite !lookup_insert_ne
    by (intros H; symmetry in H; by apply category_key_not_name_key in H).
Qed.

(** X24. The text on a card: never empty, the placeholder when the entry
    has no message or an empty one, and unless the card is expanded at
    most the limit of 150 (home page) or 200 code units followed by three
    dots; a text within the limit is shown whole. *)
Theorem card_text_is_bounded (c : FeedConfession) (isHomePage : bool) :
  let limit := if isHomePage then 150 else 200 in
  let whole := truncatedText c isHomePage true in
  let shown := truncatedText c isHomePage false in
  whole <> [] /\
  whole = default ENCRYPTED_PLACEHOLDER (truthy (fc_decryptedMessage c)) /\
  (truthy (fc_decryptedMessage c) = None -> shown = ENCRYPTED_PLACEHOLDER) /\
  Z.of_nat (length shown) <= limit + 3 /\
  (Z.of_nat (length whole) <= limit -> shown = whole) /\
  (limit < Z.of_nat (length whole) ->
   shown = take (Z.to_nat limit) whole ++ lit "...").
Proof.
  cbv zeta. unfold truncatedText.
  set (text := default ENCRYPTED_PLACEHOLDER (truthy (fc_decryptedMessage c))).
  set (limit := if isHomePage then 150 else 200).
  assert (Hl : limit = 150 \/ limit = 200)
    by (unfold limit; destruct isHomePage; auto).
  rewrite andb_false_r. cbn [negb]. rewrite andb_true_r.
  assert (Hslice : js_slice text 0 (Some limit) = take (Z.to_nat limit) text).
  { unfold js_slice. change (0 <? 0) with false.
    rewrite (proj2 (Z.ltb_ge limit 0)) by lia.
    rewrite (Z.min_l 0) by lia. rewrite drop_0, Z.sub_0_r.
    destruct (decide (limit <= Z.of_nat (length text))).
    - by rewrite Z.min_l by lia.
    - rewrite Z.min_r by lia.
      by rewrite !take_ge by lia. }
  split.
  { unfold text. destruct (fc_decryptedMessage c) as [[|]|]; done. }
  split; [done|].
  split.
  { intros Hn. unfold text. rewrite Hn. cbn [default].
    replace (limit <? _) with false; [done|].
    symmetry. apply Z.ltb_ge. destruct Hl as [-> | ->]; cbn; lia. }
  destruct (limit <? Z.of_nat (length text)) eqn:E; bool_to_prop.
  - rewrite Hslice. split.
    { rewrite length_app, length_take, length_lit_dots. lia. }
    split; [lia|done].
  - split; [lia|]. split; [done|lia].
Qed.

End PageFacts.

(** * The further properties on concrete runs *)

Section FurtherConcreteRuns.
Local Existing Instance TransparentFHE.

Ltac scalar := vm_compute; (reflexivity || discriminate).

Lemma wf_submission a t m :
  (0 <=? a) && (a <? 2 ^ 160) && (0 <=? t) && (t <? 2 ^ 64) = true ->
  wf_tx (at_time a t, CallSubmitConfession m).
Proof. intros H. split; [by apply wf_at_time | exact I]. Qed.

Lemma three_votes_reachable : reachable (final (initial the_owner) three_votes).
Proof.
  exists the_owner, three_votes. split; [|reflexivity].
  repeat constructor; scalar.
Qed.

Lemma confession_never_rewritten_witness :
  let s1 := final (initial the_owner) one_confession in
  let s2 := final s1 [ (at_time bob 1010, CallUpvote 1);
                       (at_time alice 1020, CallUpdateIPFSCID 1 42) ] in
  message (confessionAt s2 1) = message (confessionAt s1 1) /\
  createdAt (confessionAt s2 1) = createdAt (confessionAt s1 1) /\
  author (confessionAt s2 1) = author (confessionAt s1 1) /\
  exists_ (confessionAt s2 1) = true.
Proof.
  apply (confession_never_rewritten the_owner one_confession
           [ (at_time bob 1010, CallUpvote 1);
             (at_time alice 1020, CallUpdateIPFSCID 1 42) ] 1).
  scalar.
Defined.

Lemma votes_never_withdrawn_witness :
  let s1 := final (initial the_owner) voted_once in
  let s2 := final s1 [ (at_time carol 1020, CallUpvote 1);
                       (at_time the_owner 1030, CallEmergencyPause) ] in
  call_view (hasUserUpvoted 1 bob) s2 = Ok true /\
  voteCount (confessionAt s1 1) <= voteCount (confessionAt s2 1).
Proof.
  cbv zeta.
  pose proof (votes_never_withdrawn the_owner voted_once
                [ (at_time carol 1020, CallUpvote 1);
                  (at_time the_owner 1030, CallEmergencyPause) ] 1 bob) as W.
  cbv zeta in W. destruct W as [Hv Hc].
  split; [apply Hv | apply Hc]; scalar.
Defined.

Lemma config_only_by_owner_witness :
  let s := initial the_owner in
  paused (final s three_votes) = paused s /\
  rateLimitCooldown (final s three_votes) = rateLimitCooldown s /\
  owner (final s three_votes) = owner s.
Proof.
  cbv zeta. apply (config_only_by_owner (initial the_owner) three_votes).
  repeat constructor; scalar.
Defined.

Lemma pause_functions_compose_witness :
  let s := initial the_owner in
  let c := at_time the_owner 10 in
  final s [(c, CallTogglePause); (c, CallTogglePause)] = s /\
  final s [(c, CallEmergencyPause); (c, CallUnpause)] = set_paused false s.
Proof.
  cbv zeta.
  destruct (pause_functions_compose (initial the_owner)
              (at_time the_owner 10) (at_time the_owner 10)
              eq_refl eq_refl) as (H1 & _ & _ & H4 & _).
  by split.
Defined.

Lemma ipfsCID_only_by_author_witness :
  let s1 := final (initial the_owner) one_confession in
  let s2 := final s1 [ (at_time bob 1010, CallUpdateIPFSCID 1 42);
                       (at_time bob 1020, CallUpvote 1) ] in
  ipfsCID (confessionAt s2 1) = ipfsCID (confessionAt s1 1).
Proof.
  apply (ipfsCID_only_by_author the_owner one_confession
           [ (at_time bob 1010, CallUpdateIPFSCID 1 42);
             (at_time bob 1020, CallUpvote 1) ] 1).
  - scalar.
  - repeat constructor; intros [Hs Hc]; [|exact Hc].
    vm_compute in Hs. discriminate.
Defined.

Lemma updateIPFSCID_last_write_wins_witness :
  let c := at_time alice 1100 in
  final alice_confession
    [(c, CallUpdateIPFSCID 1 5); (c, CallUpdateIPFSCID 1 6)] =
    final alice_confession [(c, CallUpdateIPFSCID 1 6)] /\
  ipfsCID (confessionAt (final alice_confession [(c, CallUpdateIPFSCID 1 6)]) 1)
    = 6.
Proof.
  cbv zeta.
  apply (updateIPFSCID_last_write_wins alice_confession
           (at_time alice 1100) (at_time alice 1100) 1 5 6); scalar.
Defined.

Lemma missing_id_behaviour_witness :
  call_view (getConfession 2) alice_confession
    = Revert ConfessionDoesNotExist /\
  execute alice_confession (at_time bob 1010, CallUpvote 2)
    = (Revert ConfessionDoesNotExist, alice_confession) /\
  call_view (hasUserUpvoted 2 bob) alice_confession = Ok false.
Proof.
  destruct (missing_id_behaviour alice_confession (at_time bob 1010) 2 0 bob
              alice_confession_reachable) as (Hg & _ & _ & Hu & Hh).
  { change (confessionCount alice_confession) with 1. lia. }
  split; [exact Hg|]. split; [|exact Hh]. apply Hu. reflexivity.
Defined.

Lemma submitConfession_outcomes_witness :
  execute alice_confession
    (at_time alice 1100, CallSubmitConfession hello_world_test) =
    (Revert RateLimitActive, alice_confession).
Proof.
  rewrite (submitConfession_outcomes alice_confession (at_time alice 1100)
             hello_world_test alice_confession_reachable).
  change (paused alice_confession) with false. cbv iota.
  rewrite decide_False by discriminate.
  replace (timestamp (at_time alice 1100) <?
           lastSubmissionTimeAt alice_confession (sender (at_time alice 1100))
           + rateLimitCooldown alice_confession) with true by scalar.
  reflexivity.
Defined.

Lemma upvote_outcomes_witness :
  execute alice_confession (at_time alice 1100, CallUpvote 1) =
    (Ok (RetUnit, [ConfessionUpvoted 1 alice 1100]),
     upvoted (at_time alice 1100) 1 alice_confession).
Proof.
  rewrite (upvote_outcomes alice_confession (at_time alice 1100) 1
             alice_confession_reachable).
  change (paused alice_confession) with false. cbv iota.
  replace (exists_ (confessionAt alice_confession 1)) with true by scalar.
  cbn [negb].
  replace (hasUpvotedAt alice_confession 1 (sender (at_time alice 1100)))
    with false by scalar.
  replace (voteCount (confessionAt alice_confession 1) =? MAX_UINT32)
    with false by scalar.
  reflexivity.
Defined.

Lemma cooldown_at_most_one_hour_witness :
  0 <= rateLimitCooldown alice_confession <= 3600 /\
  exists r,
    call_view (getRemainingCooldown (at_time alice 1100) alice)
      alice_confession = Ok r /\
    0 <= r <= 3600.
Proof.
  destruct (cooldown_at_most_one_hour alice_confession (at_time alice 1100)
              alice alice_confession_reachable) as (Hc & r & Hr & H0 & Hle).
  split; [exact Hc|]. exists r. split; [exact Hr|]. split; [exact H0|].
  apply Hle. scalar.
Defined.

Lemma remaining_cooldown_is_exact_witness :
  exists r,
    call_view (getRemainingCooldown (at_time alice 1100) alice)
      alice_confession = Ok r /\
    (1200 < 1100 + r ->
     execute alice_confession
       (at_time alice 1200, CallSubmitConfession hello_world_test) =
       (Revert RateLimitActive, alice_confession)).
Proof.
  assert (Hrunning : paused alice_confession = false) by scalar.
  assert (Hmessage : hello_world_test <> []) by scalar.
  assert (Hroom : confessionCount alice_confession < MAX_UINT256) by scalar.
  assert (Hlater : timestamp (at_time alice 1100)
                   <= timestamp (at_time alice 1200)) by scalar.
  destruct (remaining_cooldown_is_exact alice_confession
              (at_time alice 1100) (at_time alice 1200) hello_world_test
              alice_confession_reachable Hrunning Hmessage Hroom eq_refl
              Hlater) as (r & Hr & Hshort & _).
  exists r. split; [exact Hr|]. exact Hshort.
Defined.

Lemma rate_limit_is_per_user_witness :
  let txs := [ (at_time bob 1010, CallSubmitConfession hello_world_test);
               (at_time carol 1020, CallUpvote 1) ] in
  lastSubmissionTimeAt (final alice_confession txs) alice =
    lastSubmissionTimeAt alice_confession alice /\
  call_view (getRemainingCooldown (at_time alice 1100) alice)
    (final alice_confession txs) =
  call_view (getRemainingCooldown (at_time alice 1100) alice) alice_confession.
Proof.
  cbv zeta.
  apply (rate_limit_is_per_user alice_confession
           [ (at_time bob 1010, CallSubmitConfession hello_world_test);
             (at_time carol 1020, CallUpvote 1) ] alice (at_time alice 1100)).
  - repeat constructor; intros [Hs Hc]; [|exact Hc].
    vm_compute in Hs. discriminate.
  - scalar.
Defined.

Lemma confessionCount_after_submission_witness :
  confessionCount alice_confession = 1 /\
  call_view confessionCount_getter
    (final alice_confession
       [(at_time bob 1010, CallSubmitConfession hello_world_test)]) =
  Ok (1 + Z.of_nat (length (submitted_ids (fst (run alice_confession
       [(at_time bob 1010, CallSubmitConfession hello_world_test)]))))).
Proof.
  apply (confessionCount_after_submission (initial the_owner) alice_confession
           (at_time alice 1000) hello_world_test 1
           [ConfessionSubmitted 1 alice 1000]
           [(at_time bob 1010, CallSubmitConfession hello_world_test)]
           alice_submits_first).
Defined.

Lemma truncateAddress_shape_witness :
  let address := lit "0x52908400098527886E0F7030069857D2E4169EE7" in
  truncateAddress address None None = lit "0x5290...9EE7" /\
  truncateAddress address (Some 40) (Some 2) = address /\
  truncateAddress address (Some 4) (Some 0) = lit "0x52..." ++ address.
Proof.
  cbv zeta.
  destruct (truncateAddress_shape
              (lit "0x52908400098527886E0F7030069857D2E4169EE7") 6 4)
    as (Hd & _ & Hcut & _); [lia|lia|].
  destruct (truncateAddress_shape
              (lit "0x52908400098527886E0F7030069857D2E4169EE7") 40 2)
    as (_ & Hshort & _); [lia|lia|].
  destruct (truncateAddress_shape
              (lit "0x52908400098527886E0F7030069857D2E4169EE7") 4 0)
    as (_ & _ & _ & Hzero); [lia|lia|].
  split; [|split].
  - rewrite Hd. destruct Hcut as [-> _]; scalar.
  - apply Hshort. scalar.
  - rewrite Hzero by scalar. scalar.
Defined.

Lemma getRelativeTime_buckets_witness :
  getRelativeTime 1000 1030 = lit "just now" /\
  exists n suffix seconds upto most,
    getRelativeTime 10000 1000 = number_text n ++ lit suffix /\
    In (suffix, seconds, upto, most)
       [ ("m ago", 60, Some 3600, Some 59);
         ("h ago", 3600, Some 86400, Some 23);
         ("d ago", 86400, Some 604800, Some 6);
         ("w ago", 604800, Some 2592000, Some 4);
         ("mo ago", 2592000, Some 31536000, Some 12);
         ("y ago", 31536000, None, None) ]%string /\
    seconds <= 10000 - 1000 /\ (forall u, upto = Some u -> 10000 - 1000 < u) /\
    n = (10000 - 1000) / seconds /\
    1 <= n < 2 ^ 53 /\ (forall k, most = Some k -> n <= k) /\
    n * seconds <= 10000 - 1000 < (n + 1) * seconds.
Proof.
  split.
  - apply (getRelativeTime_buckets 1000 1030); lia.
  - apply (getRelativeTime_buckets 10000 1000); lia.
Defined.

Lemma validateConfessionLength_verdict_witness :
  let text := lit "I never read the whitepaper" in
  isValid (validateConfessionLength text None) = true /\
  status (validateConfessionLength text (Some 20)) = StatusError /\
  status (validateConfessionLength text (Some 27)) <> StatusError.
Proof.
  cbv zeta.
  destruct (validateConfessionLength_verdict
              (lit "I never read the whitepaper") 20)
    as (_ & Herr & _ & _ & Hd & _).
  destruct (validateConfessionLength_verdict
              (lit "I never read the whitepaper") 27)
    as (Hv & _ & Hok & _).
  split; [|split].
  - apply Hd. vm_compute. split; discriminate.
  - apply Herr. scalar.
  - apply Hok, Hv. vm_compute. split; discriminate.
Defined.

Lemma updateConfession_in_place_witness :
  let st := dispatch_actions initialAppState
              [ setConfessions [sample_entry 2 5; sample_entry 1 7] ] in
  dispatch_action st (updateConfession 3 empty_update) = st /\
  map fc_id (app_confessions (dispatch_action st (updateConfession 1 empty_update)))
    = [2; 1].
Proof.
  cbv zeta.
  destruct (updateConfession_in_place
              (dispatch_actions initialAppState
                 [ setConfessions [sample_entry 2 5; sample_entry 1 7] ])
              3 empty_update) as (_ & _ & _ & Hno & _).
  destruct (updateConfession_in_place
              (dispatch_actions initialAppState
                 [ setConfessions [sample_entry 2 5; sample_entry 1 7] ])
              1 empty_update) as (_ & _ & Hids & _ & _).
  split.
  - apply Hno. repeat constructor; discriminate.
  - by rewrite Hids.
Defined.

Lemma feed_mirrors_ledger_witness :
  let s := final (initial the_owner) three_votes in
  exists feed,
    loadConfessions one_unit_per_byte decimal_address
      (useConfessionCount (read_confessionCount (reads_of s)))
      (reads_of s) (Some bob) ∅ = Some feed /\
    fc_id <$> feed = reverse (seqZ 1 (confessionCount s)) /\
    Forall (mirrors one_unit_per_byte s (Some bob)) feed /\
    Forall (labelled decimal_address ∅) feed.
Proof.
  apply (feed_mirrors_ledger one_unit_per_byte decimal_address
           (final (initial the_owner) three_votes) (Some bob) ∅
           three_votes_reachable).
  scalar.
Defined.

Lemma popular_is_top_six_witness :
  let feed := [sample_entry 3 5; sample_entry 2 0; sample_entry 1 7] in
  exists rest,
    popularConfessions feed ++ rest
      ≡ₚ List.filter (fun c => 0 <? votes_of c) feed /\
    StronglySorted shown_before (popularConfessions feed ++ rest) /\
    Forall (fun c => c ∈ feed /\ 0 < votes_of c) (popularConfessions feed) /\
    (length (popularConfessions feed) <= 6)%nat /\
    (rest <> [] -> length (popularConfessions feed) = 6%nat).
Proof.
  apply (popular_is_top_six
           [sample_entry 3 5; sample_entry 2 0; sample_entry 1 7]).
  repeat constructor; unfold newer; cbn; lia.
Defined.

Lemma category_page_shows_category_witness :
  CategoryPage one_unit_per_byte decimal_address
    (lit "foo") 1 (reads_of alice_confession) None ∅ = PageNotFound /\
  exists loaded shown,
    CategoryPage one_unit_per_byte decimal_address
      (lit "stupid-take") 1 (reads_of alice_confession) None ∅
      = PageRendered (Some (loaded, Some shown)) /\
    loadConfessions one_unit_per_byte decimal_address
      1 (reads_of alice_confession) None ∅ = Some loaded /\
    (forall c, c ∈ shown <->
               c ∈ loaded /\ fc_category c = Some (lit "stupid-take")) /\
    StronglySorted shown_before shown /\
    (forall c, c ∈ loaded ->
       truthy (getItem ∅ (lit "category_" ++ number_text (fc_id c))) = None ->
       fc_category c = Some (lit "stupid-take")).
Proof.
  assert (Hkey : In "stupid-take"%string (map fst categories))
    by (do 4 right; by left).
  assert (Hcount : 0 < 1 < 2 ^ 53) by lia.
  destruct (category_page_shows_category one_unit_per_byte decimal_address
              "stupid-take" (lit "foo") 1 (reads_of alice_confession) None ∅
              Hkey Hcount) as [Hno Hshown].
  split; [|exact Hshown]. apply Hno. vm_compute. reflexivity.
Defined.

Lemma labels_saved_under_latest_id_witness :
  let txs := [(at_time bob 1010, CallSubmitConfession hello_world_test)] in
  let s2 := final alice_confession txs in
  let k := Z.of_nat (length (submitted_ids (fst (run alice_confession txs)))) in
  let storage' :=
    saveConfessionData decimal_address true (Some (lit "al"))
      (Some (lit "projects")) (Some (sender (at_time alice 1000)))
      (reads_of s2) ∅ in
  exists feed mine latest,
    loadConfessions one_unit_per_byte decimal_address
      (useConfessionCount (read_confessionCount (reads_of s2)))
      (reads_of s2) None storage' = Some feed /\
    mine ∈ feed /\ fc_id mine = 1 /\
    fc_author mine = sender (at_time alice 1000) /\
    fc_encryptedMessage mine = hello_world_test /\
    latest ∈ feed /\ fc_id latest = 1 + k /\
    fc_category latest = Some (lit "projects") /\
    (forall n, truthy (Some (lit "al")) = Some n ->
               fc_customName latest = Some n) /\
    (k = 0 -> mine = latest) /\
    (0 < k ->
     fc_category mine =
       Some (default (lit "stupid-take")
               (truthy (getItem ∅ (lit "category_" ++ number_text 1))))).
Proof.
  apply (labels_saved_under_latest_id one_unit_per_byte decimal_address
           (initial the_owner) (at_time alice 1000) hello_world_test 1
           [ConfessionSubmitted 1 alice 1000] alice_confession
           [(at_time bob 1010, CallSubmitConfession hello_world_test)]
           (Some (lit "al")) (lit "projects") None ∅
           (reachable_initial the_owner)).
  - apply wf_submission. scalar.
  - repeat constructor; scalar.
  - exact alice_submits_first.
  - scalar.
  - scalar.
Defined.

Lemma card_text_is_bounded_witness :
  let c := sample_entry 1 0 in
  truncatedText c true false = one_unit_per_byte hello_world_test /\
  Z.of_nat (length (truncatedText c true false)) <= 153.
Proof.
  cbv zeta.
  destruct (card_text_is_bounded (sample_entry 1 0) true)
    as (_ & Hwhole & _ & Hlen & Hshort & _).
  split; [|exact Hlen].
  rewrite Hshort, Hwhole; [reflexivity|]. rewrite Hwhole. scalar.
Defined.

End FurtherConcreteRuns.
